(** * FORD: configuration resolution and validation ([ford/__init__.py])

    A shallow embedding of [convert_to_bool] and of the part of
    [initialize] that runs after the project file has been read by the
    Markdown converter: the merge of command-line options, document
    metadata and defaults, the resolution of paths, the containment and
    docmark checks, the preprocessor probe and the license lookup.

    Python [str] values are modelled by [string]; a character is a code
    point below 256.  A [dict] is a [gmap], except [defaults] and
    [LICENSES], whose literal order is kept in an association list. *)

From Stdlib Require Import ZArith Ascii String.
From stdpp Require Import base option list gmap strings.

Local Open Scope Z_scope.

(** ** Python string operations used by the program *)

Module Py.

Definition chr (n : nat) : ascii := ascii_of_nat n.
Definition ord (c : ascii) : nat := nat_of_ascii c.

(** [c in s], for a one-character [c]. *)
Fixpoint contains (c : ascii) (s : string) : bool :=
  match s with
  | EmptyString => false
  | String a s' => if Ascii.eqb a c then true else contains c s'
  end.

Definition startswith (s pre : string) : bool := String.prefix pre s.

Fixpoint endswith_char (s : string) (c : ascii) : bool :=
  match s with
  | EmptyString => false
  | String a EmptyString => Ascii.eqb a c
  | String _ s' => endswith_char s' c
  end.

(** [s.split(sep)] for a one-character separator: never empty. *)
Fixpoint split (sep : ascii) (s : string) : list string :=
  match s with
  | EmptyString => [EmptyString]
  | String a s' =>
      if Ascii.eqb a sep then EmptyString :: split sep s'
      else match split sep s' with
           | [] => [String a EmptyString]
           | w :: ws => String a w :: ws
           end
  end.

(** [sep.join(l)]. *)
Definition join (sep : string) (l : list string) : string :=
  String.concat sep l.

(** [str.isspace] on one character. *)
Definition isspace (c : ascii) : bool :=
  let n := ord c in
  ((9 <=? n) && (n <=? 13) || (28 <=? n) && (n <=? 32)
   || (n =? 133) || (n =? 160))%nat.

Fixpoint lstrip (s : string) : string :=
  match s with
  | EmptyString => EmptyString
  | String a s' => if isspace a then lstrip s' else s
  end.

Definition strip (s : string) : string :=
  String.rev (lstrip (String.rev (lstrip s))).

(** [s.rstrip(c)] for a one-character set. *)
Fixpoint lstrip_char (c : ascii) (s : string) : string :=
  match s with
  | EmptyString => EmptyString
  | String a s' => if Ascii.eqb a c then lstrip_char c s' else s
  end.

Definition rstrip_char (c : ascii) (s : string) : string :=
  String.rev (lstrip_char c (String.rev s)).

(** [s.split()]: the maximal runs of non-whitespace characters. *)
Fixpoint split_ws_go (cur : option string) (s : string) : list string :=
  match s with
  | EmptyString => option_list (String.rev <$> cur)
  | String a s' =>
      if isspace a
      then option_list (String.rev <$> cur) ++ split_ws_go None s'
      else split_ws_go
             (Some (String a (default EmptyString cur))) s'
  end.

Definition split_ws (s : string) : list string := split_ws_go None s.

(** [str.lower] on code points below 256: the ASCII capitals and the
    Latin-1 capitals other than the multiplication sign. *)
Definition lower_char (c : ascii) : ascii :=
  let n := ord c in
  if ((65 <=? n) && (n <=? 90)
      || (192 <=? n) && (n <=? 222) && negb (n =? 215))%nat
  then chr (n + 32) else c.

Fixpoint lower (s : string) : string :=
  match s with
  | EmptyString => EmptyString
  | String a s' => String (lower_char a) (lower s')
  end.

(** [s * n]. *)
Fixpoint repeat (s : string) (n : nat) : string :=
  match n with
  | O => EmptyString
  | S n' => s +:+ repeat s n'
  end.

(** Truth value of a string. *)
Definition str_truthy (s : string) : bool :=
  match s with EmptyString => false | _ => true end.

End Py.

(** ** The operating-system services the program calls *)

(** Result of [subprocess.Popen(...).communicate()] inside the [try]
    block of the preprocessor probe. *)
Inductive spawn_result :=
  | Spawned (status : Z)
  | SpawnOSError (ex : string)
  | SpawnOtherError (ex : string).

Record world := World {
  environ : gmap string string;      (* os.environ *)
  getcwd : string;                   (* os.getcwd() *)
  pw_self : option string;           (* pwd.getpwuid(os.getuid()).pw_dir *)
  pw_name : string → option string;  (* pwd.getpwnam(name).pw_dir *)
  popen : list string → spawn_result;
  strftime_now : string → string;    (* datetime.now().strftime *)
  cpu_count : string;                (* ncpus *)
  today_year : Z                     (* date.today().year *)
}.

(** ** [os.path] on a POSIX system *)

Module posixpath.

Definition isabs (s : string) : bool := Py.startswith s "/".

(** [os.path.join(a, b)]. *)
Definition join (a b : string) : string :=
  if Py.startswith b "/" then b
  else if negb (Py.str_truthy a) || Py.endswith_char a "/"
       then a +:+ b
       else a +:+ "/" +:+ b.

(** One iteration of the loop of [normpath] over the components. *)
Definition normpath_step (initial_slashes : nat)
    (new_comps : list string) (comp : string) : list string :=
  if bool_decide (comp = "") || bool_decide (comp = ".") then new_comps
  else if negb (bool_decide (comp = ".."))
          || (bool_decide (initial_slashes = 0%nat)
              && bool_decide (new_comps = []))
          || (negb (bool_decide (new_comps = []))
              && bool_decide (last new_comps = Some ".."))
       then new_comps ++ [comp]
       else removelast new_comps.

(** The count of leading slashes [normpath] keeps: POSIX allows one
    or two, and treats three or more as one. *)
Definition initial_slashes (path : string) : nat :=
  if Py.startswith path "/"
  then if Py.startswith path "//" && negb (Py.startswith path "///")
       then 2%nat else 1%nat
  else 0%nat.

Definition normpath (path : string) : string :=
  if bool_decide (path = "") then "."
  else
    let initial_slashes := initial_slashes path in
    let comps := Py.split "/" path in
    let new_comps := fold_left (normpath_step initial_slashes) comps [] in
    let path := Py.join "/" new_comps in
    let path := Py.repeat "/" initial_slashes +:+ path in
    if Py.str_truthy path then path else ".".

(** [p[:p.rfind('/') + 1]]. *)
Fixpoint upto_last_sep (p : string) : string :=
  match p with
  | EmptyString => EmptyString
  | String a p' =>
      if Ascii.eqb a "/" || Py.contains "/" p'
      then String a (upto_last_sep p') else EmptyString
  end.

Definition dirname (p : string) : string :=
  let head := upto_last_sep p in
  if Py.str_truthy head && Py.str_truthy (Py.lstrip_char "/" head)
  then Py.rstrip_char "/" head else head.

Definition abspath (W : world) (path : string) : string :=
  normpath (if isabs path then path else join (getcwd W) path).

(** [\w] under [re.ASCII]. *)
Definition is_word (c : ascii) : bool :=
  let n := Py.ord c in
  ((48 <=? n) && (n <=? 57) || (65 <=? n) && (n <=? 90)
   || (97 <=? n) && (n <=? 122) || (n =? 95))%nat.

(** [expandvars] scans the path once from left to right for the
    matches of [\$(\w+|\{[^}]*\}?)]; the text put in for a variable is
    not scanned again, and a brace that is not closed takes the rest
    of the path, which is left as it is.  The modes are the positions
    inside a match; the names are gathered in reverse. *)
Inductive scan_mode :=
  | Scan
  | InWord (acc : string)
  | AtBrace
  | InBrace (acc : string).

Definition subst_var (environ : gmap string string)
    (name whole : string) : string :=
  match environ !! name with
  | Some value => value
  | None => whole
  end.

Fixpoint expandvars_go (environ : gmap string string)
    (m : scan_mode) (s : string) : string :=
  match s with
  | EmptyString =>
      match m with
      | Scan => ""
      | InWord acc =>
          subst_var environ (String.rev acc) ("$" +:+ String.rev acc)
      | AtBrace => "$"
      | InBrace acc => "${" +:+ String.rev acc
      end
  | String c r =>
      match m with
      | Scan =>
          if Ascii.eqb c "$" then
            match r with
            | String c1 r1 =>
                if is_word c1 then expandvars_go environ (InWord "") r
                else if Ascii.eqb c1 "{"
                     then if Py.contains "}" r1
                          then expandvars_go environ AtBrace r
                          else s
                     else String c (expandvars_go environ Scan r)
            | EmptyString => "$"
            end
          else String c (expandvars_go environ Scan r)
      | InWord acc =>
          let acc' := String c acc in
          let whole := "$" +:+ String.rev acc' in
          match r with
          | String c1 _ =>
              if is_word c1 then expandvars_go environ (InWord acc') r
              else subst_var environ (String.rev acc') whole
                     +:+ expandvars_go environ Scan r
          | EmptyString => subst_var environ (String.rev acc') whole
          end
      | AtBrace => expandvars_go environ (InBrace "") r
      | InBrace acc =>
          if Ascii.eqb c "}"
          then subst_var environ (String.rev acc)
                 ("${" +:+ String.rev acc +:+ "}")
                 +:+ expandvars_go environ Scan r
          else expandvars_go environ (InBrace (String c acc)) r
      end
  end.

Definition expandvars (W : world) (path : string) : string :=
  if negb (Py.contains "$" path) then path
  else expandvars_go (environ W) Scan path.

(** [(rest[:i], rest[i:])] for the first ["/"] of [rest]. *)
Fixpoint break_sep (rest : string) : string * string :=
  match rest with
  | EmptyString => (EmptyString, EmptyString)
  | String a r =>
      if Ascii.eqb a "/" then (EmptyString, rest)
      else let '(n, t) := break_sep r in (String a n, t)
  end.

(** [pw_name W name] is [pwd.getpwnam(name).pw_dir], and [None] stands
    for the [KeyError] of a name that is not known, after which the
    path is returned as it is.  On a name that holds a NUL byte
    [pwd.getpwnam] raises [ValueError]: the function below is
    [os.path.expanduser] on the other paths. *)
Definition expanduser (W : world) (path : string) : string :=
  match path with
  | String "~" rest =>
      let '(name, tail) := break_sep rest in
      let userhome :=
        if bool_decide (name = "")
        then match environ W !! "HOME" with
             | Some h => Some h
             | None => pw_self W
             end
        else pw_name W name in
      match userhome with
      | None => path
      | Some h =>
          let r := Py.rstrip_char "/" h +:+ tail in
          if Py.str_truthy r then r else "/"
      end
  | _ => path
  end.

End posixpath.

(** ** Values, messages and effects *)

Definition dq : string := String (Py.chr 34) EmptyString.
Definition nl : string := String (Py.chr 10) EmptyString.

(** The values held by [proj_data]: [md.Meta] holds lists of strings,
    the merge and the later stages put in the other shapes. *)
Inductive value :=
  | VNone
  | VBool (b : bool)
  | VInt (n : Z)
  | VStr (s : string)
  | VList (l : list string)
  | VDict (d : gmap string (string * option string)).

Global Instance value_eq_dec : EqDecision value.
Proof. solve_decision. Defined.

(** A formatted message: text, and lists of strings formatted by
    [str()]. *)
Inductive piece :=
  | Str (s : string)
  | Repr (l : list string).

Definition text := list piece.

Inductive exn :=
  | ValueError (msg : text)
  | IndexError
  | KeyError (key : string)
  | TypeError            (* an operation on a value of another type *)
  | OtherError (ex : string).

(** How a computation ends: normally, by [sys.exit(code)], or by an
    exception that nothing catches. *)
Inductive outcome (A : Type) :=
  | Ret (a : A)
  | Exit (code : Z)
  | Raise (e : exn).
Global Arguments Ret {A} a.
Global Arguments Exit {A} code.
Global Arguments Raise {A} e.

(** A computation: the lines printed on standard output, and how it
    ended. *)
Definition M (A : Type) : Type := list text * outcome A.

Global Instance M_ret : MRet M := λ A a, ([], Ret a).

Global Instance M_bind : MBind M := λ A B f m,
  match m with
  | (out, Ret a) => let '(out', r) := f a in (out ++ out', r)
  | (out, Exit code) => (out, Exit code)
  | (out, Raise e) => (out, Raise e)
  end.

Definition ret {A} (a : A) : M A := mret a.
Definition print (line : text) : M unit := ([line], Ret tt).
Definition sys_exit {A} (code : Z) : M A := ([], Exit code).
Definition raise {A} (e : exn) : M A := ([], Raise e).

(** The status the process ends with when [initialize] does not
    return: an uncaught exception makes the interpreter exit with 1. *)
Definition exit_status {A} (m : M A) : option Z :=
  match m.2 with
  | Ret _ => None
  | Exit code => Some code
  | Raise _ => Some 1
  end.

(** Whether a computation returns, and the value it returns. *)
Definition returned {A} (m : M A) : bool :=
  match m.2 with Ret _ => true | _ => false end.

Definition value_of {A} (d : A) (m : M A) : A :=
  match m.2 with Ret a => a | _ => d end.

(** [proj_data[key]]. *)
Definition getitem (proj_data : gmap string value) (key : string) : M value :=
  match proj_data !! key with
  | Some v => ret v
  | None => raise (KeyError key)
  end.

Definition as_str (v : value) : M string :=
  match v with VStr s => ret s | _ => raise TypeError end.

Definition as_list (v : value) : M (list string) :=
  match v with VList l => ret l | _ => raise TypeError end.

(** Python truth value. *)
Definition truthy (v : value) : bool :=
  match v with
  | VNone => false
  | VBool b => b
  | VInt n => negb (n =? 0)
  | VStr s => Py.str_truthy s
  | VList l => negb (bool_decide (l = []))
  | VDict d => negb (bool_decide (d = ∅))
  end.

(** Python [==] on these values: a [bool] equals the integer 0 or 1. *)
Definition py_eq (a b : value) : bool :=
  match a, b with
  | VBool x, VInt n | VInt n, VBool x => n =? (if x then 1 else 0)
  | _, _ => bool_decide (a = b)
  end.

(** [l.remove(x)] on a list that holds [x]: the first [x] goes. *)
Fixpoint list_remove_first (x : string) (l : list string) : list string :=
  match l with
  | [] => []
  | y :: l' => if bool_decide (x = y) then l' else y :: list_remove_first x l'
  end.

(** ** The command line *)

(** The namespace [parser.parse_args()] returns, without
    [project_file]: an option given with [action="append"] or with a
    value is [None] unless given; a flag records that it was given. *)
Record namespace := Namespace {
  a_src_dir : option (list string);
  a_page_dir : option string;
  a_output_dir : option string;
  a_css : option string;
  a_revision : option string;
  a_exclude : option (list string);
  a_exclude_dir : option (list string);
  a_extensions : option (list string);
  a_macro : option (list string);
  a_warn : bool;          (* -w: store_true, default None *)
  a_force : bool;         (* -f: store_true, default None *)
  a_no_search : bool;     (* --no-search: store_false into search *)
  a_quiet : bool;         (* -q: store_true, default None *)
  a_debug : bool;         (* --debug: store_true into dbg *)
  a_include : option (list string);
  a_externalize : bool;   (* store_const, const="true" *)
  a_external : option (list string)
}.

Definition flag (given : bool) (v : value) : option value :=
  if given then Some v else None.

(** [getattr(args, option)] when [hasattr(args, option)] and the value
    is not [None]. *)
Definition getattr (args : namespace) (opt : string) : option value :=
  if bool_decide (opt = "src_dir") then VList <$> a_src_dir args
  else if bool_decide (opt = "page_dir") then VStr <$> a_page_dir args
  else if bool_decide (opt = "output_dir") then VStr <$> a_output_dir args
  else if bool_decide (opt = "css") then VStr <$> a_css args
  else if bool_decide (opt = "revision") then VStr <$> a_revision args
  else if bool_decide (opt = "exclude") then VList <$> a_exclude args
  else if bool_decide (opt = "exclude_dir") then VList <$> a_exclude_dir args
  else if bool_decide (opt = "extensions") then VList <$> a_extensions args
  else if bool_decide (opt = "macro") then VList <$> a_macro args
  else if bool_decide (opt = "warn") then flag (a_warn args) (VBool true)
  else if bool_decide (opt = "force") then flag (a_force args) (VBool true)
  else if bool_decide (opt = "search")
       then flag (a_no_search args) (VBool false)
  else if bool_decide (opt = "quiet") then flag (a_quiet args) (VBool true)
  else if bool_decide (opt = "dbg") then flag (a_debug args) (VBool true)
  else if bool_decide (opt = "include") then VList <$> a_include args
  else if bool_decide (opt = "externalize")
       then flag (a_externalize args) (VStr "true")
  else if bool_decide (opt = "external") then VList <$> a_external args
  else None.

Definition no_args : namespace :=
  Namespace None None None None None None None None None
            false false false false false None false None.

(** ** The helpers of [ford.utils] the program calls *)

Module utils.

(** Modelled from the spec: [ford.utils.str_to_bool] is not among the
    sources.  The spec has a value equal to a recognised token,
    true or false, compared without regard to case; any other text is
    refused (here [None], in Python a [ValueError]). *)
Definition str_to_bool (text : string) : option bool :=
  if bool_decide (Py.lower text = "true") then Some true
  else if bool_decide (Py.lower text = "false") then Some false
  else None.

(** Modelled from the spec: [ford.utils.split_path] is not among the
    sources.  The spec has it decompose a path into its ordered
    sequence of path segments. *)
Definition split_path (path : string) : list string :=
  filter (λ seg, seg ≠ "") (Py.split "/" path).

End utils.

(** ** The tables of the program *)

Definition LICENSES : list (string * string) :=
  [ ("by",
       ("<a rel=" +:+ dq +:+ "license" +:+ dq +:+ " href=" +:+ dq
        +:+ "http://creativecommons.org/licenses/by/4.0/" +:+ dq
        +:+ "><img alt=" +:+ dq +:+ "Creative Commons License" +:+ dq
        +:+ " style=" +:+ dq +:+ "border-width:0" +:+ dq +:+ " src=" +:+ dq
        +:+ "https://i.creativecommons.org/l/by/4.0/80x15.png" +:+ dq
        +:+ " /></a>"));
    ("by-nd",
       ("<a rel=" +:+ dq +:+ "license" +:+ dq +:+ " href=" +:+ dq
        +:+ "http://creativecommons.org/licenses/by-nd/4.0/" +:+ dq
        +:+ "><img alt=" +:+ dq +:+ "Creative Commons License" +:+ dq
        +:+ " style=" +:+ dq +:+ "border-width:0" +:+ dq +:+ " src=" +:+ dq
        +:+ "https://i.creativecommons.org/l/by-nd/4.0/80x15.png" +:+ dq
        +:+ " /></a>"));
    ("by-sa",
       ("<a rel=" +:+ dq +:+ "license" +:+ dq +:+ " href=" +:+ dq
        +:+ "http://creativecommons.org/licenses/by-sa/4.0/" +:+ dq
        +:+ "><img alt=" +:+ dq +:+ "Creative Commons License" +:+ dq
        +:+ " style=" +:+ dq +:+ "border-width:0" +:+ dq +:+ " src=" +:+ dq
        +:+ "https://i.creativecommons.org/l/by-sa/4.0/80x15.png" +:+ dq
        +:+ " /></a>"));
    ("by-nc",
       ("<a rel=" +:+ dq +:+ "license" +:+ dq +:+ " href=" +:+ dq
        +:+ "http://creativecommons.org/licenses/by-nc/4.0/" +:+ dq
        +:+ "><img alt=" +:+ dq +:+ "Creative Commons License" +:+ dq
        +:+ " style=" +:+ dq +:+ "border-width:0" +:+ dq +:+ " src=" +:+ dq
        +:+ "https://i.creativecommons.org/l/by-nc/4.0/80x15.png" +:+ dq
        +:+ " /></a>"));
    ("by-nc-nd",
       ("<a rel=" +:+ dq +:+ "license" +:+ dq +:+ " href=" +:+ dq
        +:+ "http://creativecommons.org/licenses/by-nc-nd/4.0/" +:+ dq
        +:+ "><img alt=" +:+ dq +:+ "Creative Commons License" +:+ dq
        +:+ " style=" +:+ dq +:+ "border-width:0" +:+ dq +:+ " src=" +:+ dq
        +:+ "https://i.creativecommons.org/l/by-nc-nd/4.0/80x15.png" +:+ dq
        +:+ " /></a>"));
    ("by-nc-sa",
       ("<a rel=" +:+ dq +:+ "license" +:+ dq +:+ " href=" +:+ dq
        +:+ "http://creativecommons.org/licenses/by-nc-sa/4.0/" +:+ dq
        +:+ "><img alt=" +:+ dq +:+ "Creative Commons License" +:+ dq
        +:+ " style=" +:+ dq +:+ "border-width:0" +:+ dq +:+ " src=" +:+ dq
        +:+ "https://i.creativecommons.org/l/by-nc-sa/4.0/80x15.png" +:+ dq
        +:+ " /></a>"));
    ("gfdl",
       ("<a rel=" +:+ dq +:+ "license" +:+ dq +:+ " href=" +:+ dq
        +:+ "http://www.gnu.org/licenses/old-licenses/fdl-1.2.en.html" +:+ dq
        +:+ ">GNU Free Documentation License</a>"));
    ("opl",
       ("<a rel=" +:+ dq +:+ "license" +:+ dq +:+ " href=" +:+ dq
        +:+ "http://opencontent.org/openpub/" +:+ dq
        +:+ ">Open Publication License</a>"));
    ("pdl",
       ("<a rel=" +:+ dq +:+ "license" +:+ dq +:+ " href=" +:+ dq
        +:+ "http://www.openoffice.org/licenses/PDL.html" +:+ dq
        +:+ ">Public Documentation License</a>"));
    ("bsd",
       ("<a rel=" +:+ dq +:+ "license" +:+ dq +:+ " href=" +:+ dq
        +:+ "http://www.freebsd.org/copyright/freebsd-doc-license.html" +:+ dq
        +:+ ">FreeBSD Documentation License</a>"));
    ("isc",
       ("<a rel=" +:+ dq +:+ "license" +:+ dq +:+ " href=" +:+ dq
        +:+ "https://opensource.org/licenses/ISC" +:+ dq
        +:+ ">ISC (Internet Systems Consortium) License</a>"));
    ("mit",
       ("<a rel=" +:+ dq +:+ "license" +:+ dq +:+ " href=" +:+ dq
        +:+ "https://opensource.org/licenses/MIT" +:+ dq +:+ ">MIT</a>"));
    ("",
       "") ].

(** [LICENSES[key]]: [None] stands for [KeyError]. *)
Fixpoint lookup_license (table : list (string * string)) (key : string)
    : option string :=
  match table with
  | [] => None
  | (k, markup) :: table' =>
      if bool_decide (k = key) then Some markup else lookup_license table' key
  end.

(** The dictionary [defaults], in the order it is written. *)
Definition defaults (W : world) : list (string * value) :=
  [ ("css", VNone);
    ("author", VNone);
    ("author_description", VNone);
    ("author_pic", VNone);
    ("summary", VNone);
    ("github", VNone);
    ("gitlab", VNone);
    ("bitbucket", VNone);
    ("facebook", VNone);
    ("twitter", VNone);
    ("google_plus", VNone);
    ("linkedin", VNone);
    ("email", VNone);
    ("website", VNone);
    ("project_github", VNone);
    ("project_gitlab", VNone);
    ("project_bitbucket", VNone);
    ("project_website", VNone);
    ("project_download", VNone);
    ("project_sourceforge", VNone);
    ("version", VNone);
    ("media_dir", VNone);
    ("page_dir", VNone);
    ("privacy_policy_url", VNone);
    ("terms_of_service_url", VNone);
    ("graph_dir", VNone);
    ("gitter_sidecar", VNone);
    ("mathjax_config", VNone);
    ("revision", VNone);
    ("src_dir", VList ["./src"]);
    ("extensions", VList ["f90"; "f95"; "f03"; "f08"; "f15"]);
    ("fpp_extensions", VList ["F90"; "F95"; "F03"; "F08"; "F15"; "F"; "FOR"]);
    ("fixed_extensions", VList ["f"; "for"; "F"; "FOR"]);
    ("output_dir", VStr "./doc");
    ("project", VStr "Fortran Program");
    ("project_url", VStr "");
    ("display", VList ["public"; "protected"]);
    ("hide_undoc", VBool false);
    ("year", VInt (today_year W));
    ("exclude", VList []);
    ("exclude_dir", VList []);
    ("copy_subdir", VList []);
    ("external", VList []);
    ("externalize", VBool false);
    ("docmark", VStr "!");
    ("docmark_alt", VStr "*");
    ("predocmark", VStr ">");
    ("predocmark_alt", VStr "|");
    ("alias", VList []);
    ("favicon", VStr "default-icon");
    ("extra_vartypes", VList []);
    ("incl_src", VBool true);
    ("source", VBool false);
    ("macro", VList []);
    ("include", VList []);
    ("preprocess", VBool true);
    ("preprocessor", VStr "");
    ("proc_internals", VBool false);
    ("warn", VBool false);
    ("force", VBool false);
    ("quiet", VBool false);
    ("search", VBool true);
    ("lower", VBool false);
    ("sort", VStr "src");
    ("extra_mods", VList []);
    ("dbg", VBool true);
    ("graph", VBool false);
    ("graph_maxdepth", VStr "10000");
    ("graph_maxnodes", VStr "1000000000");
    ("license", VStr "");
    ("doc_license", VStr "");
    ("extra_filetypes", VList []);
    ("creation_date", VStr "%Y-%m-%dT%H:%M:%S.%f%z");
    ("print_creation_date", VBool false);
    ("coloured_edges", VBool false);
    ("parallel", VStr (cpu_count W));
    ("fixed_length_limit", VBool true);
    ("max_frontpage_items", VInt 10);
    ("encoding", VStr "utf-8") ].

Fixpoint defaults_get (table : list (string * value)) (key : string)
    : option value :=
  match table with
  | [] => None
  | (k, v) :: table' =>
      if bool_decide (k = key) then Some v else defaults_get table' key
  end.

(** ** [convert_to_bool] and [initialize] *)

(** A [for] loop that updates a state and may stop the program. *)
Fixpoint for_each {A S : Type} (body : S → A → M S) (l : list A) (s : S)
    : M S :=
  match l with
  | [] => ret s
  | x :: l' => s' ← body s x; for_each body l' s'
  end.

Section Initialize.

(** [ford.utils.str_to_bool] ([None]: it raises [ValueError]) and
    [ford.utils.split_path]. *)
Context (str_to_bool : string → option bool).
Context (split_path : string → list string).
Context (W : world).

Definition bool_list_error (name : string) (option : list string) : text :=
  [Str ("Could not convert option '" +:+ name
        +:+ "' to bool: expected a single value but got a list (");
   Repr option; Str ")"].

Definition bool_value_error (name option_0 : string) : text :=
  [Str ("Could not convert option '" +:+ name
        +:+ "' to bool: expected 'true'/'false', got: " +:+ option_0)].

Definition convert_to_bool (name : string) (option : list string) : M bool :=
  if (1 <? length option)%nat then
    raise (ValueError (bool_list_error name option))
  else
    match option with
    | [] => raise IndexError
    | option_0 :: _ =>
        match str_to_bool option_0 with
        | Some b => ret b
        | None => raise (ValueError (bool_value_error name option_0))
        end
    end.

(** The body of the loop over [defaults.items()]; [default_type] is
    [default], the entry of [defaults] under [opt]. *)
Definition merge_option (args : namespace)
    (proj_data : gmap string value) (item : string * value)
    : M (gmap string value) :=
  let '(opt, default) := item in
  match getattr args opt with
  | Some v => ret (<[opt := v]> proj_data)
  | None =>
      match proj_data !! opt with
      | Some raw =>
          match default with
          | VBool _ =>
              l ← as_list raw;
              b ← convert_to_bool opt l;
              ret (<[opt := VBool b]> proj_data)
          | VList _ => ret proj_data
          | _ =>
              l ← as_list raw;
              ret (<[opt := VStr (Py.join nl l)]> proj_data)
          end
      | None => ret (<[opt := default]> proj_data)
      end
  end.

Definition merge_options (args : namespace)
    (proj_data : gmap string value) : M (gmap string value) :=
  for_each (merge_option args) (defaults W) proj_data.

(** [normpath(join(base_dir, expanduser(expandvars(p))))]. *)
Definition resolve_path (base_dir p : string) : string :=
  posixpath.normpath
    (posixpath.join base_dir
       (posixpath.expanduser W (posixpath.expandvars W p))).

Definition resolve_list_var (base_dir : string)
    (proj_data : gmap string value) (var : string)
    : M (gmap string value) :=
  match proj_data !! var with
  | Some v =>
      l ← as_list v;
      ret (<[var := VList (resolve_path base_dir <$> l)]> proj_data)
  | None => ret proj_data
  end.

Definition resolve_scalar_var (base_dir : string)
    (proj_data : gmap string value) (var : string)
    : M (gmap string value) :=
  v ← getitem proj_data var;
  match v with
  | VNone => ret proj_data
  | _ =>
      p ← as_str v;
      ret (<[var := VStr (resolve_path base_dir p)]> proj_data)
  end.

Definition resolve_favicon (base_dir : string)
    (proj_data : gmap string value) : M (gmap string value) :=
  v ← getitem proj_data "favicon";
  p ← as_str v;
  if negb (bool_decide (Some (VStr (Py.strip p))
                        = defaults_get (defaults W) "favicon"))
  then ret (<["favicon" := VStr (resolve_path base_dir p)]> proj_data)
  else ret proj_data.

Definition resolve_paths (base_dir : string)
    (proj_data : gmap string value) : M (gmap string value) :=
  proj_data ← for_each (resolve_list_var base_dir)
                ["src_dir"; "exclude_dir"; "include"] proj_data;
  proj_data ← for_each (resolve_scalar_var base_dir)
                ["page_dir"; "output_dir"; "graph_dir"; "media_dir";
                 "css"; "mathjax_config"] proj_data;
  resolve_favicon base_dir proj_data.

(** [extensions += [ext for ext in fpp_extensions
                    if ext not in extensions]]. *)
Definition add_fpp_extensions (extensions fpp_extensions : list string)
    : list string :=
  extensions ++ filter (λ ext, ext ∉ extensions) fpp_extensions.

(** One turn of the loop that fills [extdict]. *)
Definition add_filetype (extdict : gmap string (string * option string))
    (ext : string) : gmap string (string * option string) :=
  match Py.split_ws ext with
  | [] | [_] => extdict
  | [sp0; sp1] => <[sp0 := (sp1, None)]> extdict
  | sp0 :: sp1 :: sp2 :: _ => <[sp0 := (sp1, Some sp2)]> extdict
  end.

Definition derive_fields (proj_data : gmap string value)
    : M (gmap string value) :=
  display ← getitem proj_data "display" ≫= as_list;
  let proj_data := <["display" := VList (Py.lower <$> display)]> proj_data in
  creation_date ← getitem proj_data "creation_date" ≫= as_str;
  let proj_data :=
    <["creation_date" := VStr (strftime_now W creation_date)]> proj_data in
  project_url ← getitem proj_data "project_url";
  let relative := py_eq project_url (VStr "") in
  let proj_data := <["relative" := VBool relative]> proj_data in
  extensions ← getitem proj_data "extensions" ≫= as_list;
  fpp_extensions ← getitem proj_data "fpp_extensions" ≫= as_list;
  let proj_data :=
    <["extensions" := VList (add_fpp_extensions extensions fpp_extensions)]>
      proj_data in
  extra_filetypes ← getitem proj_data "extra_filetypes" ≫= as_list;
  let extdict := fold_left add_filetype extra_filetypes ∅ in
  ret (<["extra_filetypes" := VDict extdict]> proj_data).

(** The inner loop of the containment check, over [out_path]:
    [true] when the loop ends without [break], so that its [else]
    branch runs. *)
Fixpoint walk (out_path proj_path : list string) : bool :=
  match out_path with
  | [] => true
  | directory :: out_path' =>
      match proj_path with
      | [] => false
      | proj_path_0 :: _ =>
          if bool_decide (directory = proj_path_0)
          then walk out_path' (list_remove_first directory proj_path)
          else false
      end
  end.

Definition containment_error (projdir output_dir : string) : text :=
  [Str ("Error: directory containing source-code " +:+ projdir
        +:+ " a subdirectory of output directory " +:+ output_dir +:+ ".")].

Definition check_src_dir (proj_data : gmap string value)
    (_ : unit) (projdir : string) : M unit :=
  let proj_path := split_path projdir in
  output_dir ← getitem proj_data "output_dir" ≫= as_str;
  let out_path := split_path output_dir in
  if walk out_path proj_path then
    print (containment_error projdir output_dir);;
    sys_exit 1
  else ret tt.

Definition check_src_dirs (proj_data : gmap string value) : M unit :=
  src_dir ← getitem proj_data "src_dir" ≫= as_list;
  for_each (check_src_dir proj_data) src_dir tt.

(** [proj_data[a] == proj_data[b] != ""]. *)
Definition same_mark (proj_data : gmap string value) (a b : string)
    : M bool :=
  x ← getitem proj_data a;
  y ← getitem proj_data b;
  ret (py_eq x y && negb (py_eq y (VStr ""))).

Definition docmark_error (a b : string) : text :=
  [Str ("Error: " +:+ a +:+ " and " +:+ b +:+ " are the same.")].

Definition check_docmark_pair (proj_data : gmap string value)
    (_ : unit) (pair : string * string) : M unit :=
  same ← same_mark proj_data pair.1 pair.2;
  if (same : bool) then print (docmark_error pair.1 pair.2);; sys_exit 1
  else ret tt.

(** The six tests, in the order of the source. *)
Definition docmark_pairs : list (string * string) :=
  [ ("docmark", "predocmark");
    ("docmark", "docmark_alt");
    ("docmark", "predocmark_alt");
    ("docmark_alt", "predocmark");
    ("docmark_alt", "predocmark_alt");
    ("predocmark", "predocmark_alt") ].

Definition check_docmarks (proj_data : gmap string value) : M unit :=
  for_each (check_docmark_pair proj_data) docmark_pairs tt.

Definition gitter_script (room : string) : string :=
  nl +:+ "        <script>" +:+ nl
  +:+ "            ((window.gitter = {}).chat = {}).options = {" +:+ nl
  +:+ "            room: '" +:+ room +:+ "'" +:+ nl
  +:+ "            };" +:+ nl
  +:+ "        </script>" +:+ nl
  +:+ "        <script src=" +:+ dq
  +:+ "https://sidecar.gitter.im/dist/sidecar.v1.js" +:+ dq
  +:+ " async defer></script>" +:+ nl
  +:+ "        ".

Definition add_gitter_sidecar (proj_data : gmap string value)
    (proj_docs : string) : M string :=
  v ← getitem proj_data "gitter_sidecar";
  match v with
  | VNone => ret proj_docs
  | _ =>
      room ← as_str v;
      ret (proj_docs +:+ gitter_script (Py.strip room))
  end.

Definition default_preprocessor : list string :=
  ["cpp"; "-traditional-cpp"; "-E"; "-D__GFORTRAN__"].

(** The command the probe runs. *)
Definition preprocessor_command (proj_data : gmap string value)
    : M (list string) :=
  v ← getitem proj_data "preprocessor";
  if truthy v then s ← as_str v; ret (Py.split_ws s)
  else ret default_preprocessor.

Definition probe_warning (preprocessor : list string) (ex : string)
    : list text :=
  [ [Str "Warning: Testing preprocessor failed"];
    [Str "  Preprocessor command: "; Repr preprocessor];
    [Str ("  Exception: " +:+ ex)];
    [Str "  -> Preprocessing turned off"] ].

Definition probe_preprocessor (proj_data : gmap string value)
    : M (gmap string value) :=
  preprocess ← getitem proj_data "preprocess";
  if truthy preprocess then
    preprocessor ← preprocessor_command proj_data;
    match popen W preprocessor with
    | SpawnOSError ex =>
        for_each (λ _ line, print line) (probe_warning preprocessor ex) tt;;
        ret (<["preprocess" := VStr "false"]> proj_data)
    | SpawnOtherError ex => raise (OtherError ex)
    | Spawned _ =>
        ret (<["preprocessor" := VList preprocessor]>
               (<["preprocess" := VStr "true"]> proj_data))
    end
  else ret proj_data.

Definition license_notice (key value : string) : text :=
  [Str ("Notice: " +:+ key +:+ " " +:+ dq +:+ value +:+ dq
        +:+ " is not a recognized value, using the value as a custom license value.")].

(** The [try] block for [key], which is [license] or [doc_license]. *)
Definition resolve_license (key : string) (proj_data : gmap string value)
    : M (gmap string value) :=
  name ← getitem proj_data key ≫= as_str;
  match lookup_license LICENSES (Py.lower name) with
  | Some markup => ret (<[key := VStr markup]> proj_data)
  | None => print (license_notice key name);; ret proj_data
  end.

(** [initialize], from the loop over [defaults] on.  [Meta] and
    [proj_docs] are the metadata and the body the Markdown converter
    gave for the project file, [project_file] is the name of that
    file. *)
Definition initialize (args : namespace) (project_file : string)
    (Meta : gmap string (list string)) (proj_docs : string)
    : M (gmap string value * string) :=
  let proj_data : gmap string value := VList <$> Meta in
  proj_data ← merge_options args proj_data;
  let base_dir := posixpath.abspath W (posixpath.dirname project_file) in
  let proj_data := <["base_dir" := VStr base_dir]> proj_data in
  proj_data ← resolve_paths base_dir proj_data;
  proj_data ← derive_fields proj_data;
  check_src_dirs proj_data;;
  check_docmarks proj_data;;
  proj_docs ← add_gitter_sidecar proj_data proj_docs;
  proj_data ← probe_preprocessor proj_data;
  proj_data ← resolve_license "license" proj_data;
  proj_data ← resolve_license "doc_license" proj_data;
  ret (proj_data, proj_docs).

End Initialize.

(** ** A machine to run the examples on *)

Definition example_world : world :=
  World (<["HOME" := "/home/u"]> (<["X" := "$Y"]> (<["Y" := "z"]> ∅)))
        "/work" (Some "/home/u")
        (λ n, if bool_decide (n = "bob") then Some "/home/bob/" else None)
        (λ cmd, match cmd with
                | "cpp" :: _ => Spawned 0
                | _ => SpawnOSError "[Errno 2] No such file or directory"
                end)
        (λ fmt, fmt) "4" 2026.

(** The model run with the helpers as the spec describes them. *)
Definition run (W : world) (args : namespace) (project_file : string)
    (Meta : gmap string (list string)) : M (gmap string value * string) :=
  initialize utils.str_to_bool utils.split_path W args project_file Meta "".

(** ** Notions the properties are stated with *)

(** The value the spec gives a metadata entry [l] of an option whose
    default is [default]: a boolean through [convert_to_bool], the list
    as it is, or the lines joined by a newline. *)
Definition coerce (str_to_bool : string → option bool) (opt : string)
    (default : value) (l : list string) : M value :=
  match default with
  | VBool _ => b ← convert_to_bool str_to_bool opt l; ret (VBool b)
  | VList _ => ret (VList l)
  | _ => ret (VStr (Py.join nl l))
  end.

(** The value the spec gives an option: the command line, else the
    metadata, else the default. *)
Definition by_precedence (str_to_bool : string → option bool)
    (args : namespace) (Meta : gmap string (list string)) (opt : string)
    (default : value) : M value :=
  match getattr args opt with
  | Some v => ret v
  | None =>
      match Meta !! opt with
      | Some l => coerce str_to_bool opt default l
      | None => ret default
      end
  end.

(** The value one turn of the merge loop leaves under [opt], from the
    entry [raw] it finds there. *)
Definition merged_value (str_to_bool : string → option bool)
    (args : namespace) (raw : option value) (opt : string)
    (default : value) : M value :=
  match getattr args opt with
  | Some v => ret v
  | None =>
      match raw with
      | Some raw =>
          match default with
          | VBool _ =>
              l ← as_list raw;
              b ← convert_to_bool str_to_bool opt l;
              ret (VBool b)
          | VList _ => ret raw
          | _ => l ← as_list raw; ret (VStr (Py.join nl l))
          end
      | None => ret default
      end
  end.

(** An option is of scalar kind when its default is neither a boolean
    nor a list. *)
Definition scalar_kind (default : value) : Prop :=
  match default with VBool _ | VList _ => False | _ => True end.

(** A component of a path: not empty, and without a slash. *)
Definition segment (c : string) : Prop :=
  c ≠ "" ∧ Py.contains "/" c = false.

(** A component that names an entry: neither [.] nor [..]. *)
Definition plain (c : string) : Prop :=
  segment c ∧ c ≠ "." ∧ c ≠ "..".

(** The components [normpath] leaves when it keeps [k] leading
    slashes: names, after some [..] when the path is relative. *)
Definition normal_comps (k : nat) (comps : list string) : Prop :=
  ∃ m names,
    comps = replicate m ".." ++ names ∧ Forall plain names
    ∧ (k ≠ 0%nat → m = 0%nat).

(** A message names [s] when [s] stands in one of its texts. *)
Definition names (msg : text) (s : string) : Prop :=
  ∃ pre post, Str (pre +:+ s +:+ post) ∈ msg.

(** How often [x] stands in [l]. *)
Definition occurrences (x : string) (l : list string) : nat :=
  length (filter (λ y, y = x) l).

(** The four mark options. *)
Definition mark_options : list string :=
  ["docmark"; "docmark_alt"; "predocmark"; "predocmark_alt"].

(** Two different mark options hold the same non-empty value. *)
Definition marks_collide (pd : gmap string value) (a b : string) : Prop :=
  a ∈ mark_options ∧ b ∈ mark_options ∧ a ≠ b
  ∧ ∃ v, v ≠ "" ∧ pd !! a = Some (VStr v) ∧ pd !! b = Some (VStr v).

(** The test one [if] of the docmark check makes. *)
Definition colliding (pd : gmap string value) (pair : string * string)
    : bool :=
  match pd !! pair.1, pd !! pair.2 with
  | Some x, Some y => py_eq x y && negb (py_eq y (VStr ""))
  | _, _ => false
  end.

(** ** Configurations the properties are tried on *)

Definition contained_config : gmap string value :=
  <["output_dir" := VStr "/p/doc"]>
    (<["src_dir" := VList ["/p/doc/src"; "/p/docs"]]> ∅).

Definition nested_output_config : gmap string value :=
  <["output_dir" := VStr "/work/proj/lib/doc"]>
    (<["src_dir" := VList ["/work/proj/lib"]]> ∅).

Definition nested_output_meta : gmap string (list string) :=
  <["src_dir" := ["./lib"]]> (<["output_dir" := ["./lib/doc"]]> ∅).

Definition clashing_marks : gmap string value :=
  <["docmark" := VStr "!"]> (<["docmark_alt" := VStr ""]>
    (<["predocmark" := VStr "!"]> (<["predocmark_alt" := VStr ""]> ∅))).

Definition probe_config (command : string) : gmap string value :=
  <["preprocess" := VBool true]> (<["preprocessor" := VStr command]> ∅).

Definition license_config : gmap string value :=
  <["license" := VStr "MIT"]> (<["doc_license" := VStr "proprietary"]> ∅).

Definition summary_meta : gmap string (list string) :=
  <["summary" := ["First line."; "Second line."]]>
    (<["search" := ["true"]]> (<["author" := ["A. N. Author"]]> ∅)).

(** The configuration the merge gives for [summary_meta] when only
    [--no-search] is on the command line. *)
Definition summary_merge : M (gmap string value) :=
  merge_options utils.str_to_bool example_world
    (Namespace None None None None None None None None None
               false false true false false None false None)
    (VList <$> summary_meta).

Definition summary_merged : gmap string value := value_of ∅ summary_merge.

Definition extensions_config : gmap string value :=
  <["display" := VList ["Public"]]>
    (<["creation_date" := VStr "%Y"]>
      (<["project_url" := VStr ""]>
        (<["extensions" := VList ["f90"; "F"]]>
          (<["fpp_extensions" := VList ["F90"; "F"; "F95"]]>
            (<["extra_filetypes" := VList ["inc !"]]> ∅))))).

Definition extensions_derived : gmap string value :=
  value_of ∅ (derive_fields example_world extensions_config).

Definition repeated_fpp_meta : gmap string (list string) :=
  <["extensions" := ["f90"]]> (<["fpp_extensions" := ["F90"; "F90"]]> ∅).

(** ** What the stages of [initialize] do to an entry *)

(** The options whose value is a list of paths, and those whose value
    is one path or [None]. *)
Definition list_path_vars : list string :=
  ["src_dir"; "exclude_dir"; "include"].

Definition scalar_path_vars : list string :=
  ["page_dir"; "output_dir"; "graph_dir"; "media_dir"; "css";
   "mathjax_config"].

Definition resolved_list (W : world) (base_dir : string) (v : value) : value :=
  match v with
  | VList l => VList (resolve_path W base_dir <$> l)
  | _ => v
  end.

Definition resolved_scalar (W : world) (base_dir : string) (v : value) : value :=
  match v with
  | VStr p => VStr (resolve_path W base_dir p)
  | _ => v
  end.

Definition resolved_favicon (W : world) (base_dir : string) (v : value) : value :=
  match v with
  | VStr p =>
      if bool_decide (Py.strip p = "default-icon") then v
      else VStr (resolve_path W base_dir p)
  | _ => v
  end.

(** The entry the resolution of paths leaves under [key], from the
    entry [v] it finds there. *)
Definition resolved_entry (W : world) (base_dir key : string) (v : value)
    : value :=
  if bool_decide (key ∈ list_path_vars) then resolved_list W base_dir v
  else if bool_decide (key ∈ scalar_path_vars) then resolved_scalar W base_dir v
  else if bool_decide (key = "favicon") then resolved_favicon W base_dir v
  else v.

(** The dictionary the loop over [extra_filetypes] builds. *)
Definition extra_filetypes_dict (extra_filetypes : list string)
    : gmap string (string * option string) :=
  fold_left add_filetype extra_filetypes ∅.

(** The entry of [extdict] one line of [extra_filetypes] stands for,
    when it has two words or more. *)
Definition filetype_entry (ext : string)
    : option (string * (string * option string)) :=
  match Py.split_ws ext with
  | [] | [_] => None
  | [sp0; sp1] => Some (sp0, (sp1, None))
  | sp0 :: sp1 :: sp2 :: _ => Some (sp0, (sp1, Some sp2))
  end.

(** The configuration [derive_fields] returns, from the five entries
    it reads. *)
Definition derived (W : world) (pd : gmap string value)
    (display : list string) (creation_date : string) (project_url : value)
    (extensions fpp_extensions extra_filetypes : list string)
    : gmap string value :=
  <["extra_filetypes" := VDict (extra_filetypes_dict extra_filetypes)]>
    (<["extensions" := VList (add_fpp_extensions extensions fpp_extensions)]>
      (<["relative" := VBool (py_eq project_url (VStr ""))]>
        (<["creation_date" := VStr (strftime_now W creation_date)]>
          (<["display" := VList (Py.lower <$> display)]> pd)))).

(** ** The shapes of the entries *)

Inductive shape := SList | SStr | SOptStr | SBool.

Global Instance shape_eq_dec : EqDecision shape.
Proof. solve_decision. Defined.

Definition has_shape (s : shape) (v : value) : Prop :=
  match s, v with
  | SList, VList _ => True
  | SStr, VStr _ => True
  | SOptStr, (VNone | VStr _) => True
  | SBool, VBool _ => True
  | _, _ => False
  end.

(** The entries the stages after the merge read, with the shape each
    stage needs. *)
Definition config_shapes : list (string * shape) :=
  [ ("src_dir", SList); ("exclude_dir", SList); ("include", SList);
    ("page_dir", SOptStr); ("output_dir", SStr); ("graph_dir", SOptStr);
    ("media_dir", SOptStr); ("css", SOptStr); ("mathjax_config", SOptStr);
    ("favicon", SStr); ("display", SList); ("creation_date", SStr);
    ("project_url", SStr); ("extensions", SList); ("fpp_extensions", SList);
    ("extra_filetypes", SList); ("docmark", SStr); ("docmark_alt", SStr);
    ("predocmark", SStr); ("predocmark_alt", SStr);
    ("gitter_sidecar", SOptStr); ("preprocess", SBool);
    ("preprocessor", SStr); ("license", SStr); ("doc_license", SStr) ].

Definition shaped (table : list (string * shape)) (pd : gmap string value)
    : Prop :=
  ∀ k s, (k, s) ∈ table → ∃ v, pd !! k = Some v ∧ has_shape s v.

(** The entries the stages after [derive_fields] read. *)
Definition late_shapes : list (string * shape) :=
  [ ("src_dir", SList); ("output_dir", SStr); ("docmark", SStr);
    ("docmark_alt", SStr); ("predocmark", SStr); ("predocmark_alt", SStr);
    ("gitter_sidecar", SOptStr); ("preprocess", SBool);
    ("preprocessor", SStr); ("license", SStr); ("doc_license", SStr) ].

(** ** The ways [initialize] ends *)


(** ** The lines of [extra_filetypes] *)

(** The entries the lines of [extra_filetypes] give for the extension
    [sp0], in the order of the lines. *)
Definition entries_for (sp0 : string) (extra_filetypes : list string)
    : list (string * option string) :=
  omap (λ ext, match filetype_entry ext with
               | Some (k, e) => if bool_decide (k = sp0) then Some e else None
               | None => None
               end) extra_filetypes.

(** ** Machines that differ in the start of commands *)

Definition with_popen (W : world) (popen' : list string → spawn_result)
    : world :=
  World (environ W) (getcwd W) (pw_self W) (pw_name W) popen'
        (strftime_now W) (cpu_count W) (today_year W).

(** ** A run the properties of the returned configuration are tried on *)

Definition chat_meta : gmap string (list string) :=
  <["gitter_sidecar" := [" ford/chat "]]>
    (<["project_url" := ["https://example.org/ford"]]>
      (<["src_dir" := ["./src"; "~/lib/../src"]]>
        (<["display" := ["Public"; "PROTECTED"]]>
          (<["extra_filetypes" := ["inc !"; "h"; "inc # c"]]>
            (<["license" := ["MIT"]]>
              (<["notes" := ["kept"]]> ∅)))))).

Definition chat_run : M (gmap string value * string) :=
  initialize utils.str_to_bool utils.split_path example_world no_args
    "proj/project.md" chat_meta "<p>Hello</p>".

Definition chat_config : gmap string value := (value_of (∅, "") chat_run).1.

Definition chat_docs : string := (value_of (∅, "") chat_run).2.

(** ** Runs that stop, and a run that goes on after a warning *)

Definition same_marks_meta : gmap string (list string) :=
  <["docmark" := ["!"]]> (<["predocmark" := ["!"]]> ∅).

Definition source_in_output_meta : gmap string (list string) :=
  <["src_dir" := ["./src"; "./doc/lib"; "./doc"]]>
    (<["output_dir" := ["./doc"]]> ∅).

Definition degraded_meta : gmap string (list string) :=
  <["preprocessor" := ["gfortran -E"]]> (<["license" := ["proprietary"]]> ∅).

Definition degraded_run : M (gmap string value * string) :=
  initialize utils.str_to_bool utils.split_path example_world no_args
    "proj/project.md" degraded_meta "".

Definition degraded_config : gmap string value :=
  (value_of (∅, "") degraded_run).1.

(** ** The flags *)

(** The options whose default is a boolean, [preprocess] apart. *)
Definition flags : list string :=
  ["hide_undoc"; "externalize"; "incl_src"; "source"; "proc_internals";
   "warn"; "force"; "quiet"; "search"; "lower"; "dbg"; "graph";
   "print_creation_date"; "coloured_edges"; "fixed_length_limit"].

(** ** A configuration with a second source directory in the output
    directory, and metadata that turn preprocessing off *)

Definition second_contained_config : gmap string value :=
  <["output_dir" := VStr "/work/proj/doc"]>
    (<["src_dir" := VList ["/work/proj/src"; "/work/proj/doc/lib";
                           "/work/proj/doc"]]> ∅).

Definition preprocess_off_meta : gmap string (list string) :=
  <["preprocess" := ["false"]]> ∅.

(** A machine on which no command can be started at all. *)
Definition broken_world : world :=
  with_popen example_world (λ _, SpawnOtherError "no such machine").

(** ** Inputs without a NUL byte *)





(** * Properties *)

(** ** The string and path functions on examples *)

Example split_slash : Py.split "/" "/a//b/" = [""; "a"; ""; "b"; ""].
Proof. reflexivity. Qed.

Example split_ws_words : Py.split_ws "  cpp  -E x " = ["cpp"; "-E"; "x"].
Proof. reflexivity. Qed.

Example lower_license : Py.lower "By-NC" = "by-nc".
Proof. reflexivity. Qed.

Example strip_spaces : Py.strip "  a b  " = "a b".
Proof. reflexivity. Qed.

Example normpath_dots : posixpath.normpath "/a/./b/../c//d/" = "/a/c/d".
Proof. reflexivity. Qed.

Example normpath_two_slashes : posixpath.normpath "//a/../../b" = "//b".
Proof. reflexivity. Qed.

Example normpath_three_slashes : posixpath.normpath "///a" = "/a".
Proof. reflexivity. Qed.

Example normpath_relative : posixpath.normpath "a/../../b/.." = "..".
Proof. reflexivity. Qed.

Example normpath_here : posixpath.normpath "./" = ".".
Proof. reflexivity. Qed.

Example normpath_above_root : posixpath.normpath "/.." = "/".
Proof. reflexivity. Qed.

Example dirname_file : posixpath.dirname "/a/b/c.md" = "/a/b".
Proof. reflexivity. Qed.

Example dirname_bare : posixpath.dirname "c.md" = "".
Proof. reflexivity. Qed.

Example dirname_slashes : posixpath.dirname "//c.md" = "//".
Proof. reflexivity. Qed.

Example expandvars_forms :
  posixpath.expandvars example_world "a/$X/${Y}b/$Q/${Z$Y/$"
  = "a/$Y/zb/$Q/${Z$Y/$".
Proof. vm_compute. reflexivity. Qed.

Example expandvars_braces :
  posixpath.expandvars example_world "${Y}${X" = "z${X"
  ∧ posixpath.expandvars example_world "x${}y$Y" = "x${}yz"
  ∧ posixpath.expandvars example_world "$Y${Q}${Y" = "z${Q}${Y"
  ∧ posixpath.expandvars example_world "$$Y" = "$z"
  ∧ posixpath.expandvars example_world "a$-$Y" = "a$-z".
Proof. vm_compute. done. Qed.

Example expandvars_names :
  posixpath.expandvars example_world "$HOME_/${HOME}_/$HOME/x"
  = "$HOME_//home/u_//home/u/x".
Proof. vm_compute. reflexivity. Qed.

Example expanduser_home :
  posixpath.expanduser example_world "~/x" = "/home/u/x".
Proof. vm_compute. reflexivity. Qed.

Example expanduser_user :
  posixpath.expanduser example_world "~bob/x" = "/home/bob/x".
Proof. vm_compute. reflexivity. Qed.

Example expanduser_unknown :
  posixpath.expanduser example_world "~al/x" = "~al/x".
Proof. vm_compute. reflexivity. Qed.

Example split_path_segments :
  utils.split_path "/work/proj/lib" = ["work"; "proj"; "lib"].
Proof. reflexivity. Qed.

(** ** Strings *)

Lemma str_app_assoc (a b c : string) : (a +:+ b) +:+ c = a +:+ b +:+ c.
Proof.
  induction a as [|x a IH]; [done|].
  unfold String.app in *. simpl. by rewrite IH.
Qed.

Lemma str_app_nil_r (a : string) : a +:+ "" = a.
Proof.
  induction a as [|x a IH]; [done|].
  unfold String.app in *. simpl. by rewrite IH.
Qed.

Lemma split_no_sep (sep : ascii) (x : string) :
  Py.contains sep x = false → Py.split sep x = [x].
Proof.
  induction x as [|a x IH]; simpl; [done|].
  destruct (Ascii.eqb a sep); [done|]. intros Hx. by rewrite IH.
Qed.

Lemma split_app_sep (sep : ascii) (x rest : string) :
  Py.contains sep x = false →
  Py.split sep (x +:+ String sep rest) = x :: Py.split sep rest.
Proof.
  induction x as [|a x IH]; unfold String.app; simpl.
  - by rewrite Ascii.eqb_refl.
  - destruct (Ascii.eqb a sep); [done|]. intros Hx.
    unfold String.app in IH. by rewrite IH.
Qed.

Lemma join_cons (sep x y : string) (l : list string) :
  Py.join sep (x :: y :: l) = x +:+ sep +:+ Py.join sep (y :: l).
Proof. reflexivity. Qed.

(** Splitting at the separator gives back the strings that were
    joined, in their order, when none of them holds the separator. *)
Lemma split_join (sep : ascii) (l : list string) :
  l ≠ [] → Forall (λ x, Py.contains sep x = false) l →
  Py.split sep (Py.join (String sep "") l) = l.
Proof.
  intros Hne Hall. induction Hall as [|x l Hx Hall IH]; [done|].
  destruct l as [|y l]; [by apply split_no_sep|].
  rewrite join_cons.
  change (String sep "" +:+ Py.join (String sep "") (y :: l))
    with (String sep (Py.join (String sep "") (y :: l))).
  rewrite split_app_sep by done. by rewrite IH.
Qed.

(** ** The effects *)

Lemma bind_ret_l {A B} (a : A) (f : A → M B) : (ret a ≫= f) = f a.
Proof. unfold ret, mret, M_ret, mbind, M_bind. by destruct (f a). Qed.

Lemma bind_print {B} (line : text) (f : unit → M B) :
  (print line ≫= f) = (line :: (f tt).1, (f tt).2).
Proof. unfold print, mbind, M_bind. by destruct (f tt). Qed.

Lemma returned_value_of {A} (d : A) (m : M A) :
  returned m = true → m = (m.1, Ret (value_of d m)).
Proof. unfold returned, value_of. by destruct m as [out [a| |]]. Qed.

Lemma bind_Ret_inv {A B} (m : M A) (f : A → M B) out (b : B) :
  (m ≫= f) = (out, Ret b) →
  ∃ out1 a out2, m = (out1, Ret a) ∧ f a = (out2, Ret b) ∧ out = out1 ++ out2.
Proof.
  unfold mbind, M_bind. destruct m as [out1 [a| |]]; try done.
  destruct (f a) as [out2 r] eqn:Hf. intros [= <- ->]. by eexists _, _, _.
Qed.

Lemma getitem_inv (pd : gmap string value) key out v :
  getitem pd key = (out, Ret v) → out = [] ∧ pd !! key = Some v.
Proof. unfold getitem. destruct (pd !! key); [|done]. by intros [= <- <-]. Qed.

Lemma as_list_inv (v : value) out l :
  as_list v = (out, Ret l) → out = [] ∧ v = VList l.
Proof. destruct v; try done. by intros [= <- <-]. Qed.

Lemma as_str_inv (v : value) out s :
  as_str v = (out, Ret s) → out = [] ∧ v = VStr s.
Proof. destruct v; try done. by intros [= <- <-]. Qed.

Lemma getitem_Some (pd : gmap string value) key v :
  pd !! key = Some v → getitem pd key = ret v.
Proof. intros H. unfold getitem. by rewrite H. Qed.

Lemma for_each_app {A S} (body : S → A → M S) (l1 l2 : list A) (s : S) :
  for_each body (l1 ++ l2) s = for_each body l1 s ≫= for_each body l2.
Proof.
  revert s. induction l1 as [|x l1 IH]; intros s; cbn [for_each app].
  - by rewrite bind_ret_l.
  - unfold mbind, M_bind. destruct (body s x) as [out [s'| |]]; simpl; auto.
    rewrite IH. unfold mbind, M_bind.
    destruct (for_each body l1 s') as [out1 [s1| |]]; simpl; auto.
    destruct (for_each body l2 s1) as [out2 r2]. by rewrite app_assoc.
Qed.

(** ** The containment check *)

Lemma list_remove_first_head (x : string) (l : list string) :
  list_remove_first x (x :: l) = l.
Proof. simpl. by rewrite bool_decide_eq_true_2. Qed.

(** The inner loop ends without [break] exactly when the segments of
    the output directory begin the segments of the source directory. *)
Lemma walk_prefix (out_path proj_path : list string) :
  walk out_path proj_path = true ↔ out_path `prefix_of` proj_path.
Proof.
  revert proj_path.
  induction out_path as [|d out IH]; intros proj; simpl.
  - split; [intros _; apply prefix_nil | done].
  - destruct proj as [|p0 ps].
    + split; [done | intros H; by apply prefix_nil_not in H].
    + case_bool_decide as Hd.
      * subst p0. rewrite list_remove_first_head, IH.
        split; [apply prefix_cons | apply prefix_cons_inv_2].
      * split; [done | intros H; by apply prefix_cons_inv_1 in H].
Qed.

Section Containment.

Context (split_path : string → list string).

Lemma check_src_dir_eq (pd : gmap string value) (out projdir : string) :
  pd !! "output_dir" = Some (VStr out) →
  check_src_dir split_path pd tt projdir =
    if walk (split_path out) (split_path projdir)
    then ([containment_error projdir out], Exit 1)
    else ret tt.
Proof.
  intros Hout. unfold check_src_dir.
  rewrite (getitem_Some _ _ _ Hout). simpl.
  by destruct (walk _ _).
Qed.

Lemma check_src_dir_loop (pd : gmap string value) (out : string)
    (dirs : list string) :
  pd !! "output_dir" = Some (VStr out) →
  for_each (check_src_dir split_path pd) dirs tt =
    match find (λ d, walk (split_path out) (split_path d)) dirs with
    | Some d => ([containment_error d out], Exit 1)
    | None => ret tt
    end.
Proof.
  intros Hout. induction dirs as [|d dirs IH]; [done|].
  cbn [for_each find]. rewrite (check_src_dir_eq _ _ _ Hout).
  destruct (walk _ _); [done|].
  by rewrite bind_ret_l.
Qed.

Lemma check_src_dirs_eq (pd : gmap string value) (out : string)
    (dirs : list string) :
  pd !! "output_dir" = Some (VStr out) →
  pd !! "src_dir" = Some (VList dirs) →
  check_src_dirs split_path pd =
    match find (λ d, walk (split_path out) (split_path d)) dirs with
    | Some d => ([containment_error d out], Exit 1)
    | None => ret tt
    end.
Proof.
  intros Hout Hsrc. unfold check_src_dirs.
  rewrite (getitem_Some _ _ _ Hsrc), bind_ret_l.
  unfold as_list. rewrite bind_ret_l.
  by apply check_src_dir_loop.
Qed.

(** The containment diagnostic is one text, which names the source
    directory and the output directory. *)
Lemma containment_error_names (projdir output_dir : string) :
  names (containment_error projdir output_dir) projdir
  ∧ names (containment_error projdir output_dir) output_dir.
Proof.
  split.
  - eexists _, _. unfold containment_error. apply list_elem_of_here.
  - exists ("Error: directory containing source-code " +:+ projdir
            +:+ " a subdirectory of output directory "), ".".
    unfold containment_error. rewrite !str_app_assoc. apply list_elem_of_here.
Qed.

Example containment_error_text :
  containment_error "/p/doc/src" "/p/doc"
  = [Str "Error: directory containing source-code /p/doc/src a subdirectory of output directory /p/doc."].
Proof. reflexivity. Qed.

(** C2.  A source directory that is the output directory, or lies
    beneath it segment by segment, stops the program with status 1
    after the containment diagnostic, which names that source
    directory and the output directory; when such a directory is among
    the source directories, the check ends with status 1 after the
    diagnostic that names one of them that lies in the output
    directory.  A source directory whose segments do not begin with
    all the segments of the output directory, even when the two share
    leading segments, passes, and when every source directory passes
    the check prints nothing and goes on. *)
Theorem src_dir_containment (pd : gmap string value) (out : string)
    (dirs : list string) :
  pd !! "output_dir" = Some (VStr out) →
  pd !! "src_dir" = Some (VList dirs) →
  (∀ projdir,
     projdir = out ∨ (∃ below, split_path projdir = split_path out ++ below) →
     check_src_dir split_path pd tt projdir
       = ([containment_error projdir out], Exit 1)
     ∧ names (containment_error projdir out) projdir
     ∧ names (containment_error projdir out) out
     ∧ (projdir ∈ dirs →
        exit_status (check_src_dirs split_path pd) = Some 1
        ∧ ∃ d, d ∈ dirs
               ∧ split_path out `prefix_of` split_path d
               ∧ (check_src_dirs split_path pd).1 = [containment_error d out]
               ∧ names (containment_error d out) d
               ∧ names (containment_error d out) out))
  ∧ (∀ projdir,
       ¬ split_path out `prefix_of` split_path projdir →
       check_src_dir split_path pd tt projdir = ret tt)
  ∧ ((∀ projdir, projdir ∈ dirs →
        ¬ split_path out `prefix_of` split_path projdir) →
     check_src_dirs split_path pd = ret tt).
Proof.
  intros Hout Hsrc. split; [|split].
  - intros projdir Hin.
    assert (walk (split_path out) (split_path projdir) = true) as Hw.
    { apply walk_prefix. destruct Hin as [->|[below ->]]; [done|].
      by apply prefix_app_r. }
    split; [|split; [|split]].
    + by rewrite (check_src_dir_eq _ _ _ Hout), Hw.
    + apply containment_error_names.
    + apply containment_error_names.
    + intros Hd. rewrite (check_src_dirs_eq _ _ _ Hout Hsrc).
      destruct (find _ dirs) as [d|] eqn:Hfind.
      * apply find_some in Hfind as [Hd' Hwd].
        split; [done|]. exists d. rewrite list_elem_of_In.
        split; [done|]. split; [by apply walk_prefix|].
        split; [done|]. apply containment_error_names.
      * apply list_elem_of_In in Hd.
        pose proof (find_none _ _ Hfind _ Hd) as Hno. simpl in Hno.
        congruence.
  - intros projdir Hno. rewrite (check_src_dir_eq _ _ _ Hout).
    destruct (walk _ _) eqn:Hw; [|done].
    by apply walk_prefix in Hw.
  - intros Hno. rewrite (check_src_dirs_eq _ _ _ Hout Hsrc).
    destruct (find _ dirs) as [d|] eqn:Hfind; [|done].
    apply find_some in Hfind as [Hd Hw].
    apply walk_prefix in Hw. apply list_elem_of_In in Hd.
    by apply Hno in Hw.
Qed.

(** C1, as the code has it.  When the segments of the source
    directory are used up while segments of the output directory
    remain, the walk leaves the loop by [break]: the output directory
    lies beneath the source directory and that source directory
    passes the check. *)
Theorem output_beneath_source_passes (pd : gmap string value)
    (out projdir d : string) (rest : list string) :
  pd !! "output_dir" = Some (VStr out) →
  split_path out = split_path projdir ++ d :: rest →
  walk (split_path out) (split_path projdir) = false
  ∧ check_src_dir split_path pd tt projdir = ret tt.
Proof.
  intros Hout Hsplit.
  assert (walk (split_path out) (split_path projdir) = false) as Hw.
  { destruct (walk _ _) eqn:Hw; [|done].
    apply walk_prefix in Hw as [k Hk]. rewrite Hsplit in Hk.
    apply (f_equal length) in Hk. rewrite !length_app in Hk.
    simpl in Hk. lia. }
  split; [done|].
  by rewrite (check_src_dir_eq _ _ _ Hout), Hw.
Qed.

End Containment.

Lemma src_dir_containment_witness :
  exit_status (check_src_dirs utils.split_path contained_config) = Some 1
  ∧ names (containment_error "/p/doc/src" "/p/doc") "/p/doc/src"
  ∧ check_src_dir utils.split_path contained_config tt "/p/docs" = ret tt.
Proof.
  destruct (src_dir_containment utils.split_path contained_config "/p/doc"
              ["/p/doc/src"; "/p/docs"] eq_refl eq_refl) as (Hin & Hout & _).
  destruct (Hin "/p/doc/src") as (_ & Hnames & _ & Hexit);
    [right; by exists ["src"]|].
  split; [|split].
  - apply Hexit. constructor.
  - exact Hnames.
  - apply Hout. intros [k Hk]. vm_compute in Hk. by destruct k.
Defined.

Lemma output_beneath_source_passes_witness :
  check_src_dir utils.split_path nested_output_config tt "/work/proj/lib"
  = ret tt.
Proof.
  apply (output_beneath_source_passes utils.split_path nested_output_config
           "/work/proj/lib/doc" "/work/proj/lib" "doc" []); reflexivity.
Defined.

(** C1, as the spec has it, fails.  With [src_dir: ./lib] and
    [output_dir: ./lib/doc] in the metadata and nothing on the command
    line, the run prints no diagnostic and does not exit: [initialize]
    returns, with the two directories resolved. *)
Lemma nested_output_run_returns :
  let r := run example_world no_args "proj/project.md" nested_output_meta in
  r.1 = [] ∧ exit_status r = None
  ∧ match r.2 with
    | Ret (pd, _) =>
        pd !! "src_dir" = Some (VList ["/work/proj/lib"])
        ∧ pd !! "output_dir" = Some (VStr "/work/proj/lib/doc")
    | _ => False
    end.
Proof. vm_compute. done. Qed.

(** ** [convert_to_bool] *)

Section ConvertToBool.

Context (str_to_bool : string → option bool).

Lemma convert_to_bool_empty (name : string) :
  convert_to_bool str_to_bool name [] = raise IndexError.
Proof. reflexivity. Qed.

Lemma bool_list_error_names (name : string) (option : list string) :
  names (bool_list_error name option) name
  ∧ Repr option ∈ bool_list_error name option.
Proof.
  split.
  - eexists _, _. unfold bool_list_error. apply list_elem_of_here.
  - unfold bool_list_error. apply list_elem_of_further, list_elem_of_here.
Qed.

Lemma bool_value_error_names (name option_0 : string) :
  names (bool_value_error name option_0) name
  ∧ names (bool_value_error name option_0) option_0.
Proof.
  split.
  - eexists _, _. unfold bool_value_error. apply list_elem_of_here.
  - exists ("Could not convert option '" +:+ name
            +:+ "' to bool: expected 'true'/'false', got: "), "".
    unfold bool_value_error.
    rewrite str_app_nil_r, !str_app_assoc. apply list_elem_of_here.
Qed.

(** C4, as the code has it.  [convert_to_bool] raises the error that
    names the option and the list when the list holds more than one
    value, raises the error that names the option and the value when
    the one value of the list is not a token [str_to_bool] accepts, and
    raises such an error in these two cases only.  It returns a
    boolean exactly when the list holds one token that [str_to_bool]
    accepts, and then the boolean of that token; on the empty list it
    raises [IndexError]. *)
Theorem convert_to_bool_outcome (name : string) (option : list string) :
  ((1 < length option)%nat →
     convert_to_bool str_to_bool name option
       = raise (ValueError (bool_list_error name option))
     ∧ names (bool_list_error name option) name
     ∧ Repr option ∈ bool_list_error name option)
  ∧ (∀ option_0, option = [option_0] → str_to_bool option_0 = None →
       convert_to_bool str_to_bool name option
         = raise (ValueError (bool_value_error name option_0))
       ∧ names (bool_value_error name option_0) name
       ∧ names (bool_value_error name option_0) option_0)
  ∧ (∀ option_0 b, option = [option_0] → str_to_bool option_0 = Some b →
       convert_to_bool str_to_bool name option = ret b)
  ∧ ((∃ msg, convert_to_bool str_to_bool name option = raise (ValueError msg))
     ↔ (1 < length option)%nat
       ∨ ∃ option_0, option = [option_0] ∧ str_to_bool option_0 = None)
  ∧ (option = [] → convert_to_bool str_to_bool name option = raise IndexError)
  ∧ ((∃ b, convert_to_bool str_to_bool name option = ret b)
     ↔ ∃ option_0 b, option = [option_0] ∧ str_to_bool option_0 = Some b).
Proof.
  split; [|split; [|split; [|split; [split|split; [|split]]]]].
  - intros Hlen. split; [|apply bool_list_error_names].
    unfold convert_to_bool. by apply Nat.ltb_lt in Hlen as ->.
  - intros option_0 -> Hnone. split; [|apply bool_value_error_names].
    unfold convert_to_bool. simpl. by rewrite Hnone.
  - intros option_0 b -> Hb. unfold convert_to_bool. simpl. by rewrite Hb.
  - intros [msg Hmsg]. unfold convert_to_bool in Hmsg.
    destruct (1 <? length option)%nat eqn:Hlen.
    + left. by apply Nat.ltb_lt.
    + destruct option as [|option_0 [|]]; [done| |done].
      right. exists option_0. split; [done|].
      by destruct (str_to_bool option_0).
  - intros [Hlen|[option_0 [-> Hnone]]].
    + eexists. unfold convert_to_bool. by apply Nat.ltb_lt in Hlen as ->.
    + eexists. unfold convert_to_bool. simpl. by rewrite Hnone.
  - by intros ->.
  - intros [b Hb]. unfold convert_to_bool in Hb.
    destruct option as [|option_0 [|]]; [done| |done].
    exists option_0. simpl in Hb.
    destruct (str_to_bool option_0) as [b'|]; [by exists b'|done].
  - intros (option_0 & b & -> & Hb). exists b.
    unfold convert_to_bool. simpl. by rewrite Hb.
Qed.

End ConvertToBool.

Lemma convert_to_bool_outcome_witness :
  convert_to_bool utils.str_to_bool "warn" ["true"; "false"]
    = raise (ValueError (bool_list_error "warn" ["true"; "false"]))
  ∧ convert_to_bool utils.str_to_bool "warn" ["maybe"]
    = raise (ValueError (bool_value_error "warn" "maybe"))
  ∧ convert_to_bool utils.str_to_bool "warn" ["FALSE"] = ret false.
Proof.
  split; [|split].
  - destruct (convert_to_bool_outcome utils.str_to_bool "warn"
                ["true"; "false"]) as (Hlist & _).
    apply Hlist. simpl. lia.
  - destruct (convert_to_bool_outcome utils.str_to_bool "warn" ["maybe"])
      as (_ & Hvalue & _).
    by apply (Hvalue "maybe").
  - destruct (convert_to_bool_outcome utils.str_to_bool "warn" ["FALSE"])
      as (_ & _ & Hbool & _).
    by apply (Hbool "FALSE" false).
Defined.

(** C4, as the spec has it, fails.  The empty list holds neither more
    than one value nor one value that is no token, and yet
    [convert_to_bool] returns no boolean: it raises [IndexError], which
    names neither the option nor the input. *)
Lemma convert_to_bool_empty_list_raises :
  ¬ (1 < length ([] : list string))%nat
  ∧ (¬ ∃ option_0, ([] : list string) = [option_0]
                   ∧ utils.str_to_bool option_0 = None)
  ∧ convert_to_bool utils.str_to_bool "warn" [] = raise IndexError
  ∧ ¬ ∃ b, convert_to_bool utils.str_to_bool "warn" [] = ret b.
Proof.
  split; [simpl; lia|]. split; [by intros (? & ? & _)|].
  split; [reflexivity|]. by intros [b Hb].
Qed.

Example convert_to_bool_true :
  convert_to_bool utils.str_to_bool "warn" ["True"] = ret true.
Proof. reflexivity. Qed.

Example convert_to_bool_maybe :
  convert_to_bool utils.str_to_bool "warn" ["maybe"]
  = raise (ValueError [Str "Could not convert option 'warn' to bool: expected 'true'/'false', got: maybe"]).
Proof. reflexivity. Qed.

Example convert_to_bool_two :
  convert_to_bool utils.str_to_bool "warn" ["true"; "true"]
  = raise (ValueError (bool_list_error "warn" ["true"; "true"])).
Proof. reflexivity. Qed.

(** ** The docmark check *)

Lemma check_docmark_pair_eq (pd : gmap string value) (pair : string * string) :
  is_Some (pd !! pair.1) → is_Some (pd !! pair.2) →
  check_docmark_pair pd tt pair =
    if colliding pd pair
    then ([docmark_error pair.1 pair.2], Exit 1) else ret tt.
Proof.
  intros [x Hx] [y Hy]. unfold check_docmark_pair, same_mark, colliding.
  rewrite (getitem_Some _ _ _ Hx), (getitem_Some _ _ _ Hy), Hx, Hy.
  rewrite !bind_ret_l. by destruct (py_eq x y && negb (py_eq y (VStr ""))).
Qed.

Lemma check_docmark_loop (pd : gmap string value)
    (pairs : list (string * string)) :
  (∀ pair, pair ∈ pairs → is_Some (pd !! pair.1) ∧ is_Some (pd !! pair.2)) →
  for_each (check_docmark_pair pd) pairs tt =
    match find (colliding pd) pairs with
    | Some pr => ([docmark_error pr.1 pr.2], Exit 1)
    | None => ret tt
    end.
Proof.
  induction pairs as [|pair pairs IH]; intros Hall; [done|].
  cbn [for_each find].
  destruct (Hall pair) as [H1 H2]; [apply list_elem_of_here|].
  rewrite (check_docmark_pair_eq _ _ H1 H2).
  destruct (colliding pd pair); [done|].
  rewrite bind_ret_l. apply IH.
  intros pair' Hin. apply Hall. by apply list_elem_of_further.
Qed.

(** The six tests are the six pairs of the four mark options. *)
Lemma docmark_pairs_cover (a b : string) :
  a ∈ mark_options → b ∈ mark_options → a ≠ b →
  (a, b) ∈ docmark_pairs ∨ (b, a) ∈ docmark_pairs.
Proof.
  intros Ha Hb Hab. apply list_elem_of_In in Ha, Hb. simpl in Ha, Hb.
  destruct Ha as [<-|[<-|[<-|[<-|[]]]]], Hb as [<-|[<-|[<-|[<-|[]]]]];
    try done; compute_done.
Qed.

Lemma docmark_pairs_marks (a b : string) :
  (a, b) ∈ docmark_pairs → a ∈ mark_options ∧ b ∈ mark_options ∧ a ≠ b.
Proof.
  intros Hab. apply list_elem_of_In in Hab. simpl in Hab.
  destruct Hab as [Hab|[Hab|[Hab|[Hab|[Hab|[Hab|[]]]]]]];
    injection Hab as <- <-; compute_done.
Qed.

Lemma colliding_marks (pd : gmap string value) (a b : string) :
  (∀ m, m ∈ mark_options → ∃ v, pd !! m = Some (VStr v)) →
  a ∈ mark_options → b ∈ mark_options →
  colliding pd (a, b) = true ↔
  ∃ v, v ≠ "" ∧ pd !! a = Some (VStr v) ∧ pd !! b = Some (VStr v).
Proof.
  intros Hstr Ha Hb. unfold colliding. simpl.
  destruct (Hstr a Ha) as [x ->], (Hstr b Hb) as [y ->].
  unfold py_eq. rewrite andb_true_iff, negb_true_iff.
  rewrite bool_decide_eq_true, bool_decide_eq_false. split.
  - intros [[= ->] Hne]. exists y. split; [|done]. by intros ->.
  - intros (v & Hne & [= ->] & [= ->]). split; [done|]. by intros [= ->].
Qed.

(** C3.  When the four mark options hold strings, the docmark check
    stops the program with status 1 if and only if two of them hold
    the same non-empty value; it then prints the diagnostic that names
    the first such pair in the order of the six tests, and otherwise it
    prints nothing and goes on.  A pair that shares the empty string
    does not count. *)
Theorem docmark_uniqueness (pd : gmap string value) :
  (∀ m, m ∈ mark_options → ∃ v, pd !! m = Some (VStr v)) →
  ((∃ a b, marks_collide pd a b)
   ↔ exit_status (check_docmarks pd) = Some 1)
  ∧ ((∃ a b, marks_collide pd a b) →
     ∃ a b, marks_collide pd a b
            ∧ check_docmarks pd = ([docmark_error a b], Exit 1)
            ∧ names (docmark_error a b) a ∧ names (docmark_error a b) b)
  ∧ (¬ (∃ a b, marks_collide pd a b) → check_docmarks pd = ret tt).
Proof.
  intros Hstr.
  assert (check_docmarks pd =
            match find (colliding pd) docmark_pairs with
            | Some pr => ([docmark_error pr.1 pr.2], Exit 1)
            | None => ret tt
            end) as Heq.
  { apply check_docmark_loop. intros [a b] Hin.
    apply docmark_pairs_marks in Hin as (Ha & Hb & _). simpl.
    destruct (Hstr a Ha) as [? ->], (Hstr b Hb) as [? ->]. eauto. }
  assert ((∃ a b, marks_collide pd a b) →
          ∃ a b, marks_collide pd a b
                 ∧ find (colliding pd) docmark_pairs = Some (a, b)) as Hfirst.
  { intros (a & b & Ha & Hb & Hab & Hv).
    assert (∃ pair, pair ∈ docmark_pairs ∧ colliding pd pair = true)
      as (pair & Hin & Hc).
    { destruct (docmark_pairs_cover a b Ha Hb Hab) as [Hin|Hin].
      - exists (a, b). split; [done|]. by apply colliding_marks.
      - exists (b, a). split; [done|]. apply colliding_marks; [done..|].
        destruct Hv as (v & ? & ? & ?). eauto. }
    destruct (find (colliding pd) docmark_pairs) as [[a' b']|] eqn:Hfind.
    - exists a', b'. split; [|done].
      apply find_some in Hfind as [Hin' Hc'].
      apply list_elem_of_In, docmark_pairs_marks in Hin' as (Ha' & Hb' & ?).
      apply colliding_marks in Hc'; done.
    - apply list_elem_of_In in Hin.
      pose proof (find_none _ _ Hfind _ Hin). congruence. }
  split; [split|split].
  - intros Hc. destruct (Hfirst Hc) as (a & b & _ & Hfind).
    by rewrite Heq, Hfind.
  - rewrite Heq.
    destruct (find (colliding pd) docmark_pairs) as [[a b]|] eqn:Hfind; [|done].
    intros _. exists a, b.
    apply find_some in Hfind as [Hin Hc].
    apply list_elem_of_In, docmark_pairs_marks in Hin as (Ha & Hb & ?).
    apply colliding_marks in Hc; done.
  - intros Hc. destruct (Hfirst Hc) as (a & b & Hab & Hfind).
    exists a, b. rewrite Heq, Hfind.
    split; [done|]. split; [done|]. split.
    + exists "Error: ", (" and " +:+ b +:+ " are the same.").
      apply list_elem_of_here.
    + exists ("Error: " +:+ a +:+ " and "), " are the same.".
      unfold docmark_error. rewrite !str_app_assoc. apply list_elem_of_here.
  - intros Hno. rewrite Heq.
    destruct (find (colliding pd) docmark_pairs) as [[a b]|] eqn:Hfind; [|done].
    exfalso. apply Hno. exists a, b.
    apply find_some in Hfind as [Hin Hc].
    apply list_elem_of_In, docmark_pairs_marks in Hin as (Ha & Hb & ?).
    apply colliding_marks in Hc; done.
Qed.

Lemma clashing_marks_strings (m : string) :
  m ∈ mark_options → ∃ v, clashing_marks !! m = Some (VStr v).
Proof.
  intros Hm. apply list_elem_of_In in Hm. simpl in Hm.
  destruct Hm as [<-|[<-|[<-|[<-|[]]]]]; eexists; reflexivity.
Qed.

Lemma docmark_uniqueness_witness :
  exit_status (check_docmarks clashing_marks) = Some 1.
Proof.
  apply (docmark_uniqueness clashing_marks clashing_marks_strings).
  exists "docmark", "predocmark".
  split; [compute_done|]. split; [compute_done|]. split; [done|].
  exists "!". split; [done|]. split; reflexivity.
Defined.

Example docmarks_empty_pair_exempt :
  check_docmarks
    (<["docmark" := VStr "!"]> (<["docmark_alt" := VStr ""]>
      (<["predocmark" := VStr ">"]> (<["predocmark_alt" := VStr ""]> ∅))))
  = ret tt.
Proof. reflexivity. Qed.

(** ** The preprocessor probe *)

Lemma print_lines (lines : list text) :
  for_each (λ _ line, print line) lines tt = (lines, Ret tt).
Proof.
  induction lines as [|line lines IH]; [done|].
  cbn [for_each]. rewrite bind_print, IH. done.
Qed.

(** C6.  When preprocessing is requested, the probe runs the words of
    the configured command, or the built-in [cpp] command when none is
    configured.  When the command cannot be started the four lines of
    the warning, with the command and the error, are printed, the
    [preprocess] entry becomes the string that stands for disabled and
    [initialize] goes on; when it starts, whatever its exit status, the
    entry becomes the string that stands for enabled and the words of
    the command are kept under [preprocessor]. *)
Theorem preprocessor_probe (W : world) (pd : gmap string value)
    (requested : value) (configured : string) :
  pd !! "preprocess" = Some requested → truthy requested = true →
  pd !! "preprocessor" = Some (VStr configured) →
  let command :=
    if Py.str_truthy configured then Py.split_ws configured
    else ["cpp"; "-traditional-cpp"; "-E"; "-D__GFORTRAN__"] in
  (∀ ex, popen W command = SpawnOSError ex →
     probe_preprocessor W pd
       = (probe_warning command ex, Ret (<["preprocess" := VStr "false"]> pd))
     ∧ exit_status (probe_preprocessor W pd) = None
     ∧ [Str "  Preprocessor command: "; Repr command]
         ∈ probe_warning command ex
     ∧ [Str ("  Exception: " +:+ ex)] ∈ probe_warning command ex)
  ∧ (∀ status, popen W command = Spawned status →
       probe_preprocessor W pd
         = ret (<["preprocessor" := VList command]>
                  (<["preprocess" := VStr "true"]> pd))).
Proof.
  intros Hreq Htrue Hcmd command.
  assert (preprocessor_command pd = ret command) as Hcommand.
  { unfold preprocessor_command.
    rewrite (getitem_Some _ _ _ Hcmd), bind_ret_l. subst command.
    cbn [truthy]. destruct (Py.str_truthy configured); [|done].
    unfold as_str. by rewrite !bind_ret_l. }
  assert (probe_preprocessor W pd =
            match popen W command with
            | SpawnOSError ex =>
                (probe_warning command ex,
                 Ret (<["preprocess" := VStr "false"]> pd))
            | SpawnOtherError ex => raise (OtherError ex)
            | Spawned _ =>
                ret (<["preprocessor" := VList command]>
                       (<["preprocess" := VStr "true"]> pd))
            end) as Hprobe.
  { unfold probe_preprocessor.
    rewrite (getitem_Some _ _ _ Hreq), bind_ret_l, Htrue.
    rewrite Hcommand, bind_ret_l.
    destruct (popen W command); [done| |done].
    rewrite print_lines. unfold mbind, M_bind, ret, mret, M_ret.
    by rewrite app_nil_r. }
  split.
  - intros ex Hex. rewrite Hprobe, Hex. split; [done|]. split; [done|].
    unfold probe_warning. split.
    + apply list_elem_of_further, list_elem_of_here.
    + do 2 apply list_elem_of_further. apply list_elem_of_here.
  - intros status Hstatus. by rewrite Hprobe, Hstatus.
Qed.

Lemma preprocessor_probe_witness :
  probe_preprocessor example_world (probe_config "gfortran -E")
  = (probe_warning ["gfortran"; "-E"] "[Errno 2] No such file or directory",
     Ret (<["preprocess" := VStr "false"]> (probe_config "gfortran -E")))
  ∧ probe_preprocessor example_world (probe_config "")
    = ret (<["preprocessor" := VList default_preprocessor]>
             (<["preprocess" := VStr "true"]> (probe_config ""))).
Proof.
  split.
  - apply (preprocessor_probe example_world (probe_config "gfortran -E")
             (VBool true) "gfortran -E" eq_refl eq_refl eq_refl).
    reflexivity.
  - apply (preprocessor_probe example_world (probe_config "")
             (VBool true) "" eq_refl eq_refl eq_refl) with (status := 0).
    reflexivity.
Defined.

(** ** The licenses *)

Lemma lookup_license_Some (table : list (string * string)) (key : string) :
  is_Some (lookup_license table key) ↔ key ∈ table.*1.
Proof.
  induction table as [|[k markup] table IH]; simpl.
  - split; [by intros [? ?] | by intros ?%elem_of_nil].
  - case_bool_decide as Hk.
    + subst. split; [intros _; apply list_elem_of_here | eauto].
    + rewrite IH. simpl. rewrite elem_of_cons.
      split; [by right | by intros [?|?]].
Qed.

(** C7.  For the key [license] as for the key [doc_license], or any
    other key that holds a string: when the value in lower case is a
    key of [LICENSES] the entry becomes the markup of that table and
    nothing is printed; otherwise the notice is printed and the
    configuration is left as it was.  In both cases [initialize] goes
    on and no other entry changes.  The empty string is a key of the
    table, with the empty markup. *)
Theorem license_resolution (key : string) (pd : gmap string value)
    (name : string) :
  pd !! key = Some (VStr name) →
  exit_status (resolve_license key pd) = None
  ∧ (∀ markup, lookup_license LICENSES (Py.lower name) = Some markup →
       resolve_license key pd = ret (<[key := VStr markup]> pd))
  ∧ (Py.lower name ∉ LICENSES.*1 →
       resolve_license key pd = ([license_notice key name], Ret pd)
       ∧ names (license_notice key name) name)
  ∧ (Py.lower name ∈ LICENSES.*1 →
       ∃ markup, (Py.lower name, markup) ∈ LICENSES
                 ∧ resolve_license key pd = ret (<[key := VStr markup]> pd))
  ∧ (∀ out pd' other, resolve_license key pd = (out, Ret pd') →
       other ≠ key → pd' !! other = pd !! other)
  ∧ lookup_license LICENSES "" = Some "".
Proof.
  intros Hname.
  assert (resolve_license key pd =
            match lookup_license LICENSES (Py.lower name) with
            | Some markup => ret (<[key := VStr markup]> pd)
            | None => ([license_notice key name], Ret pd)
            end) as Heq.
  { unfold resolve_license.
    rewrite (getitem_Some _ _ _ Hname), bind_ret_l.
    unfold as_str. rewrite bind_ret_l.
    by destruct (lookup_license _ _). }
  split; [|split; [|split; [|split; [|split]]]].
  - rewrite Heq. by destruct (lookup_license _ _).
  - intros markup Hm. by rewrite Heq, Hm.
  - intros Hnot. rewrite Heq.
    destruct (lookup_license LICENSES (Py.lower name)) as [m|] eqn:Hm.
    + exfalso. apply Hnot, lookup_license_Some. by rewrite Hm.
    + split; [done|].
      exists ("Notice: " +:+ key +:+ " " +:+ dq),
             (dq +:+ " is not a recognized value, using the value as a custom license value.").
      unfold license_notice. rewrite !str_app_assoc. apply list_elem_of_here.
  - intros Hin. apply lookup_license_Some in Hin as [markup Hm].
    exists markup. rewrite Heq, Hm. split; [|done].
    clear Heq. revert Hm. generalize (Py.lower name) as k. intros k.
    induction LICENSES as [|[k' m'] table IH]; simpl; [done|].
    case_bool_decide as Hk.
    + intros [= ->]. subst. apply list_elem_of_here.
    + intros Hm. apply list_elem_of_further. by apply IH.
  - intros out pd' other Hres Hother. rewrite Heq in Hres.
    destruct (lookup_license _ _).
    + injection Hres as _ <-. by rewrite lookup_insert_ne.
    + by injection Hres as _ <-.
  - reflexivity.
Qed.

Lemma license_resolution_witness :
  resolve_license "license" license_config
  = ret (<["license" :=
            VStr ("<a rel=" +:+ dq +:+ "license" +:+ dq +:+ " href=" +:+ dq
                  +:+ "https://opensource.org/licenses/MIT" +:+ dq
                  +:+ ">MIT</a>")]> license_config)
  ∧ resolve_license "doc_license" license_config
    = ([license_notice "doc_license" "proprietary"], Ret license_config).
Proof.
  split.
  - apply (license_resolution "license" license_config "MIT" eq_refl).
    reflexivity.
  - apply (license_resolution "doc_license" license_config "proprietary"
             eq_refl).
    compute_done.
Defined.

(** ** The merge of the three sources *)

Section Merge.

Context (str_to_bool : string → option bool).

Lemma merge_option_eq (args : namespace) (pd : gmap string value)
    (opt : string) (default : value) :
  merge_option str_to_bool args pd (opt, default) =
    v ← merged_value str_to_bool args (pd !! opt) opt default;
    ret (<[opt := v]> pd).
Proof.
  unfold merge_option, merged_value.
  destruct (getattr args opt) as [v|]; [by rewrite bind_ret_l|].
  destruct (pd !! opt) as [raw|] eqn:Hraw; [|by rewrite bind_ret_l].
  destruct default; try (by destruct raw);
    try (destruct raw; try done; by rewrite !bind_ret_l).
  - destruct raw as [| | | |l|]; try done. unfold as_list.
    rewrite !bind_ret_l. unfold mbind, M_bind.
    destruct (convert_to_bool str_to_bool opt l) as [out [b1| |]]; [|done..].
    unfold ret, mret, M_ret. by rewrite !app_nil_r.
  - rewrite bind_ret_l. by rewrite insert_id.
Qed.

(** What the loop leaves, when it ends: under each option the value of
    its turn, and the other entries as they were. *)
Lemma merge_loop_returns (args : namespace) (ds : list (string * value)) :
  NoDup ds.*1 →
  ∀ (pd pd' : gmap string value) out,
    for_each (merge_option str_to_bool args) ds pd = (out, Ret pd') →
    out = []
    ∧ (∀ opt default, (opt, default) ∈ ds →
         ∃ v, pd' !! opt = Some v
              ∧ merged_value str_to_bool args (pd !! opt) opt default = ret v)
    ∧ (∀ k, k ∉ ds.*1 → pd' !! k = pd !! k).
Proof.
  induction ds as [|[o d] ds IH]; intros Hnd pd pd' out Hrun.
  - injection Hrun as <- <-. split; [done|]. split; [|done].
    by intros ?? ?%elem_of_nil.
  - apply NoDup_cons in Hnd as [Ho Hnd]. cbn [for_each] in Hrun.
    rewrite merge_option_eq in Hrun.
    destruct (merged_value str_to_bool args (pd !! o) o d)
      as [out1 [v| |]] eqn:Hv; try done.
    unfold mbind at 2 in Hrun. unfold M_bind in Hrun.
    unfold ret, mret, M_ret in Hrun. rewrite app_nil_r in Hrun.
    unfold mbind, M_bind in Hrun.
    destruct (for_each _ ds _) as [out2 r2] eqn:Hrest.
    destruct r2 as [pd2| |]; try done. injection Hrun as <- <-.
    destruct (IH Hnd _ _ _ Hrest) as (-> & Hopts & Hothers).
    assert (out1 = []) as ->.
    { unfold merged_value in Hv.
      destruct (getattr args o); [by injection Hv|].
      destruct (pd !! o) as [raw|]; [|by injection Hv].
      destruct d; try (by injection Hv);
        try (destruct raw; try done; by injection Hv).
      destruct raw as [| | | |l|]; try done.
      unfold as_list in Hv. rewrite bind_ret_l in Hv.
      unfold convert_to_bool in Hv.
      destruct (1 <? length l)%nat; [done|].
      destruct l as [|x l]; [done|]. destruct (str_to_bool x); [|done].
      rewrite bind_ret_l in Hv. by injection Hv. }
    split; [done|]. split.
    + intros opt default [[= -> ->]|Hin]%elem_of_cons.
      * exists v. split; [|done].
        rewrite Hothers; [apply lookup_insert_eq|done].
      * destruct (Hopts _ _ Hin) as (v' & Hv' & Hm). exists v'.
        split; [done|]. rewrite lookup_insert_ne in Hm; [done|].
        intros ->. apply Ho. apply list_elem_of_fmap. by exists (opt, default).
    + intros k Hk. cbn [fmap list_fmap] in Hk.
      apply not_elem_of_cons in Hk as [Hne Hk]. simpl in Hne.
      rewrite (Hothers _ Hk). by rewrite lookup_insert_ne.
Qed.

(** The loop ends when the turn of every option gives a value. *)
Lemma merge_loop_total (args : namespace) (ds : list (string * value)) :
  NoDup ds.*1 →
  ∀ pd : gmap string value,
    (∀ opt default, (opt, default) ∈ ds →
       ∃ v, merged_value str_to_bool args (pd !! opt) opt default = ret v) →
    ∃ pd', for_each (merge_option str_to_bool args) ds pd = ret pd'.
Proof.
  induction ds as [|[o d] ds IH]; intros Hnd pd Hall; [by eexists|].
  apply NoDup_cons in Hnd as [Ho Hnd]. cbn [for_each].
  rewrite merge_option_eq.
  destruct (Hall o d) as [v Hv]; [apply list_elem_of_here|].
  rewrite Hv, !bind_ret_l. apply IH; [done|].
  intros opt default Hin.
  destruct (Hall opt default) as [v' Hv']; [by apply list_elem_of_further|].
  exists v'. rewrite lookup_insert_ne; [done|].
  intros ->. apply Ho. apply list_elem_of_fmap. by exists (opt, default).
Qed.

Lemma defaults_NoDup (W : world) : NoDup (defaults W).*1.
Proof. apply (bool_decide_unpack _). by vm_compute. Qed.

Lemma merged_value_Meta (args : namespace) (Meta : gmap string (list string))
    (opt : string) (default : value) :
  merged_value str_to_bool args ((VList <$> Meta) !! opt) opt default
  = by_precedence str_to_bool args Meta opt default.
Proof.
  unfold merged_value, by_precedence, coerce. rewrite lookup_fmap.
  destruct (getattr args opt); [done|].
  destruct (Meta !! opt) as [l|]; [|done]. simpl.
  destruct default; try done.
  by destruct (convert_to_bool _ _ _ ≫= _).
Qed.

End Merge.

Section Precedence.

Context (str_to_bool : string → option bool).
Context (W : world).

Lemma merge_options_returns (args : namespace)
    (Meta : gmap string (list string)) out (pd' : gmap string value) :
  merge_options str_to_bool W args (VList <$> Meta) = (out, Ret pd') →
  out = []
  ∧ ∀ opt default, (opt, default) ∈ defaults W →
      ∃ v, pd' !! opt = Some v
           ∧ by_precedence str_to_bool args Meta opt default = ret v.
Proof.
  intros Hrun.
  destruct (merge_loop_returns str_to_bool args (defaults W)
              (defaults_NoDup W) _ _ _ Hrun) as (-> & Hopts & _).
  split; [done|]. intros opt default Hin.
  destruct (Hopts _ _ Hin) as (v & Hv & Hm). exists v. split; [done|].
  by rewrite merged_value_Meta in Hm.
Qed.

(** C5.  When the merge loop ends it has printed nothing and, for every
    option of [defaults], the configuration holds a value under that
    name: the value of the command line when one was given, true or
    not; otherwise the value coerced from the metadata when the
    metadata has the name; otherwise the default.  The loop ends
    whenever each option has such a value, that is whenever no boolean
    option taken from the metadata is refused by [convert_to_bool]. *)
Theorem merge_options_precedence (args : namespace)
    (Meta : gmap string (list string)) :
  (∀ out pd',
     merge_options str_to_bool W args (VList <$> Meta) = (out, Ret pd') →
     out = []
     ∧ ∀ opt default, (opt, default) ∈ defaults W →
         ∃ v, pd' !! opt = Some v
              ∧ match getattr args opt with
                | Some given => v = given
                | None =>
                    match Meta !! opt with
                    | Some l => coerce str_to_bool opt default l = ret v
                    | None => v = default
                    end
                end)
  ∧ ((∀ opt default, (opt, default) ∈ defaults W →
        ∃ v, by_precedence str_to_bool args Meta opt default = ret v) →
     ∃ pd', merge_options str_to_bool W args (VList <$> Meta) = ret pd').
Proof.
  split.
  - intros out pd' Hrun.
    destruct (merge_options_returns args Meta out pd' Hrun) as [-> Hopts].
    split; [done|]. intros opt default Hin.
    destruct (Hopts _ _ Hin) as (v & Hv & Hm). exists v. split; [done|].
    unfold by_precedence in Hm.
    destruct (getattr args opt); [by injection Hm|].
    destruct (Meta !! opt); [done|]. by injection Hm.
  - intros Hall. apply merge_loop_total; [apply defaults_NoDup|].
    intros opt default Hin. rewrite merged_value_Meta. by apply Hall.
Qed.

(** C8.  For an option of scalar kind that the command line does not
    give and the metadata has, the merge leaves the lines of the
    metadata joined by a newline, as one string: one line alone is that
    line, and splitting the string at the newlines gives the lines back
    in their order. *)
Theorem scalar_metadata_joined (args : namespace)
    (Meta : gmap string (list string)) (opt : string) (default : value)
    (l : list string) out (pd' : gmap string value) :
  (opt, default) ∈ defaults W → scalar_kind default →
  getattr args opt = None → Meta !! opt = Some l →
  merge_options str_to_bool W args (VList <$> Meta) = (out, Ret pd') →
  pd' !! opt = Some (VStr (Py.join nl l))
  ∧ (∀ x, l = [x] → pd' !! opt = Some (VStr x))
  ∧ (l ≠ [] → Forall (λ x, Py.contains (Py.chr 10) x = false) l →
     Py.split (Py.chr 10) (Py.join nl l) = l).
Proof.
  intros Hin Hkind Hargs Hmeta Hrun.
  destruct (merge_options_returns args Meta out pd' Hrun) as [_ Hopts].
  destruct (Hopts _ _ Hin) as (v & Hv & Hm). unfold by_precedence in Hm.
  rewrite Hargs, Hmeta in Hm.
  assert (v = VStr (Py.join nl l)) as ->.
  { destruct default; try done; by injection Hm. }
  split; [done|]. split.
  - by intros x ->.
  - apply split_join.
Qed.

(** An option whose default is a string and that the command line
    cannot give holds a string after the merge: so do the four mark
    options, [license], [doc_license] and [preprocessor]. *)
Lemma merged_string_option (args : namespace)
    (Meta : gmap string (list string)) (opt d : string) out
    (pd' : gmap string value) :
  (opt, VStr d) ∈ defaults W → getattr args opt = None →
  merge_options str_to_bool W args (VList <$> Meta) = (out, Ret pd') →
  ∃ v, pd' !! opt = Some (VStr v).
Proof.
  intros Hin Hargs Hrun.
  destruct (merge_options_returns args Meta out pd' Hrun) as [_ Hopts].
  destruct (Hopts _ _ Hin) as (v & Hv & Hm).
  unfold by_precedence in Hm. rewrite Hargs in Hm.
  destruct (Meta !! opt) as [l|]; injection Hm as <-; eauto.
Qed.

Lemma merged_marks_strings (args : namespace)
    (Meta : gmap string (list string)) out (pd' : gmap string value) :
  merge_options str_to_bool W args (VList <$> Meta) = (out, Ret pd') →
  ∀ m, m ∈ mark_options → ∃ v, pd' !! m = Some (VStr v).
Proof.
  intros Hrun m Hm. apply list_elem_of_In in Hm. simpl in Hm.
  destruct Hm as [<-|[<-|[<-|[<-|[]]]]].
  - apply (merged_string_option args Meta "docmark" "!" out); [|done..].
    compute_done.
  - apply (merged_string_option args Meta "docmark_alt" "*" out); [|done..].
    compute_done.
  - apply (merged_string_option args Meta "predocmark" ">" out); [|done..].
    compute_done.
  - apply (merged_string_option args Meta "predocmark_alt" "|" out); [|done..].
    compute_done.
Qed.

End Precedence.

Lemma merge_options_precedence_witness :
  summary_merged !! "search" = Some (VBool false)
  ∧ summary_merged !! "summary"
    = Some (VStr ("First line." +:+ nl +:+ "Second line."))
  ∧ summary_merged !! "output_dir" = Some (VStr "./doc").
Proof.
  assert (summary_merge = (summary_merge.1, Ret summary_merged)) as Hrun.
  { apply returned_value_of. vm_compute. reflexivity. }
  destruct (proj1 (merge_options_precedence utils.str_to_bool example_world
                     _ summary_meta) _ _ Hrun) as [_ Hopts].
  split; [|split].
  - destruct (Hopts "search" (VBool true)) as (v & Hv & Hm); [compute_done|].
    simpl in Hm. by rewrite Hv, Hm.
  - destruct (Hopts "summary" VNone) as (v & Hv & Hm); [compute_done|].
    simpl in Hm. injection Hm as <-. by rewrite Hv.
  - destruct (Hopts "output_dir" (VStr "./doc")) as (v & Hv & Hm);
      [compute_done|].
    simpl in Hm. by rewrite Hv, Hm.
Defined.

Lemma scalar_metadata_joined_witness :
  summary_merged !! "summary"
    = Some (VStr ("First line." +:+ nl +:+ "Second line."))
  ∧ summary_merged !! "author" = Some (VStr "A. N. Author").
Proof.
  assert (summary_merge = (summary_merge.1, Ret summary_merged)) as Hrun.
  { apply returned_value_of. vm_compute. reflexivity. }
  split.
  - refine (proj1 (scalar_metadata_joined utils.str_to_bool example_world
             _ summary_meta "summary" VNone
             ["First line."; "Second line."] _ summary_merged
             _ I eq_refl eq_refl Hrun)).
    compute_done.
  - refine (proj1 (proj2 (scalar_metadata_joined utils.str_to_bool
             example_world _ summary_meta "author" VNone ["A. N. Author"]
             _ summary_merged _ I eq_refl eq_refl Hrun)) _ eq_refl).
    compute_done.
Defined.

(** A flag given on the command line wins though its value is false,
    and a default stands when neither source has the option. *)
Example no_search_wins :
  summary_merged !! "search" = Some (VBool false)
  ∧ summary_merged !! "output_dir" = Some (VStr "./doc").
Proof. vm_compute. done. Qed.

(** A boolean option the metadata gives a bad value stops the merge. *)
Example warn_maybe :
  merge_options utils.str_to_bool example_world no_args
    (VList <$> (<["warn" := ["maybe"]]> ∅))
  = raise (ValueError (bool_value_error "warn" "maybe")).
Proof. vm_compute. reflexivity. Qed.

(** ** The extensions *)

Lemma occurrences_filter_out (x : string) (keep : string → Prop)
    `{∀ y, Decision (keep y)} (l : list string) :
  keep x → occurrences x (filter keep l) = occurrences x l.
Proof.
  intros Hx. unfold occurrences.
  induction l as [|y l IH]; [done|].
  rewrite (filter_cons keep). destruct (decide (keep y)) as [Hy|Hy].
  - rewrite !filter_cons. destruct (decide (y = x)); simpl; by rewrite IH.
  - rewrite filter_cons. destruct (decide (y = x)) as [->|]; [done|].
    by rewrite IH.
Qed.

Lemma derive_fields_extensions (W : world) (pd pd' : gmap string value)
    out (extensions fpp_extensions : list string) :
  pd !! "extensions" = Some (VList extensions) →
  pd !! "fpp_extensions" = Some (VList fpp_extensions) →
  derive_fields W pd = (out, Ret pd') →
  pd' !! "extensions"
  = Some (VList (add_fpp_extensions extensions fpp_extensions)).
Proof.
  intros Hext Hfpp Hrun. unfold derive_fields in Hrun.
  apply bind_Ret_inv in Hrun as (? & display & ? & _ & Hrun & _).
  apply bind_Ret_inv in Hrun as (? & creation_date & ? & _ & Hrun & _).
  apply bind_Ret_inv in Hrun as (? & project_url & ? & _ & Hrun & _).
  apply bind_Ret_inv in Hrun as (? & exts & ? & Hexts & Hrun & _).
  apply bind_Ret_inv in Hrun as (? & fpp & ? & Hfpps & Hrun & _).
  apply bind_Ret_inv in Hrun as (? & extra & ? & _ & Hrun & _).
  injection Hrun as _ <-.
  apply bind_Ret_inv in Hexts as (? & v1 & ? & Hv1 & Hl1 & _).
  apply getitem_inv in Hv1 as [_ Hv1]. apply as_list_inv in Hl1 as [_ ->].
  apply bind_Ret_inv in Hfpps as (? & v2 & ? & Hv2 & Hl2 & _).
  apply getitem_inv in Hv2 as [_ Hv2]. apply as_list_inv in Hl2 as [_ ->].
  rewrite !lookup_insert_ne in Hv1 by done.
  rewrite !lookup_insert_ne in Hv2 by done.
  rewrite Hext in Hv1. rewrite Hfpp in Hv2.
  injection Hv1 as <-. injection Hv2 as <-.
  rewrite lookup_insert_ne by done. apply lookup_insert_eq.
Qed.

(** C10, as the code has it.  After the derived fields are set, the
    list under [extensions] is the list that was there followed by the
    entries of [fpp_extensions] that were not in it, in their order:
    every entry of [fpp_extensions] is in it; an extension that was
    there already is not appended; an extension that was not there is
    appended as often as it stands in [fpp_extensions], so once when
    [fpp_extensions] has it once. *)
Theorem fpp_extensions_appended (W : world) (pd pd' : gmap string value)
    out (extensions fpp_extensions : list string) :
  pd !! "extensions" = Some (VList extensions) →
  pd !! "fpp_extensions" = Some (VList fpp_extensions) →
  derive_fields W pd = (out, Ret pd') →
  ∃ appended,
    pd' !! "extensions" = Some (VList (extensions ++ appended))
    ∧ appended = filter (λ ext, ext ∉ extensions) fpp_extensions
    ∧ (∀ ext, ext ∈ fpp_extensions → ext ∈ extensions ++ appended)
    ∧ appended `sublist_of` fpp_extensions
    ∧ (∀ ext, ext ∈ extensions → ext ∉ appended)
    ∧ (∀ ext, ext ∉ extensions →
         occurrences ext appended = occurrences ext fpp_extensions)
    ∧ (NoDup fpp_extensions → NoDup appended).
Proof.
  intros Hext Hfpp Hrun.
  exists (filter (λ ext, ext ∉ extensions) fpp_extensions).
  split; [by apply (derive_fields_extensions W pd pd' out)|].
  split; [done|]. split; [|split; [|split; [|split]]].
  - intros ext Hin. rewrite elem_of_app, list_elem_of_filter.
    destruct (decide (ext ∈ extensions)); [by left | by right].
  - apply sublist_filter.
  - intros ext Hin [Hnot _]%list_elem_of_filter. done.
  - intros ext Hnot.
    by apply (occurrences_filter_out ext (λ ext, ext ∉ extensions)).
  - apply NoDup_filter.
Qed.

Lemma fpp_extensions_appended_witness :
  extensions_derived !! "extensions" = Some (VList ["f90"; "F"; "F90"; "F95"]).
Proof.
  destruct (fpp_extensions_appended example_world extensions_config
              extensions_derived
              (derive_fields example_world extensions_config).1
              ["f90"; "F"] ["F90"; "F"; "F95"] eq_refl eq_refl)
    as (appended & Hlookup & -> & _).
  - apply returned_value_of. vm_compute. reflexivity.
  - exact Hlookup.
Defined.

(** C10, as the spec has it, fails.  With [F90] twice under
    [fpp_extensions] in the metadata and not under [extensions], the
    run appends [F90] twice. *)
Lemma repeated_fpp_extension_appended_twice :
  match (run example_world no_args "proj/project.md" repeated_fpp_meta).2 with
  | Ret (pd, _) =>
      pd !! "extensions" = Some (VList ["f90"; "F90"; "F90"])
      ∧ occurrences "F90" (drop 1 ["f90"; "F90"; "F90"]) = 2%nat
  | _ => False
  end
  ∧ add_fpp_extensions ["f90"] ["F90"; "F90"] = ["f90"; "F90"; "F90"].
Proof. vm_compute. done. Qed.

(** ** Paths *)

Lemma split_segments (sep : ascii) (s : string) :
  Forall (λ c, Py.contains sep c = false) (Py.split sep s).
Proof.
  induction s as [|a s IH]; simpl.
  - by repeat constructor.
  - destruct (Ascii.eqb a sep) eqn:Ha; [by constructor|].
    destruct (Py.split sep s) as [|w ws].
    + repeat constructor. simpl. by rewrite Ha.
    + apply Forall_cons in IH as [Hw Hws]. constructor; [|done].
      simpl. by rewrite Ha.
Qed.

Lemma plain_segment (c : string) : plain c → segment c.
Proof. by intros [? _]. Qed.

Lemma normal_comps_segments (k : nat) (comps : list string) :
  normal_comps k comps → Forall segment comps.
Proof.
  intros (m & names & -> & Hnames & _). apply Forall_app. split.
  - apply Forall_replicate. by split.
  - eapply Forall_impl; [done|]. apply plain_segment.
Qed.

Lemma normpath_step_plain (k : nat) (acc : list string) (comp : string) :
  plain comp → posixpath.normpath_step k acc comp = acc ++ [comp].
Proof.
  intros ([Hne _] & Hdot & Hdots). unfold posixpath.normpath_step.
  rewrite (bool_decide_eq_false_2 (comp = "")) by done.
  rewrite (bool_decide_eq_false_2 (comp = ".")) by done.
  by rewrite (bool_decide_eq_false_2 (comp = "..")) by done.
Qed.

Lemma normpath_step_dots (m : nat) :
  posixpath.normpath_step 0 (replicate m "..") ".."
  = replicate (S m) "..".
Proof.
  unfold posixpath.normpath_step.
  rewrite (bool_decide_eq_false_2 (".." = "")) by done.
  rewrite (bool_decide_eq_false_2 (".." = ".")) by done.
  rewrite (bool_decide_eq_true_2 (".." = "..")) by done.
  destruct m as [|m]; [done|].
  assert (last (replicate (S m) "..") = Some "..") as ->.
  { by rewrite replicate_S_end, last_snoc. }
  rewrite (bool_decide_eq_false_2 (replicate (S m) ".." = [])) by done.
  rewrite (bool_decide_eq_true_2 (Some ".." = Some "..")) by done.
  cbn [negb orb andb]. symmetry. apply (replicate_S_end (S m)).
Qed.

Lemma normpath_step_normal (k : nat) (acc : list string) (comp : string) :
  normal_comps k acc → Py.contains "/" comp = false →
  normal_comps k (posixpath.normpath_step k acc comp).
Proof.
  intros (m & names & -> & Hnames & Hk) Hcomp.
  destruct (decide (comp = "")) as [->|Hne].
  { by exists m, names. }
  destruct (decide (comp = ".")) as [->|Hdot].
  { by exists m, names. }
  destruct (decide (comp = "..")) as [->|Hdots].
  - destruct names as [|x names _] using rev_ind.
    + rewrite app_nil_r. destruct k as [|k].
      * rewrite normpath_step_dots. exists (S m), []. by rewrite app_nil_r.
      * rewrite Hk by done. by exists 0%nat, [].
    + apply Forall_app in Hnames as [Hnames [Hx _]%Forall_cons].
      unfold posixpath.normpath_step.
      rewrite (bool_decide_eq_false_2 (".." = "")) by done.
      rewrite (bool_decide_eq_false_2 (".." = ".")) by done.
      rewrite (bool_decide_eq_true_2 (".." = "..")) by done.
      rewrite app_assoc, last_snoc.
      rewrite (bool_decide_eq_false_2 (_ ++ [x] = []))
        by (by destruct (replicate m ".." ++ names)).
      rewrite (bool_decide_eq_false_2 (Some x = Some ".."))
        by (intros [= ->]; by destruct Hx as (_ & _ & ?)).
      rewrite andb_false_r. simpl. rewrite removelast_last.
      by exists m, names.
  - rewrite normpath_step_plain by done.
    exists m, (names ++ [comp]). rewrite app_assoc. split; [done|].
    split; [|done]. apply Forall_app. split; [done|]. by repeat constructor.
Qed.

Lemma normpath_fold_normal (k : nat) (comps acc : list string) :
  normal_comps k acc → Forall (λ c, Py.contains "/" c = false) comps →
  normal_comps k (fold_left (posixpath.normpath_step k) comps acc).
Proof.
  intros Hacc Hcomps. revert acc Hacc.
  induction Hcomps as [|c comps Hc _ IH]; intros acc Hacc; [done|].
  simpl. apply IH. by apply normpath_step_normal.
Qed.

Lemma normpath_fold_plain (k : nat) (names acc : list string) :
  Forall plain names →
  fold_left (posixpath.normpath_step k) names acc = acc ++ names.
Proof.
  intros Hnames. revert acc.
  induction Hnames as [|c names Hc _ IH]; intros acc; simpl.
  - by rewrite app_nil_r.
  - rewrite normpath_step_plain by done. rewrite IH.
    by rewrite <- app_assoc.
Qed.

Lemma normpath_fold_dots (m m0 : nat) :
  fold_left (posixpath.normpath_step 0) (replicate m "..") (replicate m0 "..")
  = replicate (m0 + m) "..".
Proof.
  revert m0. induction m as [|m IH]; intros m0; simpl.
  - by rewrite Nat.add_0_r.
  - rewrite normpath_step_dots, IH. f_equal. lia.
Qed.

(** The loop of [normpath] leaves normal components as they are. *)
Lemma normpath_fold_fixed (k : nat) (comps : list string) :
  normal_comps k comps →
  fold_left (posixpath.normpath_step k) comps [] = comps.
Proof.
  intros (m & names & -> & Hnames & Hk).
  rewrite fold_left_app. destruct k as [|k].
  - pose proof (normpath_fold_dots m 0) as Hdots.
    cbn [replicate Nat.add] in Hdots. rewrite Hdots.
    by rewrite normpath_fold_plain.
  - rewrite (Hk ltac:(done)). cbn [replicate fold_left app].
    by rewrite normpath_fold_plain.
Qed.

Lemma startswith_cons (a b : ascii) (t pre : string) :
  Py.startswith (String a t) (String b pre)
  = Ascii.eqb a b && Py.startswith t pre.
Proof.
  unfold Py.startswith. simpl. destruct (ascii_dec b a) as [->|Hne].
  - by rewrite Ascii.eqb_refl.
  - destruct (Ascii.eqb a b) eqn:Hab; [|done].
    by apply Ascii.eqb_eq in Hab as ->.
Qed.

Lemma startswith_empty (s : string) : Py.startswith s "" = true.
Proof. by destruct s. Qed.

Lemma segment_head (c : string) :
  segment c → ∃ a t, c = String a t ∧ Ascii.eqb a "/" = false.
Proof.
  intros [Hne Hc]. destruct c as [|a t]; [done|]. exists a, t.
  split; [done|]. simpl in Hc. by destruct (Ascii.eqb a "/").
Qed.

Lemma join_segments_head (comps : list string) :
  comps ≠ [] → Forall segment comps →
  ∃ a t, Py.join "/" comps = String a t ∧ Ascii.eqb a "/" = false.
Proof.
  intros Hne Hall. destruct Hall as [|c comps Hc Hall]; [done|].
  destruct (segment_head c Hc) as (a & t & -> & Ha).
  destruct comps as [|c' comps].
  - by exists a, t.
  - rewrite join_cons. by eexists a, _.
Qed.

Lemma split_join_segments (comps : list string) :
  comps ≠ [] → Forall segment comps →
  Py.split "/" (Py.join "/" comps) = comps.
Proof.
  intros Hne Hall. apply (split_join "/"); [done|].
  eapply Forall_impl; [done|]. by intros c [_ ?].
Qed.

Lemma initial_slashes_le (path : string) :
  (posixpath.initial_slashes path ≤ 2)%nat.
Proof.
  unfold posixpath.initial_slashes.
  destruct (Py.startswith path "/"); [|lia].
  destruct (_ && _); lia.
Qed.

(** What [normpath] returns for a path it leaves as it is. *)
Lemma normpath_eq (path : string) (k : nat) (comps : list string) :
  path ≠ "" → posixpath.initial_slashes path = k →
  fold_left (posixpath.normpath_step k) (Py.split "/" path) [] = comps →
  Py.repeat "/" k +:+ Py.join "/" comps = path →
  posixpath.normpath path = path.
Proof.
  intros Hne Hk Hfold Hjoin. unfold posixpath.normpath.
  rewrite bool_decide_eq_false_2 by done. cbv zeta.
  rewrite Hk, Hfold, Hjoin. by destruct path.
Qed.

(** A path built from normal components behind the slashes [normpath]
    keeps is left as it is. *)
Lemma normpath_normal (k : nat) (comps : list string) :
  (k ≤ 2)%nat → normal_comps k comps →
  let path := Py.repeat "/" k +:+ Py.join "/" comps in
  posixpath.normpath (if Py.str_truthy path then path else ".")
  = (if Py.str_truthy path then path else ".").
Proof.
  intros Hk Hnormal path.
  pose proof (normal_comps_segments _ _ Hnormal) as Hseg.
  pose proof (normpath_fold_fixed _ _ Hnormal) as Hfold.
  destruct (decide (comps = [])) as [->|Hne].
  { subst path. by destruct k as [|[|[|k]]]; [..|lia]. }
  destruct (join_segments_head comps Hne Hseg) as (a & t & Hjoin & Ha).
  pose proof (split_join_segments comps Hne Hseg) as Hsplit.
  subst path. rewrite Hjoin in Hsplit |- *.
  destruct k as [|[|[|k]]]; [..|lia].
  - change (Py.repeat "/" 0 +:+ String a t) with (String a t).
    cbn [Py.str_truthy].
    apply (normpath_eq _ 0%nat comps); [done| |by rewrite Hsplit|by rewrite Hjoin].
    unfold posixpath.initial_slashes. by rewrite startswith_cons, Ha.
  - change (Py.repeat "/" 1 +:+ String a t) with (String "/" (String a t)).
    cbn [Py.str_truthy].
    apply (normpath_eq _ 1%nat comps); [done| | |by rewrite Hjoin].
    + unfold posixpath.initial_slashes.
      rewrite !startswith_cons, Ha, startswith_empty. done.
    + change (Py.split "/" (String "/" (String a t)))
        with ("" :: Py.split "/" (String a t)).
      by rewrite Hsplit.
  - change (Py.repeat "/" 2 +:+ String a t)
      with (String "/" (String "/" (String a t))).
    cbn [Py.str_truthy].
    apply (normpath_eq _ 2%nat comps); [done| | |by rewrite Hjoin].
    + unfold posixpath.initial_slashes.
      rewrite !startswith_cons, Ha, startswith_empty. done.
    + change (Py.split "/" (String "/" (String "/" (String a t))))
        with ("" :: "" :: Py.split "/" (String a t)).
      by rewrite Hsplit.
Qed.

(** [normpath] applied to what [normpath] returns changes nothing. *)
Lemma normpath_idempotent (path : string) :
  posixpath.normpath (posixpath.normpath path) = posixpath.normpath path.
Proof.
  unfold posixpath.normpath at 2 3.
  case_bool_decide as Hpath; [done|]. cbv zeta.
  apply normpath_normal; [apply initial_slashes_le|].
  apply normpath_fold_normal; [|apply split_segments].
  by exists 0%nat, [].
Qed.

Lemma isabs_cons (path : string) :
  posixpath.isabs path = true ↔ ∃ t, path = String "/" t.
Proof.
  unfold posixpath.isabs. destruct path as [|a t].
  - split; [done | by intros [? ?]].
  - rewrite startswith_cons, startswith_empty, andb_true_r.
    rewrite Ascii.eqb_eq. split; [intros ->; eauto | by intros [? [= -> _]]].
Qed.

(** An absolute path stays absolute under [normpath]. *)
Lemma normpath_isabs (path : string) :
  posixpath.isabs path = true →
  posixpath.isabs (posixpath.normpath path) = true.
Proof.
  intros [t ->]%isabs_cons. unfold posixpath.normpath.
  rewrite bool_decide_eq_false_2 by done. cbv zeta.
  assert (∃ k, posixpath.initial_slashes (String "/" t) = S k) as [k ->].
  { unfold posixpath.initial_slashes.
    rewrite startswith_cons, startswith_empty. simpl.
    destruct (_ && _); eauto. }
  generalize (Py.join "/"
                (fold_left (posixpath.normpath_step (S k))
                   (Py.split "/" (String "/" t)) [])).
  intros rest.
  change (Py.repeat "/" (S k) +:+ rest)
    with (String "/" (Py.repeat "/" k +:+ rest)).
  cbn [Py.str_truthy]. apply isabs_cons. eauto.
Qed.

Lemma join_isabs (a b : string) :
  posixpath.isabs a = true → posixpath.isabs (posixpath.join a b) = true.
Proof.
  intros Ha. unfold posixpath.join.
  destruct (Py.startswith b "/") eqn:Hb; [done|].
  apply isabs_cons in Ha as [t ->].
  destruct (_ || _); apply isabs_cons; eexists; reflexivity.
Qed.

Lemma join_abs (a b : string) :
  posixpath.isabs b = true → posixpath.join a b = b.
Proof. unfold posixpath.isabs, posixpath.join. by intros ->. Qed.

Lemma expanduser_abs (W : world) (path : string) :
  posixpath.isabs path = true → posixpath.expanduser W path = path.
Proof. by intros [t ->]%isabs_cons. Qed.

Lemma expandvars_plain (W : world) (path : string) :
  Py.contains "$" path = false → posixpath.expandvars W path = path.
Proof. unfold posixpath.expandvars. by intros ->. Qed.

(** ** The resolution of paths *)

Section Resolve.

Context (W : world).

(** What the resolution returns is normalized. *)
Lemma resolve_path_normalized (base_dir p : string) :
  posixpath.normpath (resolve_path W base_dir p) = resolve_path W base_dir p.
Proof. apply normpath_idempotent. Qed.

Lemma resolve_path_isabs (base_dir p : string) :
  posixpath.isabs base_dir = true →
  posixpath.isabs (resolve_path W base_dir p) = true.
Proof. intros Hbase. by apply normpath_isabs, join_isabs. Qed.

Lemma resolve_path_fixed (base_dir p : string) :
  posixpath.isabs p = true → posixpath.normpath p = p →
  Py.contains "$" p = false →
  resolve_path W base_dir p = p.
Proof.
  intros Habs Hnorm Hplain. unfold resolve_path.
  by rewrite expandvars_plain, expanduser_abs, join_abs.
Qed.

(** C9.  The resolution of a path that is absolute, that [normpath]
    leaves as it is and that holds no dollar sign returns that path;
    so resolving it twice is resolving it once. *)
Theorem resolve_path_idempotent (base_dir p : string) :
  posixpath.isabs p = true → posixpath.normpath p = p →
  Py.contains "$" p = false →
  resolve_path W base_dir p = p
  ∧ resolve_path W base_dir (resolve_path W base_dir p)
    = resolve_path W base_dir p.
Proof.
  intros Habs Hnorm Hplain.
  by rewrite !(resolve_path_fixed base_dir p Habs Hnorm Hplain).
Qed.

(** With an absolute base directory, every path the resolution returns
    without a dollar sign is such a path: resolving it again changes
    nothing. *)
Lemma resolve_path_settles (base_dir p : string) :
  posixpath.isabs base_dir = true →
  Py.contains "$" (resolve_path W base_dir p) = false →
  resolve_path W base_dir (resolve_path W base_dir p)
  = resolve_path W base_dir p.
Proof.
  intros Hbase Hplain.
  apply resolve_path_fixed;
    [by apply resolve_path_isabs | apply resolve_path_normalized | done].
Qed.

End Resolve.

Lemma resolve_path_idempotent_witness :
  resolve_path example_world "/work/proj" "/work/proj/lib" = "/work/proj/lib"
  ∧ resolve_path example_world "/work/proj"
      (resolve_path example_world "/work/proj" "/work/proj/lib")
    = resolve_path example_world "/work/proj" "/work/proj/lib".
Proof.
  apply (resolve_path_idempotent example_world "/work/proj" "/work/proj/lib");
    reflexivity.
Defined.

Example resolve_relative :
  resolve_path example_world "/work/proj" "~/src/../lib/./$Y" = "/home/u/lib/z".
Proof. vm_compute. reflexivity. Qed.

(** A reference that an expansion brings in is expanded by the next
    resolution only. *)
Example resolve_leaves_reference :
  resolve_path example_world "/work/proj" "$X/lib" = "/work/proj/$Y/lib"
  ∧ resolve_path example_world "/work/proj" "/work/proj/$Y/lib"
    = "/work/proj/z/lib".
Proof. vm_compute. done. Qed.

(** ** The scenarios of the spec, run *)

(** The same mark under [docmark] and [predocmark] stops the run with
    status 1. *)
Example run_same_marks :
  run example_world no_args "proj/project.md"
    (<["docmark" := ["!"]]> (<["predocmark" := ["!"]]> ∅))
  = ([docmark_error "docmark" "predocmark"], Exit 1).
Proof. vm_compute. reflexivity. Qed.

(** A bad value under [warn] ends the run with the error that names
    [warn] and the value. *)
Example run_warn_maybe :
  run example_world no_args "proj/project.md" (<["warn" := ["maybe"]]> ∅)
  = raise (ValueError (bool_value_error "warn" "maybe")).
Proof. vm_compute. reflexivity. Qed.

(** A source directory beneath the output directory stops the run with
    status 1. *)
Example run_source_in_output :
  let r := run example_world no_args "proj/project.md"
             (<["src_dir" := ["./doc/lib"]]> (<["output_dir" := ["./doc"]]> ∅)) in
  r.1 = [containment_error "/work/proj/doc/lib" "/work/proj/doc"]
  ∧ exit_status r = Some 1.
Proof. vm_compute. done. Qed.

(** A preprocessor that cannot be started and a license that is not in
    the table leave the run going, with the warning and the notice. *)
Example run_degrades :
  let r := run example_world no_args "proj/project.md"
             (<["preprocessor" := ["gfortran -E"]]>
                (<["license" := ["proprietary"]]> ∅)) in
  r.1 = probe_warning ["gfortran"; "-E"] "[Errno 2] No such file or directory"
        ++ [license_notice "license" "proprietary"]
  ∧ exit_status r = None
  ∧ match r.2 with
    | Ret (pd, _) =>
        pd !! "preprocess" = Some (VStr "false")
        ∧ pd !! "license" = Some (VStr "proprietary")
        ∧ pd !! "doc_license" = Some (VStr "")
    | _ => False
    end.
Proof. vm_compute. done. Qed.

(** * Further properties of [initialize] *)

(** ** What a stage that returns has done *)

Lemma for_each_Ret_nil {A S} (body : S → A → M S) (s s' : S) out :
  for_each body [] s = (out, Ret s') → out = [] ∧ s' = s.
Proof. by intros [= <- <-]. Qed.

Lemma for_each_Ret_cons {A S} (body : S → A → M S) (x : A) (l : list A)
    (s s' : S) out :
  for_each body (x :: l) s = (out, Ret s') →
  ∃ out1 s1 out2,
    body s x = (out1, Ret s1) ∧ for_each body l s1 = (out2, Ret s')
    ∧ out = out1 ++ out2.
Proof. cbn [for_each]. apply bind_Ret_inv. Qed.

(** A loop whose turn for [var] changes the entry under [var] alone
    changes the entries under its variables, each from the entry the
    loop found. *)
Lemma for_each_pointwise
    (body : gmap string value → string → M (gmap string value))
    (upd : value → value) (vars : list string) :
  (∀ pd var out pd', body pd var = (out, Ret pd') →
     out = []
     ∧ ∀ k, pd' !! k = if decide (k = var) then upd <$> pd !! k else pd !! k) →
  NoDup vars →
  ∀ pd out pd', for_each body vars pd = (out, Ret pd') →
    out = []
    ∧ ∀ k, pd' !! k = if decide (k ∈ vars) then upd <$> pd !! k else pd !! k.
Proof.
  intros Hbody. induction vars as [|var vars IH]; intros Hnd pd out pd' Hrun.
  - apply for_each_Ret_nil in Hrun as [-> ->]. split; [done|].
    intros k. by rewrite decide_False by apply not_elem_of_nil.
  - apply NoDup_cons in Hnd as [Hvar Hnd].
    apply for_each_Ret_cons in Hrun as (out1 & pd1 & out2 & H1 & H2 & ->).
    apply Hbody in H1 as [-> H1]. apply (IH Hnd) in H2 as [-> H2].
    split; [done|]. intros k. rewrite H2, H1.
    destruct (decide (k = var)) as [->|Hne].
    + rewrite (decide_False (P := var ∈ vars)) by done.
      by rewrite decide_True by apply list_elem_of_here.
    + destruct (decide (k ∈ vars)) as [Hin|Hnin].
      * by rewrite decide_True by by apply list_elem_of_further.
      * rewrite decide_False; [done|].
        by intros [?|?]%elem_of_cons.
Qed.

Section Stages.

Context (W : world).

Lemma resolve_list_var_inv (base_dir : string) (pd pd' : gmap string value)
    (var : string) out :
  resolve_list_var W base_dir pd var = (out, Ret pd') →
  out = []
  ∧ ∀ k, pd' !! k = if decide (k = var)
                    then resolved_list W base_dir <$> pd !! k else pd !! k.
Proof.
  unfold resolve_list_var. destruct (pd !! var) as [v|] eqn:Hv.
  - intros (? & l & ? & [-> ->]%as_list_inv & [= <- <-] & ->)%bind_Ret_inv.
    split; [done|]. intros k. destruct (decide (k = var)) as [->|Hne].
    + by rewrite lookup_insert_eq, Hv.
    + by rewrite lookup_insert_ne.
  - intros [= <- <-]. split; [done|]. intros k.
    destruct (decide (k = var)) as [->|]; [by rewrite Hv|done].
Qed.

Lemma resolve_scalar_var_inv (base_dir : string) (pd pd' : gmap string value)
    (var : string) out :
  resolve_scalar_var W base_dir pd var = (out, Ret pd') →
  out = []
  ∧ ∀ k, pd' !! k = if decide (k = var)
                    then resolved_scalar W base_dir <$> pd !! k else pd !! k.
Proof.
  unfold resolve_scalar_var.
  intros (? & v & ? & [-> Hv]%getitem_inv & Hrest & ->)%bind_Ret_inv.
  destruct v as [| | |p| |]; try done;
    try (injection Hrest as <- <-; split; [done|]; intros k;
         destruct (decide (k = var)) as [->|]; [by rewrite Hv|done]).
  unfold as_str in Hrest. rewrite bind_ret_l in Hrest.
  injection Hrest as <- <-.
  split; [done|]. intros k. destruct (decide (k = var)) as [->|Hne].
  - by rewrite lookup_insert_eq, Hv.
  - by rewrite lookup_insert_ne.
Qed.

Lemma resolve_favicon_inv (base_dir : string) (pd pd' : gmap string value) out :
  resolve_favicon W base_dir pd = (out, Ret pd') →
  out = []
  ∧ ∀ k, pd' !! k = if decide (k = "favicon")
                    then resolved_favicon W base_dir <$> pd !! k else pd !! k.
Proof.
  unfold resolve_favicon.
  intros (? & v & ? & [-> Hv]%getitem_inv & Hrest & ->)%bind_Ret_inv.
  apply bind_Ret_inv in Hrest as (? & p & ? & [-> ->]%as_str_inv & Hrest & ->).
  change (defaults_get (defaults W) "favicon") with (Some (VStr "default-icon"))
    in Hrest.
  destruct (decide (Py.strip p = "default-icon")) as [Hp|Hp].
  - rewrite bool_decide_eq_true_2 in Hrest by by rewrite Hp.
    injection Hrest as <- <-. split; [done|]. intros k.
    destruct (decide (k = "favicon")) as [->|]; [|done].
    rewrite Hv. simpl. by rewrite bool_decide_eq_true_2.
  - rewrite bool_decide_eq_false_2 in Hrest by (by intros [= ?]).
    injection Hrest as <- <-. split; [done|]. intros k.
    destruct (decide (k = "favicon")) as [->|Hne].
    + rewrite lookup_insert_eq, Hv. simpl. by rewrite bool_decide_eq_false_2.
    + by rewrite lookup_insert_ne.
Qed.

(** The resolution of paths changes each entry by itself. *)
Lemma resolve_paths_inv (base_dir : string) (pd pd' : gmap string value) out :
  resolve_paths W base_dir pd = (out, Ret pd') →
  out = [] ∧ ∀ k, pd' !! k = resolved_entry W base_dir k <$> pd !! k.
Proof.
  unfold resolve_paths.
  intros (? & pd1 & ? & H1 & Hrest & ->)%bind_Ret_inv.
  apply bind_Ret_inv in Hrest as (? & pd2 & ? & H2 & H3 & ->).
  apply (for_each_pointwise _ (resolved_list W base_dir) list_path_vars)
    in H1 as [-> H1];
    [|intros ????; apply resolve_list_var_inv|compute_done].
  apply (for_each_pointwise _ (resolved_scalar W base_dir) scalar_path_vars)
    in H2 as [-> H2];
    [|intros ????; apply resolve_scalar_var_inv|compute_done].
  apply resolve_favicon_inv in H3 as [-> H3].
  split; [done|]. intros k. rewrite H3, H2, H1. unfold resolved_entry.
  destruct (decide (k ∈ list_path_vars)) as [Hl|Hl].
  - rewrite (bool_decide_eq_true_2 _ Hl).
    assert ((k ∉ scalar_path_vars) ∧ (k ≠ "favicon")) as [Hs Hf].
    { apply list_elem_of_In in Hl. simpl in Hl.
      destruct Hl as [<-|[<-|[<-|[]]]]; compute_done. }
    by rewrite (decide_False (P := k ∈ scalar_path_vars)), decide_False.
  - rewrite (bool_decide_eq_false_2 _ Hl).
    destruct (decide (k ∈ scalar_path_vars)) as [Hs|Hs].
    + rewrite (bool_decide_eq_true_2 _ Hs).
      assert (k ≠ "favicon") as Hf.
      { apply list_elem_of_In in Hs. simpl in Hs.
        destruct Hs as [<-|[<-|[<-|[<-|[<-|[<-|[]]]]]]]; compute_done. }
      by rewrite decide_False.
    + rewrite (bool_decide_eq_false_2 _ Hs).
      destruct (decide (k = "favicon")) as [->|Hf].
      * by destruct (pd !! "favicon").
      * rewrite (bool_decide_eq_false_2 _ Hf). by destruct (pd !! k).
Qed.

Lemma derive_fields_inv (pd pd' : gmap string value) out :
  derive_fields W pd = (out, Ret pd') →
  out = []
  ∧ ∃ display creation_date project_url extensions fpp_extensions
      extra_filetypes,
      pd !! "display" = Some (VList display)
      ∧ pd !! "creation_date" = Some (VStr creation_date)
      ∧ pd !! "project_url" = Some project_url
      ∧ pd !! "extensions" = Some (VList extensions)
      ∧ pd !! "fpp_extensions" = Some (VList fpp_extensions)
      ∧ pd !! "extra_filetypes" = Some (VList extra_filetypes)
      ∧ pd' = derived W pd display creation_date project_url extensions
                fpp_extensions extra_filetypes.
Proof.
  unfold derive_fields. intros Hrun.
  apply bind_Ret_inv in Hrun as (? & display & ? & H1 & Hrun & ->).
  apply bind_Ret_inv in H1 as (? & ? & ? & [-> H1]%getitem_inv
                                 & [-> ->]%as_list_inv & ->).
  apply bind_Ret_inv in Hrun as (? & creation_date & ? & H2 & Hrun & ->).
  apply bind_Ret_inv in H2 as (? & ? & ? & [-> H2]%getitem_inv
                                 & [-> ->]%as_str_inv & ->).
  apply bind_Ret_inv in Hrun as (? & project_url & ? & [-> H3]%getitem_inv
                                   & Hrun & ->).
  apply bind_Ret_inv in Hrun as (? & extensions & ? & H4 & Hrun & ->).
  apply bind_Ret_inv in H4 as (? & ? & ? & [-> H4]%getitem_inv
                                 & [-> ->]%as_list_inv & ->).
  apply bind_Ret_inv in Hrun as (? & fpp_extensions & ? & H5 & Hrun & ->).
  apply bind_Ret_inv in H5 as (? & ? & ? & [-> H5]%getitem_inv
                                 & [-> ->]%as_list_inv & ->).
  apply bind_Ret_inv in Hrun as (? & extra_filetypes & ? & H6 & Hrun & ->).
  apply bind_Ret_inv in H6 as (? & ? & ? & [-> H6]%getitem_inv
                                 & [-> ->]%as_list_inv & ->).
  injection Hrun as <- <-.
  repeat rewrite lookup_insert_ne in H2 by done.
  repeat rewrite lookup_insert_ne in H3 by done.
  repeat rewrite lookup_insert_ne in H4 by done.
  repeat rewrite lookup_insert_ne in H5 by done.
  repeat rewrite lookup_insert_ne in H6 by done.
  split; [done|].
  by exists display, creation_date, project_url, extensions, fpp_extensions,
            extra_filetypes.
Qed.

Lemma add_gitter_sidecar_inv (pd : gmap string value)
    (proj_docs docs : string) out :
  add_gitter_sidecar pd proj_docs = (out, Ret docs) →
  out = []
  ∧ ((pd !! "gitter_sidecar" = Some VNone ∧ docs = proj_docs)
     ∨ ∃ room, pd !! "gitter_sidecar" = Some (VStr room)
               ∧ docs = proj_docs +:+ gitter_script (Py.strip room)).
Proof.
  unfold add_gitter_sidecar.
  intros (? & v & ? & [-> Hv]%getitem_inv & Hrest & ->)%bind_Ret_inv.
  destruct v as [| | |room| |]; try done.
  - injection Hrest as <- <-. split; [done|]. by left.
  - unfold as_str in Hrest. rewrite bind_ret_l in Hrest.
    injection Hrest as <- <-. split; [done|]. right. by exists room.
Qed.

(** The three ways the probe returns: not asked for, the command
    could not be started, the command was started. *)
Lemma probe_preprocessor_inv (pd pd' : gmap string value) out :
  probe_preprocessor W pd = (out, Ret pd') →
  ∃ preprocess, pd !! "preprocess" = Some preprocess
    ∧ ((truthy preprocess = false ∧ out = [] ∧ pd' = pd)
       ∨ (truthy preprocess = true
          ∧ ∃ command, preprocessor_command pd = ret command
              ∧ ((∃ ex, popen W command = SpawnOSError ex
                        ∧ out = probe_warning command ex
                        ∧ pd' = <["preprocess" := VStr "false"]> pd)
                 ∨ (∃ status, popen W command = Spawned status
                      ∧ out = []
                      ∧ pd' = <["preprocessor" := VList command]>
                                (<["preprocess" := VStr "true"]> pd))))).
Proof.
  unfold probe_preprocessor.
  intros (? & preprocess & ? & [-> Hv]%getitem_inv & Hrest & ->)%bind_Ret_inv.
  exists preprocess. split; [done|].
  destruct (truthy preprocess); [right|left].
  - split; [done|].
    apply bind_Ret_inv in Hrest as (out1 & command & ? & Hcmd & Hrest & ->).
    assert (out1 = []) as ->.
    { unfold preprocessor_command in Hcmd.
      apply bind_Ret_inv in Hcmd as (? & v & ? & [-> _]%getitem_inv & Hcmd & ->).
      destruct (truthy v); [|by injection Hcmd].
      apply bind_Ret_inv in Hcmd as (? & ? & ? & [-> _]%as_str_inv & Hcmd & ->).
      by injection Hcmd. }
    exists command. split; [done|].
    destruct (popen W command) as [status|ex|ex]; [right|left|done].
    + injection Hrest as <- <-. by exists status.
    + rewrite print_lines in Hrest. unfold mbind, M_bind, ret, mret, M_ret in Hrest.
      rewrite app_nil_r in Hrest. injection Hrest as <- <-. by exists ex.
  - by injection Hrest as <- <-.
Qed.

Lemma resolve_license_inv (key : string) (pd pd' : gmap string value) out :
  resolve_license key pd = (out, Ret pd') →
  ∃ name, pd !! key = Some (VStr name)
    ∧ ((lookup_license LICENSES (Py.lower name) = None
        ∧ out = [license_notice key name] ∧ pd' = pd)
       ∨ ∃ markup, lookup_license LICENSES (Py.lower name) = Some markup
                   ∧ out = [] ∧ pd' = <[key := VStr markup]> pd).
Proof.
  unfold resolve_license.
  intros (? & name & ? & Hname & Hrest & ->)%bind_Ret_inv.
  apply bind_Ret_inv in Hname as (? & ? & ? & [-> Hv]%getitem_inv
                                    & [-> ->]%as_str_inv & ->).
  exists name. split; [done|].
  destruct (lookup_license LICENSES (Py.lower name)) as [markup|].
  - injection Hrest as <- <-. right. by exists markup.
  - injection Hrest as <- <-. by left.
Qed.

End Stages.

Section Checks.

Context (split_path : string → list string).

Lemma check_src_dirs_inv (pd : gmap string value) (outdir : string) out u :
  pd !! "output_dir" = Some (VStr outdir) →
  check_src_dirs split_path pd = (out, Ret u) →
  out = []
  ∧ ∃ dirs, pd !! "src_dir" = Some (VList dirs)
      ∧ ∀ d, d ∈ dirs → ¬ split_path outdir `prefix_of` split_path d.
Proof.
  intros Hout Hrun.
  assert (∃ dirs, pd !! "src_dir" = Some (VList dirs)) as [dirs Hdirs].
  { unfold check_src_dirs in Hrun.
    apply bind_Ret_inv in Hrun as (? & dirs & ? & Hsrc & _).
    apply bind_Ret_inv in Hsrc as (? & ? & ? & [_ Hsrc]%getitem_inv
                                     & [_ ->]%as_list_inv & _).
    by exists dirs. }
  rewrite (check_src_dirs_eq _ _ _ _ Hout Hdirs) in Hrun.
  destruct (find _ dirs) as [d|] eqn:Hfind; [done|].
  injection Hrun as <- _. split; [done|]. exists dirs. split; [done|].
  intros d Hd Hprefix. apply list_elem_of_In in Hd.
  pose proof (find_none _ _ Hfind _ Hd) as Hwalk. simpl in Hwalk.
  apply walk_prefix in Hprefix. congruence.
Qed.

Lemma check_src_dir_loop_silent (pd : gmap string value)
    (dirs : list string) out u :
  for_each (check_src_dir split_path pd) dirs tt = (out, Ret u) → out = [].
Proof.
  revert out. induction dirs as [|d dirs IH]; intros out Hloop.
  - by apply for_each_Ret_nil in Hloop as [-> _].
  - apply for_each_Ret_cons in Hloop as (o1 & [] & o2 & Hd & Hloop & ->).
    apply IH in Hloop as ->. unfold check_src_dir in Hd.
    apply bind_Ret_inv in Hd as (? & outdir & ? & Hout & Hd & ->).
    apply bind_Ret_inv in Hout as (? & ? & ? & [-> _]%getitem_inv
                                     & [-> _]%as_str_inv & ->).
    destruct (walk _ _); [done|]. by injection Hd as <-.
Qed.

Lemma check_src_dirs_silent (pd : gmap string value) out u :
  check_src_dirs split_path pd = (out, Ret u) → out = [].
Proof.
  unfold check_src_dirs.
  intros (? & dirs & ? & Hsrc & Hloop & ->)%bind_Ret_inv.
  apply bind_Ret_inv in Hsrc as (? & ? & ? & [-> _]%getitem_inv
                                   & [-> _]%as_list_inv & ->).
  by apply check_src_dir_loop_silent in Hloop as ->.
Qed.

End Checks.

Lemma check_docmark_pair_inv (pd : gmap string value) (pr : string * string)
    out u :
  check_docmark_pair pd tt pr = (out, Ret u) →
  out = [] ∧ colliding pd pr = false.
Proof.
  unfold check_docmark_pair, same_mark, colliding.
  intros (? & same & ? & Hsame & Hrest & ->)%bind_Ret_inv.
  apply bind_Ret_inv in Hsame as (? & va & ? & [-> Ha]%getitem_inv & Hsame & ->).
  apply bind_Ret_inv in Hsame as (? & vb & ? & [-> Hb]%getitem_inv & Hsame & ->).
  injection Hsame as <- <-. rewrite Ha, Hb.
  destruct (py_eq va vb && negb (py_eq vb (VStr ""))); [done|].
  by injection Hrest as <-.
Qed.

Lemma check_docmark_loop_inv (pd : gmap string value)
    (pairs : list (string * string)) out u :
  for_each (check_docmark_pair pd) pairs tt = (out, Ret u) →
  out = [] ∧ ∀ pr, pr ∈ pairs → colliding pd pr = false.
Proof.
  revert out. induction pairs as [|pr pairs IH]; intros out Hrun.
  - apply for_each_Ret_nil in Hrun as [-> _]. split; [done|].
    by intros ? ?%elem_of_nil.
  - apply for_each_Ret_cons in Hrun as (? & [] & ? & H1 & H2 & ->).
    apply check_docmark_pair_inv in H1 as [-> H1].
    apply IH in H2 as [-> H2]. split; [done|].
    intros pr' [->|Hin]%elem_of_cons; [done|by apply H2].
Qed.

(** When the docmark check returns, no two mark options collide. *)
Lemma check_docmarks_inv (pd : gmap string value) out u :
  check_docmarks pd = (out, Ret u) →
  out = [] ∧ ¬ ∃ a b, marks_collide pd a b.
Proof.
  intros [-> Hpairs]%check_docmark_loop_inv. split; [done|].
  intros (a & b & Ha & Hb & Hab & v & Hv & Hva & Hvb).
  assert (colliding pd (a, b) = true ∧ colliding pd (b, a) = true) as [H1 H2].
  { unfold colliding. simpl. rewrite Hva, Hvb. unfold py_eq.
    rewrite bool_decide_eq_true_2 by done.
    rewrite bool_decide_eq_false_2 by (by intros [= ->]). done. }
  destruct (docmark_pairs_cover a b Ha Hb Hab) as [Hin|Hin];
    apply Hpairs in Hin; congruence.
Qed.

Section Whole.

Context (str_to_bool : string → option bool).
Context (split_path : string → list string).
Context (W : world).

(** The stages a run that returns went through. *)
Lemma initialize_inv (args : namespace) (project_file : string)
    (Meta : gmap string (list string)) (proj_docs : string) out
    (pd : gmap string value) (docs : string) :
  initialize str_to_bool split_path W args project_file Meta proj_docs
    = (out, Ret (pd, docs)) →
  let base_dir := posixpath.abspath W (posixpath.dirname project_file) in
  ∃ pd1 pd2 pd3 pd4 pd5 out4 out5 out6,
    merge_options str_to_bool W args (VList <$> Meta) = ([], Ret pd1)
    ∧ resolve_paths W base_dir (<["base_dir" := VStr base_dir]> pd1)
      = ([], Ret pd2)
    ∧ derive_fields W pd2 = ([], Ret pd3)
    ∧ check_src_dirs split_path pd3 = ([], Ret tt)
    ∧ check_docmarks pd3 = ([], Ret tt)
    ∧ add_gitter_sidecar pd3 proj_docs = ([], Ret docs)
    ∧ probe_preprocessor W pd3 = (out4, Ret pd4)
    ∧ resolve_license "license" pd4 = (out5, Ret pd5)
    ∧ resolve_license "doc_license" pd5 = (out6, Ret pd)
    ∧ out = out4 ++ out5 ++ out6.
Proof.
  intros Hrun base_dir. unfold initialize in Hrun.
  apply bind_Ret_inv in Hrun as (o1 & pd1 & ? & H1 & Hrun & ->).
  apply bind_Ret_inv in Hrun as (o2 & pd2 & ? & H2 & Hrun & ->).
  apply bind_Ret_inv in Hrun as (o3 & pd3 & ? & H3 & Hrun & ->).
  apply bind_Ret_inv in Hrun as (o4 & [] & ? & H4 & Hrun & ->).
  apply bind_Ret_inv in Hrun as (o5 & [] & ? & H5 & Hrun & ->).
  apply bind_Ret_inv in Hrun as (o6 & docs' & ? & H6 & Hrun & ->).
  apply bind_Ret_inv in Hrun as (out4 & pd4 & ? & H7 & Hrun & ->).
  apply bind_Ret_inv in Hrun as (out5 & pd5 & ? & H8 & Hrun & ->).
  apply bind_Ret_inv in Hrun as (out6 & pd6 & ? & H9 & Hrun & ->).
  injection Hrun as <- <- <-.
  destruct (merge_options_returns _ _ _ _ _ _ H1) as [-> _].
  destruct (resolve_paths_inv _ _ _ _ _ H2) as [-> _].
  destruct (derive_fields_inv _ _ _ _ H3) as [-> _].
  assert (o5 = []) as -> by (by apply check_docmarks_inv in H5 as [-> _]).
  assert (o6 = []) as -> by (by apply add_gitter_sidecar_inv in H6 as [-> _]).
  assert (o4 = []) as -> by (by apply check_src_dirs_silent in H4).
  exists pd1, pd2, pd3, pd4, pd5, out4, out5, out6.
  rewrite !app_nil_r. simpl. by rewrite app_assoc.
Qed.

End Whole.

(** ** The shapes the merge gives *)

Lemma defaults_get_elem (table : list (string * value)) (key : string)
    (v : value) :
  defaults_get table key = Some v → (key, v) ∈ table.
Proof.
  induction table as [|[k d] table IH]; simpl; [done|].
  case_bool_decide as Hk.
  - intros [= ->]. subst. apply list_elem_of_here.
  - intros Hv. apply list_elem_of_further. by apply IH.
Qed.

Lemma has_shape_list (v : value) : has_shape SList v → ∃ l, v = VList l.
Proof. destruct v; try done. eauto. Qed.

Lemma has_shape_str (v : value) : has_shape SStr v → ∃ s, v = VStr s.
Proof. destruct v; try done. eauto. Qed.

Lemma has_shape_opt_str (v : value) :
  has_shape SOptStr v → v = VNone ∨ ∃ s, v = VStr s.
Proof. destruct v; try done; eauto. Qed.

Lemma has_shape_bool (v : value) : has_shape SBool v → ∃ b, v = VBool b.
Proof. destruct v; try done. eauto. Qed.

Section Shapes.

Context (str_to_bool : string → option bool).
Context (W : world).

(** What the merge leaves has the shapes the later stages need,
    whatever the command line and the metadata hold. *)
Lemma merged_shaped (args : namespace) (Meta : gmap string (list string))
    out (pd' : gmap string value) :
  merge_options str_to_bool W args (VList <$> Meta) = (out, Ret pd') →
  shaped config_shapes pd'.
Proof.
  intros Hrun.
  destruct (merge_options_returns _ _ _ _ _ _ Hrun) as [_ Hopts].
  intros k s Hin. apply list_elem_of_In in Hin. simpl in Hin.
  destruct args.
  repeat (destruct Hin as [[= <- <-]|Hin];
    [ lazymatch goal with
      | |- ∃ v, _ !! ?k = _ ∧ _ =>
          edestruct (Hopts k _ (defaults_get_elem (defaults W) k _ eq_refl))
            as (v & Hv & Hm)
      end;
      exists v; split; [exact Hv|];
      unfold by_precedence in Hm;
      lazymatch type of Hm with
      | context [getattr ?a ?key] =>
          let g := eval vm_compute in (getattr a key) in
          change (getattr a key) with g in Hm
      end;
      cbn in Hm;
      repeat (match type of Hm with
              | context [match ?x with _ => _ end] => is_var x; destruct x
              | context [Meta !! ?key] => destruct (Meta !! key)
              end; cbn in Hm);
      try (by injection Hm as <-);
      try (apply bind_Ret_inv in Hm as (? & ? & ? & _ & [= _ <-] & _); done)
    | ]).
  done.
Qed.

End Shapes.

(** ** Stages that cannot fail on entries of the right shapes *)

Lemma bind_Ret {A B} (out : list text) (a : A) (f : A → M B) :
  ((out, Ret a) ≫= f) = (out ++ (f a).1, (f a).2).
Proof. unfold mbind, M_bind. by destruct (f a). Qed.

Lemma shaped_weaken (table table' : list (string * shape))
    (pd : gmap string value) :
  table' ⊆ table → shaped table pd → shaped table' pd.
Proof. intros Hsub Hpd k s Hin. apply Hpd, Hsub, Hin. Qed.

Lemma shaped_ext (table : list (string * shape)) (pd pd' : gmap string value) :
  (∀ k s, (k, s) ∈ table → pd' !! k = pd !! k) →
  shaped table pd → shaped table pd'.
Proof.
  intros Hsame Hpd k s Hin. rewrite (Hsame k s Hin). by apply Hpd.
Qed.

(** A loop whose turn for [var] returns when the entry under [var] is
    as [cond] asks, and changes no other entry, returns when the
    entries under all its variables are so. *)
Lemma for_each_returns
    (body : gmap string value → string → M (gmap string value))
    (cond : option value → Prop) (vars : list string) :
  (∀ pd var, cond (pd !! var) →
     ∃ pd', body pd var = ret pd' ∧ ∀ k, k ≠ var → pd' !! k = pd !! k) →
  NoDup vars →
  ∀ pd, (∀ var, var ∈ vars → cond (pd !! var)) →
    ∃ pd', for_each body vars pd = ret pd'.
Proof.
  intros Hbody. induction vars as [|var vars IH]; intros Hnd pd Hcond.
  - by exists pd.
  - apply NoDup_cons in Hnd as [Hvar Hnd].
    destruct (Hbody pd var) as (pd1 & H1 & Hframe);
      [apply Hcond, list_elem_of_here|].
    destruct (IH Hnd pd1) as [pd' H2].
    { intros var' Hin. rewrite Hframe; [by apply Hcond, list_elem_of_further|].
      by intros ->. }
    exists pd'. cbn [for_each]. by rewrite H1, bind_ret_l.
Qed.

Section Forward.

Context (W : world).

Lemma resolve_list_var_returns (base_dir : string) (pd : gmap string value)
    (var : string) :
  (∀ v, pd !! var = Some v → has_shape SList v) →
  ∃ pd', resolve_list_var W base_dir pd var = ret pd'
         ∧ ∀ k, k ≠ var → pd' !! k = pd !! k.
Proof.
  intros Hv. unfold resolve_list_var. destruct (pd !! var) as [v|]; [|eauto].
  destruct (has_shape_list v (Hv v eq_refl)) as [l ->].
  unfold as_list. rewrite bind_ret_l. eexists. split; [done|].
  intros k Hk. by rewrite lookup_insert_ne.
Qed.

Lemma resolve_scalar_var_returns (base_dir : string) (pd : gmap string value)
    (var : string) :
  (∃ v, pd !! var = Some v ∧ has_shape SOptStr v) →
  ∃ pd', resolve_scalar_var W base_dir pd var = ret pd'
         ∧ ∀ k, k ≠ var → pd' !! k = pd !! k.
Proof.
  intros (v & Hv & Hs). unfold resolve_scalar_var.
  rewrite (getitem_Some _ _ _ Hv), bind_ret_l.
  destruct (has_shape_opt_str v Hs) as [->|[p ->]]; [eauto|].
  unfold as_str. rewrite bind_ret_l. eexists. split; [done|].
  intros k Hk. by rewrite lookup_insert_ne.
Qed.

Lemma resolved_entry_shape (base_dir key : string) (s : shape) (v : value) :
  has_shape s v → has_shape s (resolved_entry W base_dir key v).
Proof.
  unfold resolved_entry, resolved_list, resolved_scalar, resolved_favicon.
  destruct s, v; try done; repeat case_bool_decide; done.
Qed.

(** The resolution of paths returns on a merged configuration, and
    keeps the shapes. *)
Lemma resolve_paths_returns (base_dir : string) (pd : gmap string value) :
  shaped config_shapes pd →
  ∃ pd', resolve_paths W base_dir pd = ret pd' ∧ shaped config_shapes pd'.
Proof.
  intros Hpd.
  assert (∃ pd', resolve_paths W base_dir pd = ret pd') as [pd' Hrun].
  { unfold resolve_paths.
    destruct (for_each_returns (resolve_list_var W base_dir)
                (λ o, ∀ v, o = Some v → has_shape SList v)
                ["src_dir"; "exclude_dir"; "include"]) with (pd := pd)
      as [pd1 H1].
    { intros ???. by apply resolve_list_var_returns. }
    { compute_done. }
    { intros var Hvar v Hv.
      destruct (Hpd var SList) as (v' & Hv' & Hs).
      - apply list_elem_of_In in Hvar. simpl in Hvar.
        destruct Hvar as [<-|[<-|[<-|[]]]]; compute_done.
      - congruence. }
    rewrite H1, bind_ret_l.
    assert (shaped config_shapes pd1) as Hpd1.
    { intros k s Hin. destruct (Hpd k s Hin) as (v & Hv & Hs).
      assert (NoDup list_path_vars) as Hnd by compute_done.
      destruct (for_each_pointwise _ (resolved_list W base_dir) list_path_vars
                  (λ pd var out pd', resolve_list_var_inv W base_dir pd pd' var out)
                  Hnd _ _ _ H1) as [_ Hk].
      rewrite Hk, Hv. destruct (decide _); [|eauto].
      eexists. split; [done|]. by destruct s, v. }
    destruct (for_each_returns (resolve_scalar_var W base_dir)
                (λ o, ∃ v, o = Some v ∧ has_shape SOptStr v)
                ["page_dir"; "output_dir"; "graph_dir"; "media_dir"; "css";
                 "mathjax_config"]) with (pd := pd1)
      as [pd2 H2].
    { intros ???. by apply resolve_scalar_var_returns. }
    { compute_done. }
    { intros var Hvar. apply list_elem_of_In in Hvar. simpl in Hvar.
      destruct Hvar as [<-|[<-|[<-|[<-|[<-|[<-|[]]]]]]];
        try (apply Hpd1; compute_done).
      destruct (Hpd1 "output_dir" SStr) as (v & Hv & Hs); [compute_done|].
      exists v. split; [done|]. by destruct v. }
    rewrite H2, bind_ret_l.
    assert (NoDup scalar_path_vars) as Hnd by compute_done.
    destruct (for_each_pointwise _ (resolved_scalar W base_dir)
                scalar_path_vars
                (λ pd var out pd', resolve_scalar_var_inv W base_dir pd pd' var out)
                Hnd _ _ _ H2) as [_ Hk].
    destruct (Hpd1 "favicon" SStr) as (v & Hv & Hs); [compute_done|].
    destruct (has_shape_str v Hs) as [p ->].
    unfold resolve_favicon.
    rewrite (getitem_Some pd2 "favicon" (VStr p)), bind_ret_l
      by (by rewrite Hk, decide_False by compute_done).
    unfold as_str. rewrite bind_ret_l. destruct (negb _); eauto. }
  exists pd'. split; [done|].
  destruct (resolve_paths_inv _ _ _ _ _ Hrun) as [_ Hk].
  intros k s Hin. destruct (Hpd k s Hin) as (v & Hv & Hs).
  rewrite Hk, Hv. eexists. split; [done|]. by apply resolved_entry_shape.
Qed.

(** [derive_fields] returns on a merged configuration, and leaves
    what the later stages read. *)
Lemma derive_fields_returns (pd : gmap string value) :
  shaped config_shapes pd →
  ∃ pd', derive_fields W pd = ret pd' ∧ shaped late_shapes pd'.
Proof.
  intros Hpd.
  destruct (Hpd "display" SList) as (? & H1 & [display ->]%has_shape_list);
    [compute_done|].
  destruct (Hpd "creation_date" SStr) as (? & H2 & [date ->]%has_shape_str);
    [compute_done|].
  destruct (Hpd "project_url" SStr) as (url & H3 & _); [compute_done|].
  destruct (Hpd "extensions" SList) as (? & H4 & [exts ->]%has_shape_list);
    [compute_done|].
  destruct (Hpd "fpp_extensions" SList) as (? & H5 & [fpp ->]%has_shape_list);
    [compute_done|].
  destruct (Hpd "extra_filetypes" SList) as (? & H6 & [eft ->]%has_shape_list);
    [compute_done|].
  exists (derived W pd display date url exts fpp eft). split.
  - unfold derive_fields, as_list, as_str.
    rewrite (getitem_Some _ _ _ H1), !bind_ret_l.
    rewrite (getitem_Some _ "creation_date" (VStr date)), !bind_ret_l
      by (by rewrite lookup_insert_ne).
    rewrite (getitem_Some _ "project_url" url), !bind_ret_l
      by (by rewrite !lookup_insert_ne).
    rewrite (getitem_Some _ "extensions" (VList exts)), !bind_ret_l
      by (by rewrite !lookup_insert_ne).
    rewrite (getitem_Some _ "fpp_extensions" (VList fpp)), !bind_ret_l
      by (by rewrite !lookup_insert_ne).
    rewrite (getitem_Some _ "extra_filetypes" (VList eft)), !bind_ret_l
      by (by rewrite !lookup_insert_ne).
    done.
  - apply (shaped_ext _ pd).
    + intros k s Hin. unfold derived. apply list_elem_of_In in Hin.
      simpl in Hin.
      repeat (destruct Hin as [[= <- <-]|Hin];
              [by rewrite !lookup_insert_ne by done|]).
      done.
    + apply (shaped_weaken config_shapes); [|done].
      intros [k s] Hin. apply list_elem_of_In in Hin. simpl in Hin.
      repeat (destruct Hin as [<-|Hin]; [compute_done|]). done.
Qed.

Lemma add_gitter_sidecar_returns (pd : gmap string value) (proj_docs : string) :
  shaped late_shapes pd → ∃ docs, add_gitter_sidecar pd proj_docs = ret docs.
Proof.
  intros Hpd.
  destruct (Hpd "gitter_sidecar" SOptStr) as (v & Hv & Hs); [compute_done|].
  unfold add_gitter_sidecar. rewrite (getitem_Some _ _ _ Hv), bind_ret_l.
  destruct (has_shape_opt_str v Hs) as [->|[room ->]]; [eauto|].
  unfold as_str. rewrite bind_ret_l. eauto.
Qed.

(** The probe returns, or raises what the start of the command raised
    when that is not an [OSError]. *)
Lemma probe_preprocessor_outcome (pd : gmap string value) :
  shaped late_shapes pd →
  (∃ out pd', probe_preprocessor W pd = (out, Ret pd')
              ∧ ∀ k, k ≠ "preprocess" → k ≠ "preprocessor" →
                     pd' !! k = pd !! k)
  ∨ ∃ command ex, popen W command = SpawnOtherError ex
                  ∧ probe_preprocessor W pd = raise (OtherError ex).
Proof.
  intros Hpd.
  destruct (Hpd "preprocess" SBool) as (? & H1 & [b ->]%has_shape_bool);
    [compute_done|].
  destruct (Hpd "preprocessor" SStr) as (? & H2 & [s ->]%has_shape_str);
    [compute_done|].
  unfold probe_preprocessor. rewrite (getitem_Some _ _ _ H1), bind_ret_l.
  cbn [truthy]. destruct b; [|left; by eexists _, _].
  assert (∃ command, preprocessor_command pd = ret command) as [command ->].
  { unfold preprocessor_command. rewrite (getitem_Some _ _ _ H2), bind_ret_l.
    destruct (truthy (VStr s)); [|eauto].
    unfold as_str. rewrite !bind_ret_l. eauto. }
  rewrite bind_ret_l. destruct (popen W command) as [status|ex|ex] eqn:Hp.
  - left. eexists _, _. split; [done|]. intros k ??.
    by rewrite !lookup_insert_ne.
  - left. rewrite print_lines, bind_Ret. eexists _, _. split; [done|].
    intros k ??. simpl. by rewrite lookup_insert_ne.
  - right. by exists command, ex.
Qed.

Lemma resolve_license_returns (key name : string) (pd : gmap string value) :
  pd !! key = Some (VStr name) →
  ∃ out pd', resolve_license key pd = (out, Ret pd')
             ∧ ∀ k, k ≠ key → pd' !! k = pd !! k.
Proof.
  intros Hname. unfold resolve_license, as_str.
  rewrite (getitem_Some _ _ _ Hname), !bind_ret_l.
  destruct (lookup_license _ _).
  - eexists _, _. split; [done|]. intros k ?. by rewrite lookup_insert_ne.
  - rewrite bind_print. by eexists _, _.
Qed.

End Forward.

(** The containment check returns or stops the program with status 1,
    after the diagnostic for the first source directory that lies in
    the output directory. *)
Lemma check_src_dirs_outcome (split_path : string → list string)
    (pd : gmap string value) :
  shaped late_shapes pd →
  check_src_dirs split_path pd = ret tt
  ∨ ∃ d outdir, check_src_dirs split_path pd
                = ([containment_error d outdir], Exit 1).
Proof.
  intros Hpd.
  destruct (Hpd "src_dir" SList) as (? & H1 & [dirs ->]%has_shape_list);
    [compute_done|].
  destruct (Hpd "output_dir" SStr) as (? & H2 & [outdir ->]%has_shape_str);
    [compute_done|].
  rewrite (check_src_dirs_eq _ _ _ _ H2 H1).
  destruct (find _ dirs) as [d|]; [right|left]; eauto.
Qed.

Lemma check_docmarks_outcome (pd : gmap string value) :
  shaped late_shapes pd →
  check_docmarks pd = ret tt
  ∨ ∃ a b, check_docmarks pd = ([docmark_error a b], Exit 1).
Proof.
  intros Hpd. unfold check_docmarks. rewrite check_docmark_loop.
  - destruct (find _ _) as [[a b]|]; [right|left]; eauto.
  - intros [a b] Hin. apply docmark_pairs_marks in Hin as (Ha & Hb & _).
    assert (∀ m, m ∈ mark_options → is_Some (pd !! m)) as Hm.
    { intros m Hin. apply list_elem_of_In in Hin. simpl in Hin.
      destruct Hin as [<-|[<-|[<-|[<-|[]]]]];
        lazymatch goal with
        | |- is_Some (_ !! ?k) =>
            destruct (Hpd k SStr) as (v & -> & _); [compute_done|done]
        end. }
    split; by apply Hm.
Qed.

(** ** How the merge fails *)

Section MergeFails.

Context (str_to_bool : string → option bool).

Lemma convert_to_bool_cases (name : string) (option : list string) :
  (∃ b, convert_to_bool str_to_bool name option = ret b)
  ∨ (option = [] ∧ convert_to_bool str_to_bool name option = raise IndexError)
  ∨ ∃ msg, convert_to_bool str_to_bool name option = raise (ValueError msg).
Proof.
  unfold convert_to_bool. destruct (1 <? length option)%nat; [eauto|].
  destruct option as [|option_0 ?]; [eauto|].
  destruct (str_to_bool option_0); eauto.
Qed.

Lemma merged_value_outcome (args : namespace) (raw : option value)
    (opt : string) (default : value) :
  (∀ v, raw = Some v → ∃ l, v = VList l) →
  (∃ v, merged_value str_to_bool args raw opt default = ret v)
  ∨ ∃ l e, raw = Some (VList l)
           ∧ convert_to_bool str_to_bool opt l = raise e
           ∧ merged_value str_to_bool args raw opt default = raise e.
Proof.
  intros Hraw. unfold merged_value.
  destruct (getattr args opt); [eauto|].
  destruct raw as [v|]; [|eauto].
  destruct (Hraw v eq_refl) as [l ->]. unfold as_list.
  destruct default; rewrite ?bind_ret_l; eauto.
  destruct (convert_to_bool_cases opt l) as [[b' Hb]|[[-> Hb]|[msg Hb]]].
  - rewrite Hb, bind_ret_l. eauto.
  - right. exists [], IndexError. by rewrite Hb.
  - right. exists l, (ValueError msg). by rewrite Hb.
Qed.

(** The merge loop prints nothing and never exits; when it does not
    return it raises what [convert_to_bool] raised for one entry. *)
Lemma merge_loop_outcome (args : namespace) (ds : list (string * value)) :
  NoDup ds.*1 →
  ∀ pd : gmap string value,
    (∀ opt v, opt ∈ ds.*1 → pd !! opt = Some v → ∃ l, v = VList l) →
    ∀ out r, for_each (merge_option str_to_bool args) ds pd = (out, r) →
      out = []
      ∧ match r with
        | Ret _ => True
        | Exit _ => False
        | Raise e =>
            ∃ opt l, opt ∈ ds.*1 ∧ pd !! opt = Some (VList l)
                     ∧ convert_to_bool str_to_bool opt l = raise e
        end.
Proof.
  induction ds as [|[o d] ds IH]; intros Hnd pd Hpd out r Hrun.
  - by injection Hrun as <- <-.
  - apply NoDup_cons in Hnd as [Ho Hnd]. cbn [for_each] in Hrun.
    rewrite merge_option_eq in Hrun.
    destruct (merged_value_outcome args (pd !! o) o d)
      as [[v Hv]|(l & e & Hl & He & Hv)].
    { intros v Hv. apply (Hpd o); [apply list_elem_of_here|done]. }
    + rewrite Hv, !bind_ret_l in Hrun.
      destruct (IH Hnd (<[o := v]> pd)) with (out := out) (r := r)
        as [-> Hr]; [|done|].
      { intros opt v' Hin. rewrite lookup_insert_ne by (by intros ->).
        apply Hpd. by apply list_elem_of_further. }
      split; [done|]. destruct r as [| |e]; [done..|].
      destruct Hr as (opt & l & Hin & Hl & He). exists opt, l.
      rewrite lookup_insert_ne in Hl by (by intros ->).
      split; [by apply list_elem_of_further|done].
    + rewrite Hv in Hrun. injection Hrun as <- <-. split; [done|].
      exists o, l. split; [apply list_elem_of_here|done].
Qed.

End MergeFails.

(** ** How [initialize] ends *)

Lemma shaped_base_dir (table : list (string * shape)) (pd : gmap string value)
    (base_dir : value) :
  "base_dir" ∉ table.*1 → shaped table pd →
  shaped table (<["base_dir" := base_dir]> pd).
Proof.
  intros Hnot. apply shaped_ext. intros k s Hin.
  apply lookup_insert_ne. intros <-. apply Hnot.
  apply list_elem_of_fmap. by exists ("base_dir", s).
Qed.

Section Ends.

Context (str_to_bool : string → option bool).
Context (split_path : string → list string).
Context (W : world).


End Ends.


(** ** The configuration [initialize] returns *)

Section Returned.

Context (str_to_bool : string → option bool).
Context (split_path : string → list string).
Context (W : world).

(** The stages after the checks change the entries under
    [preprocess], [preprocessor], [license] and [doc_license] only. *)
Lemma late_stages_frame (pd3 pd4 pd5 pd : gmap string value) out4 out5 out6 :
  probe_preprocessor W pd3 = (out4, Ret pd4) →
  resolve_license "license" pd4 = (out5, Ret pd5) →
  resolve_license "doc_license" pd5 = (out6, Ret pd) →
  ∀ k, k ∉ ["preprocess"; "preprocessor"; "license"; "doc_license"] →
       pd !! k = pd3 !! k.
Proof.
  intros H4 H5 H6 k Hk.
  apply not_elem_of_cons in Hk as [Hk1 Hk].
  apply not_elem_of_cons in Hk as [Hk2 Hk].
  apply not_elem_of_cons in Hk as [Hk3 Hk].
  apply not_elem_of_cons in Hk as [Hk4 _].
  apply probe_preprocessor_inv in H4
    as (? & _ & [(_ & _ & ->)|(_ & ? & _ & [(? & _ & _ & ->)|(? & _ & _ & ->)])]);
    apply resolve_license_inv in H5
      as (? & _ & [(_ & _ & ->)|(? & _ & _ & ->)]);
    apply resolve_license_inv in H6
      as (? & _ & [(_ & _ & ->)|(? & _ & _ & ->)]);
    by rewrite ?lookup_insert_ne by done.
Qed.

Lemma derived_frame (pd : gmap string value) (display : list string)
    (creation_date : string) (project_url : value)
    (extensions fpp_extensions extra_filetypes : list string) (k : string) :
  k ∉ ["display"; "creation_date"; "relative"; "extensions";
       "extra_filetypes"] →
  derived W pd display creation_date project_url extensions fpp_extensions
    extra_filetypes !! k = pd !! k.
Proof.
  intros Hk.
  apply not_elem_of_cons in Hk as [Hk1 Hk].
  apply not_elem_of_cons in Hk as [Hk2 Hk].
  apply not_elem_of_cons in Hk as [Hk3 Hk].
  apply not_elem_of_cons in Hk as [Hk4 Hk].
  apply not_elem_of_cons in Hk as [Hk5 _].
  unfold derived. by rewrite !lookup_insert_ne by done.
Qed.

(** The shapes along a run that returns. *)
Lemma initialize_inv_shaped (args : namespace) (project_file : string)
    (Meta : gmap string (list string)) (pd1 pd2 pd3 : gmap string value) :
  let base_dir := posixpath.abspath W (posixpath.dirname project_file) in
  merge_options str_to_bool W args (VList <$> Meta) = ([], Ret pd1) →
  resolve_paths W base_dir (<["base_dir" := VStr base_dir]> pd1)
    = ([], Ret pd2) →
  derive_fields W pd2 = ([], Ret pd3) →
  shaped config_shapes pd1 ∧ shaped config_shapes pd2 ∧ shaped late_shapes pd3.
Proof.
  intros base_dir H1 H2 H3.
  pose proof (merged_shaped _ _ _ _ _ _ H1) as Hpd1.
  destruct (resolve_paths_returns W base_dir
              (<["base_dir" := VStr base_dir]> pd1)) as (pd2' & H2' & Hpd2).
  { apply shaped_base_dir; [compute_done|done]. }
  rewrite H2 in H2'. injection H2' as <-.
  destruct (derive_fields_returns W pd2 Hpd2) as (pd3' & H3' & Hpd3).
  rewrite H3 in H3'. by injection H3' as <-.
Qed.

(** X2.  The configuration handed on has passed both checks: no source
    directory is the output directory or lies beneath it, and no two
    mark options hold the same non-empty value. *)
Theorem returned_config_checked (args : namespace) (project_file : string)
    (Meta : gmap string (list string)) (proj_docs : string) out
    (pd : gmap string value) (docs : string) :
  initialize str_to_bool split_path W args project_file Meta proj_docs
    = (out, Ret (pd, docs)) →
  (∃ dirs outdir,
     pd !! "src_dir" = Some (VList dirs)
     ∧ pd !! "output_dir" = Some (VStr outdir)
     ∧ ∀ d, d ∈ dirs → ¬ split_path outdir `prefix_of` split_path d)
  ∧ (∀ m, m ∈ mark_options → ∃ v, pd !! m = Some (VStr v))
  ∧ ¬ ∃ a b, marks_collide pd a b.
Proof.
  intros Hrun.
  destruct (initialize_inv _ _ _ _ _ _ _ _ _ _ Hrun)
    as (pd1 & pd2 & pd3 & pd4 & pd5 & out4 & out5 & out6
        & H1 & H2 & H3 & Hsrc & Hmarks & _ & H4 & H5 & H6 & _).
  destruct (initialize_inv_shaped _ _ _ _ _ _ H1 H2 H3) as (_ & _ & Hpd3).
  pose proof (late_stages_frame _ _ _ _ _ _ _ H4 H5 H6) as Hframe.
  destruct (Hpd3 "output_dir" SStr) as (? & Hout & [outdir ->]%has_shape_str);
    [compute_done|].
  destruct (check_src_dirs_inv _ _ _ _ _ Hout Hsrc) as (_ & dirs & Hdirs & Hno).
  apply check_docmarks_inv in Hmarks as [_ Hmarks].
  split; [|split].
  - exists dirs, outdir. by rewrite !Hframe by compute_done.
  - intros m Hm. rewrite Hframe.
    + destruct (Hpd3 m SStr) as (? & Hv & [v ->]%has_shape_str); [|eauto].
      apply list_elem_of_In in Hm. simpl in Hm.
      destruct Hm as [<-|[<-|[<-|[<-|[]]]]]; compute_done.
    + apply list_elem_of_In in Hm. simpl in Hm.
      destruct Hm as [<-|[<-|[<-|[<-|[]]]]]; compute_done.
  - intros (a & b & Ha & Hb & Hab & v & Hv & Hva & Hvb). apply Hmarks.
    exists a, b. split; [done|]. split; [done|]. split; [done|].
    exists v. split; [done|].
    assert (∀ m, m ∈ mark_options → pd !! m = pd3 !! m) as Hm.
    { intros m Hm. apply Hframe. apply list_elem_of_In in Hm. simpl in Hm.
      destruct Hm as [<-|[<-|[<-|[<-|[]]]]]; compute_done. }
    by rewrite <- !Hm.
Qed.

(** An entry of the returned configuration that the stages after the
    resolution of paths do not write is the resolved entry of the
    merge. *)
Lemma returned_lookup (args : namespace) (project_file : string)
    (Meta : gmap string (list string)) (proj_docs : string) out
    (pd : gmap string value) (docs : string) :
  initialize str_to_bool split_path W args project_file Meta proj_docs
    = (out, Ret (pd, docs)) →
  let base_dir := posixpath.abspath W (posixpath.dirname project_file) in
  ∃ pd1, merge_options str_to_bool W args (VList <$> Meta) = ([], Ret pd1)
    ∧ ∀ k, k ∉ ["display"; "creation_date"; "relative"; "extensions";
                "extra_filetypes"] →
           k ∉ ["preprocess"; "preprocessor"; "license"; "doc_license"] →
           pd !! k = resolved_entry W base_dir k
                       <$> (<["base_dir" := VStr base_dir]> pd1) !! k.
Proof.
  intros Hrun base_dir.
  destruct (initialize_inv _ _ _ _ _ _ _ _ _ _ Hrun)
    as (pd1 & pd2 & pd3 & pd4 & pd5 & out4 & out5 & out6
        & H1 & H2 & H3 & _ & _ & _ & H4 & H5 & H6 & _).
  exists pd1. split; [done|]. intros k Hk1 Hk2.
  rewrite (late_stages_frame _ _ _ _ _ _ _ H4 H5 H6 k Hk2).
  apply derive_fields_inv in H3
    as (_ & ? & ? & ? & ? & ? & ? & _ & _ & _ & _ & _ & _ & ->).
  rewrite derived_frame by done.
  by apply resolve_paths_inv in H2 as [_ ->].
Qed.

Lemma merged_no_cli (args : namespace) (Meta : gmap string (list string))
    (opt : string) (default : value) out (pd1 : gmap string value) :
  merge_options str_to_bool W args (VList <$> Meta) = (out, Ret pd1) →
  (opt, default) ∈ defaults W → getattr args opt = None →
  ∃ v, pd1 !! opt = Some v
       ∧ match Meta !! opt with
         | Some l => coerce str_to_bool opt default l = ret v
         | None => v = default
         end.
Proof.
  intros Hrun Hin Hargs.
  destruct (merge_options_returns _ _ _ _ _ _ Hrun) as [_ Hopts].
  destruct (Hopts _ _ Hin) as (v & Hv & Hm). exists v. split; [done|].
  unfold by_precedence in Hm. rewrite Hargs in Hm.
  destruct (Meta !! opt); [done|]. by injection Hm.
Qed.

(** X3.  The body of the project file comes back as it went in, followed by
    the script of the chat room when the metadata names a room: the
    command line cannot name one. *)
Theorem returned_docs (args : namespace) (project_file : string)
    (Meta : gmap string (list string)) (proj_docs : string) out
    (pd : gmap string value) (docs : string) :
  initialize str_to_bool split_path W args project_file Meta proj_docs
    = (out, Ret (pd, docs)) →
  docs = match Meta !! "gitter_sidecar" with
         | Some l => proj_docs +:+ gitter_script (Py.strip (Py.join nl l))
         | None => proj_docs
         end.
Proof.
  intros Hrun.
  destruct (initialize_inv _ _ _ _ _ _ _ _ _ _ Hrun)
    as (pd1 & pd2 & pd3 & pd4 & pd5 & out4 & out5 & out6
        & H1 & H2 & H3 & _ & _ & Hdocs & _).
  destruct (merged_no_cli args Meta "gitter_sidecar" VNone _ _ H1)
    as (v & Hv & Hm); [compute_done|done|].
  assert (pd3 !! "gitter_sidecar" = Some v) as Hv3.
  { apply derive_fields_inv in H3
      as (_ & ? & ? & ? & ? & ? & ? & _ & _ & _ & _ & _ & _ & ->).
    rewrite derived_frame by compute_done.
    apply resolve_paths_inv in H2 as [_ ->].
    by rewrite lookup_insert_ne, Hv. }
  apply add_gitter_sidecar_inv in Hdocs as [_ [[Hnone ->]|(room & Hroom & ->)]].
  - rewrite Hv3 in Hnone. injection Hnone as ->.
    destruct (Meta !! "gitter_sidecar"); [done|done].
  - rewrite Hv3 in Hroom. injection Hroom as ->.
    destruct (Meta !! "gitter_sidecar"); [|done]. by injection Hm as ->.
Qed.

(** X4.  [relative] is the boolean that tells whether the metadata gives no
    project URL or an empty one, whatever the metadata holds under the
    name [relative]. *)
Theorem returned_relative (args : namespace) (project_file : string)
    (Meta : gmap string (list string)) (proj_docs : string) out
    (pd : gmap string value) (docs : string) :
  initialize str_to_bool split_path W args project_file Meta proj_docs
    = (out, Ret (pd, docs)) →
  pd !! "relative"
  = Some (VBool (bool_decide
                   (default "" (Py.join nl <$> Meta !! "project_url") = ""))).
Proof.
  intros Hrun.
  destruct (initialize_inv _ _ _ _ _ _ _ _ _ _ Hrun)
    as (pd1 & pd2 & pd3 & pd4 & pd5 & out4 & out5 & out6
        & H1 & H2 & H3 & _ & _ & _ & H4 & H5 & H6 & _).
  rewrite (late_stages_frame _ _ _ _ _ _ _ H4 H5 H6) by compute_done.
  destruct (merged_no_cli args Meta "project_url" (VStr "") _ _ H1)
    as (v & Hv & Hm); [compute_done|done|].
  apply derive_fields_inv in H3
    as (_ & ? & ? & url & ? & ? & ? & _ & _ & Hurl & _ & _ & _ & ->).
  apply resolve_paths_inv in H2 as [_ H2].
  rewrite H2, lookup_insert_ne, Hv in Hurl by done.
  injection Hurl as <-. unfold derived.
  rewrite !lookup_insert_ne by done. rewrite lookup_insert_eq.
  do 2 f_equal.
  change (resolved_entry W
            (posixpath.abspath W (posixpath.dirname project_file))
            "project_url" v) with v.
  destruct (Meta !! "project_url") as [l|].
  - injection Hm as <-. unfold py_eq. simpl.
    apply bool_decide_ext. split; [by intros [= ->]|by intros ->].
  - subst v. done.
Qed.

(** X5.  An entry of the metadata whose name is no option, and is neither
    [base_dir] nor [relative], comes back as the list it was; under
    [base_dir] the directory of the project file comes back, whatever
    the metadata held there. *)
Theorem returned_other_entries (args : namespace) (project_file : string)
    (Meta : gmap string (list string)) (proj_docs : string) out
    (pd : gmap string value) (docs : string) :
  initialize str_to_bool split_path W args project_file Meta proj_docs
    = (out, Ret (pd, docs)) →
  (∀ k, k ∉ (defaults W).*1 → k ≠ "base_dir" → k ≠ "relative" →
        pd !! k = VList <$> Meta !! k)
  ∧ pd !! "base_dir"
    = Some (VStr (posixpath.abspath W (posixpath.dirname project_file))).
Proof.
  intros Hrun.
  destruct (returned_lookup _ _ _ _ _ _ _ Hrun) as (pd1 & H1 & Hk).
  split.
  - intros k Hopt Hbase Hrel.
    assert (∀ k', k' ∈ (defaults W).*1 → k ≠ k') as Hne.
    { by intros k' Hin ->. }
    rewrite Hk.
    + rewrite lookup_insert_ne by done.
      destruct (merge_loop_returns _ _ _ (defaults_NoDup W) _ _ _ H1)
        as (_ & _ & Hothers).
      rewrite (Hothers k Hopt), lookup_fmap. unfold resolved_entry.
      rewrite !bool_decide_eq_false_2; [by destruct (Meta !! k)|..].
      * apply Hne. compute_done.
      * intros Hin. apply list_elem_of_In in Hin. simpl in Hin.
        destruct Hin as [<-|[<-|[<-|[<-|[<-|[<-|[]]]]]]];
          apply Hopt; compute_done.
      * intros Hin. apply list_elem_of_In in Hin. simpl in Hin.
        destruct Hin as [<-|[<-|[<-|[]]]]; apply Hopt; compute_done.
    + intros Hin. apply list_elem_of_In in Hin. simpl in Hin.
      destruct Hin as [<-|[<-|[<-|[<-|[<-|[]]]]]]; try done;
        apply Hopt; compute_done.
    + intros Hin. apply list_elem_of_In in Hin. simpl in Hin.
      destruct Hin as [<-|[<-|[<-|[<-|[]]]]]; apply Hopt; compute_done.
  - rewrite Hk by compute_done. by rewrite lookup_insert_eq.
Qed.

(** X6.  The two entries of the preprocessor in the returned configuration:
    the boolean false and the command as the sources gave it, when
    preprocessing was not asked for; the string that stands for
    disabled and the command as the sources gave it, when the command
    could not be started; the string that stands for enabled and the
    words of the command, when it was started.  The boolean true never
    comes back. *)
Theorem returned_preprocess (args : namespace) (project_file : string)
    (Meta : gmap string (list string)) (proj_docs : string) out
    (pd : gmap string value) (docs : string) :
  initialize str_to_bool split_path W args project_file Meta proj_docs
    = (out, Ret (pd, docs)) →
  ∃ configured,
    let command :=
      if Py.str_truthy configured then Py.split_ws configured
      else default_preprocessor in
    (pd !! "preprocess" = Some (VBool false)
     ∧ pd !! "preprocessor" = Some (VStr configured))
    ∨ (pd !! "preprocess" = Some (VStr "false")
       ∧ pd !! "preprocessor" = Some (VStr configured)
       ∧ ∃ ex, popen W command = SpawnOSError ex)
    ∨ (pd !! "preprocess" = Some (VStr "true")
       ∧ pd !! "preprocessor" = Some (VList command)
       ∧ ∃ status, popen W command = Spawned status).
Proof.
  intros Hrun.
  destruct (initialize_inv _ _ _ _ _ _ _ _ _ _ Hrun)
    as (pd1 & pd2 & pd3 & pd4 & pd5 & out4 & out5 & out6
        & H1 & H2 & H3 & _ & _ & _ & H4 & H5 & H6 & _).
  destruct (initialize_inv_shaped _ _ _ _ _ _ H1 H2 H3) as (_ & _ & Hpd3).
  destruct (Hpd3 "preprocess" SBool) as (? & Hp & [b ->]%has_shape_bool);
    [compute_done|].
  destruct (Hpd3 "preprocessor" SStr) as (? & Hc & [configured ->]%has_shape_str);
    [compute_done|].
  exists configured. intros command.
  assert (∀ k, k ∈ ["preprocess"; "preprocessor"] → pd !! k = pd4 !! k) as Hk.
  { intros k Hin.
    apply resolve_license_inv in H5
      as (? & _ & [(_ & _ & ->)|(? & _ & _ & ->)]);
      apply resolve_license_inv in H6
        as (? & _ & [(_ & _ & ->)|(? & _ & _ & ->)]);
      apply list_elem_of_In in Hin; simpl in Hin;
      destruct Hin as [<-|[<-|[]]]; by rewrite ?lookup_insert_ne by done. }
  rewrite !Hk by compute_done.
  apply probe_preprocessor_inv in H4 as (v & Hv & Hcases).
  rewrite Hp in Hv. injection Hv as <-.
  assert (preprocessor_command pd3 = ret command) as Hcommand.
  { unfold preprocessor_command.
    rewrite (getitem_Some _ _ _ Hc), bind_ret_l. cbn [truthy].
    subst command. destruct (Py.str_truthy configured); [|done].
    unfold as_str. by rewrite !bind_ret_l. }
  destruct Hcases as [(Hb & _ & ->)|(Hb & command' & Hc' & Hcases)].
  - left. simpl in Hb. by subst b.
  - rewrite Hcommand in Hc'. injection Hc' as <-.
    destruct Hcases as [(ex & Hpopen & _ & ->)|(status & Hpopen & _ & ->)].
    + right. left. rewrite lookup_insert_eq, lookup_insert_ne by done. eauto.
    + right. right.
      rewrite lookup_insert_ne, !lookup_insert_eq by done. eauto.
Qed.

Lemma abspath_isabs (path : string) :
  posixpath.isabs (getcwd W) = true →
  posixpath.isabs (posixpath.abspath W path) = true.
Proof.
  intros Hcwd. unfold posixpath.abspath. apply normpath_isabs.
  destruct (posixpath.isabs path) eqn:Hpath; [done|by apply join_isabs].
Qed.

(** X7.  With an absolute working directory, every path of the returned
    configuration is absolute and is left as it is by [normpath]: the
    entries of the three lists of directories, the six single paths
    that are not [None], the favicon unless it is the default icon, and
    [base_dir]. *)
Theorem returned_paths (args : namespace) (project_file : string)
    (Meta : gmap string (list string)) (proj_docs : string) out
    (pd : gmap string value) (docs : string) :
  initialize str_to_bool split_path W args project_file Meta proj_docs
    = (out, Ret (pd, docs)) →
  posixpath.isabs (getcwd W) = true →
  let settled p := posixpath.isabs p = true ∧ posixpath.normpath p = p in
  (∀ k, k ∈ list_path_vars →
        ∃ l, pd !! k = Some (VList l) ∧ ∀ p, p ∈ l → settled p)
  ∧ (∀ k, k ∈ scalar_path_vars →
          pd !! k = Some VNone ∨ ∃ p, pd !! k = Some (VStr p) ∧ settled p)
  ∧ (∃ p, pd !! "favicon" = Some (VStr p)
          ∧ (Py.strip p = "default-icon" ∨ settled p))
  ∧ (∃ p, pd !! "base_dir" = Some (VStr p) ∧ settled p).
Proof.
  intros Hrun Hcwd settled.
  destruct (returned_lookup _ _ _ _ _ _ _ Hrun) as (pd1 & H1 & Hk).
  pose proof (merged_shaped _ _ _ _ _ _ H1) as Hpd1.
  set (base_dir := posixpath.abspath W (posixpath.dirname project_file)) in *.
  assert (posixpath.isabs base_dir = true) as Hbase by by apply abspath_isabs.
  assert (∀ p, settled (resolve_path W base_dir p)) as Hsettled.
  { intros p. split; [by apply resolve_path_isabs|].
    apply normpath_idempotent. }
  split; [|split; [|split]].
  - intros k Hin. apply list_elem_of_In in Hin. simpl in Hin.
    destruct Hin as [<-|[<-|[<-|[]]]];
      (rewrite Hk by compute_done; rewrite lookup_insert_ne by done;
       lazymatch goal with
       | |- context [pd1 !! ?key] =>
           destruct (Hpd1 key SList) as (? & -> & [l ->]%has_shape_list);
             [compute_done|]
       end;
       eexists; split; [reflexivity|];
       intros p (p0 & -> & _)%list_elem_of_fmap; apply Hsettled).
  - intros k Hin. apply list_elem_of_In in Hin. simpl in Hin.
    destruct Hin as [<-|[<-|[<-|[<-|[<-|[<-|[]]]]]]];
      (rewrite Hk by compute_done; rewrite lookup_insert_ne by done;
       lazymatch goal with
       | |- context [pd1 !! ?key] =>
           first
             [ destruct (Hpd1 key SOptStr)
                 as (? & -> & [->|[p ->]]%has_shape_opt_str);
                 [compute_done|by left|]
             | destruct (Hpd1 key SStr) as (? & -> & [p ->]%has_shape_str);
                 [compute_done|] ]
       end;
       right; eexists; split; [reflexivity|apply Hsettled]).
  - rewrite Hk by compute_done. rewrite lookup_insert_ne by done.
    destruct (Hpd1 "favicon" SStr) as (? & -> & [p ->]%has_shape_str);
      [compute_done|].
    cbn [fmap option_fmap option_map].
    change (resolved_entry W base_dir "favicon" (VStr p))
      with (resolved_favicon W base_dir (VStr p)).
    unfold resolved_favicon. case_bool_decide as Hicon.
    + exists p. split; [done|]. by left.
    + eexists. split; [done|]. right. apply Hsettled.
  - rewrite Hk by compute_done. rewrite lookup_insert_eq.
    exists base_dir. split; [done|]. split; [done|].
    apply normpath_idempotent.
Qed.

End Returned.

(** ** A run that returns *)

Lemma returned_pair {A B} (d : A * B) (m : M (A * B)) :
  returned m = true → m = (m.1, Ret ((value_of d m).1, (value_of d m).2)).
Proof. unfold returned, value_of. by destruct m as [out [[a b]| |]]. Qed.

Lemma chat_run_returns : chat_run = (chat_run.1, Ret (chat_config, chat_docs)).
Proof. apply returned_pair. vm_compute. reflexivity. Qed.

Lemma returned_config_checked_witness :
  ¬ ∃ a b, marks_collide chat_config a b.
Proof.
  exact (proj2 (proj2 (returned_config_checked utils.str_to_bool
                         utils.split_path example_world no_args
                         "proj/project.md" chat_meta "<p>Hello</p>" _ _ _
                         chat_run_returns))).
Defined.

Lemma returned_docs_witness :
  chat_docs = "<p>Hello</p>" +:+ gitter_script "ford/chat".
Proof.
  exact (returned_docs utils.str_to_bool utils.split_path example_world
           no_args "proj/project.md" chat_meta "<p>Hello</p>" _ _ _
           chat_run_returns).
Defined.

Lemma returned_relative_witness :
  chat_config !! "relative" = Some (VBool false).
Proof.
  exact (returned_relative utils.str_to_bool utils.split_path example_world
           no_args "proj/project.md" chat_meta "<p>Hello</p>" _ _ _
           chat_run_returns).
Defined.

Lemma returned_other_entries_witness :
  chat_config !! "notes" = Some (VList ["kept"])
  ∧ chat_config !! "base_dir" = Some (VStr "/work/proj").
Proof.
  destruct (returned_other_entries utils.str_to_bool utils.split_path
              example_world no_args "proj/project.md" chat_meta
              "<p>Hello</p>" _ _ _ chat_run_returns) as [Hk Hbase].
  split; [|exact Hbase].
  rewrite Hk; [done|compute_done|done|done].
Defined.

Lemma returned_preprocess_witness :
  chat_config !! "preprocess" = Some (VStr "true")
  ∧ ∃ command, chat_config !! "preprocessor" = Some (VList command)
               ∧ ∃ status, popen example_world command = Spawned status.
Proof.
  destruct (returned_preprocess utils.str_to_bool utils.split_path
              example_world no_args "proj/project.md" chat_meta
              "<p>Hello</p>" _ _ _ chat_run_returns)
    as (configured & [[Hoff _]|[(Hfailed & _)|(Hon & Hcommand & Hstarted)]]).
  - exfalso. revert Hoff. vm_compute. discriminate.
  - exfalso. revert Hfailed. vm_compute. discriminate.
  - split; [exact Hon|]. eexists. split; [exact Hcommand|exact Hstarted].
Defined.

Lemma returned_paths_witness :
  ∃ l, chat_config !! "src_dir" = Some (VList l)
       ∧ ∀ p, p ∈ l → posixpath.isabs p = true ∧ posixpath.normpath p = p.
Proof.
  exact (proj1 (returned_paths utils.str_to_bool utils.split_path
                  example_world no_args "proj/project.md" chat_meta
                  "<p>Hello</p>" _ _ _ chat_run_returns eq_refl)
           "src_dir" ltac:(compute_done)).
Defined.

(** ** The extra file types *)

Lemma add_filetype_entry (extdict : gmap string (string * option string))
    (ext : string) :
  add_filetype extdict ext
  = match filetype_entry ext with
    | Some (k, e) => <[k := e]> extdict
    | None => extdict
    end.
Proof.
  unfold add_filetype, filetype_entry.
  by destruct (Py.split_ws ext) as [|? [|? [|? ?]]].
Qed.

Lemma extra_filetypes_lookup (lines : list string)
    (extdict : gmap string (string * option string)) (sp0 : string) :
  fold_left add_filetype lines extdict !! sp0
  = match last (entries_for sp0 lines) with
    | Some e => Some e
    | None => extdict !! sp0
    end.
Proof.
  revert extdict. induction lines as [|ext lines IH]; intros extdict; [done|].
  cbn [fold_left]. rewrite IH, add_filetype_entry.
  unfold entries_for. cbn [omap list_omap].
  destruct (filetype_entry ext) as [[k e]|]; [|done].
  case_bool_decide as Hk.
  - subst k. rewrite last_cons, lookup_insert_eq.
    by destruct (last _).
  - by rewrite lookup_insert_ne.
Qed.

Lemma last_omap_Some {A B} (f : A → option B) (l : list A) (b : B) :
  last (omap f l) = Some b
  ↔ ∃ before a after, l = before ++ a :: after ∧ f a = Some b
                      ∧ ∀ a', a' ∈ after → f a' = None.
Proof.
  induction l as [|a l IH] using rev_ind.
  - split; [done|]. intros (before & a & after & Hl & _).
    by destruct before.
  - rewrite omap_app. cbn [omap list_omap].
    destruct (f a) as [b'|] eqn:Hfa.
    + rewrite last_snoc. split.
      * intros [= ->]. exists l, a, []. split; [done|]. split; [done|].
        intros a' Hin. by apply elem_of_nil in Hin.
      * intros (before & a0 & after & Hl & Ha0 & Hafter).
        induction after as [|a1 after _] using rev_ind.
        -- apply app_inj_tail in Hl as [_ <-]. congruence.
        -- rewrite app_comm_cons, app_assoc in Hl.
           apply app_inj_tail in Hl as [_ <-].
           rewrite Hafter in Hfa; [done|].
           apply elem_of_app. right. by apply list_elem_of_singleton.
    + rewrite app_nil_r, IH. split.
      * intros (before & a0 & after & -> & Ha0 & Hafter).
        exists before, a0, (after ++ [a]). rewrite <- app_assoc.
        split; [done|]. split; [done|].
        intros a' [Hin|Hin%list_elem_of_singleton]%elem_of_app;
          [by apply Hafter|by subst].
      * intros (before & a0 & after & Hl & Ha0 & Hafter).
        induction after as [|a1 after _] using rev_ind.
        -- apply app_inj_tail in Hl as [_ <-]. congruence.
        -- rewrite app_comm_cons, app_assoc in Hl.
           apply app_inj_tail in Hl as [-> <-].
           exists before, a0, after. split; [done|]. split; [done|].
           intros a' Hin. apply Hafter. apply elem_of_app. by left.
Qed.

(** X8.  After the derived fields are set, [extra_filetypes] holds a
    dictionary in which an extension has an entry when some line
    starts with it and has two words or more, and the entry is that of
    the last such line: its second word, with its third word when it
    has one.  A line of fewer than two words adds nothing, the words
    after the third are dropped, and an earlier line for the same
    extension is overwritten. *)
Theorem extra_filetypes_last_line_wins (W : world)
    (pd pd' : gmap string value) out (lines : list string) :
  pd !! "extra_filetypes" = Some (VList lines) →
  derive_fields W pd = (out, Ret pd') →
  ∃ extdict,
    pd' !! "extra_filetypes" = Some (VDict extdict)
    ∧ (∀ sp0, extdict !! sp0 = last (entries_for sp0 lines))
    ∧ (∀ sp0 sp1 lexer,
         extdict !! sp0 = Some (sp1, lexer)
         ↔ ∃ before line after rest,
             lines = before ++ line :: after
             ∧ Py.split_ws line = sp0 :: sp1 :: rest
             ∧ lexer = head rest
             ∧ ∀ later, later ∈ after →
                 ¬ ∃ w ws, Py.split_ws later = sp0 :: w :: ws).
Proof.
  intros Hlines Hrun.
  apply derive_fields_inv in Hrun
    as (_ & ? & ? & ? & ? & ? & lines' & _ & _ & _ & _ & _ & Hlines' & ->).
  rewrite Hlines in Hlines'. injection Hlines' as <-.
  exists (extra_filetypes_dict lines).
  assert (∀ sp0, extra_filetypes_dict lines !! sp0
                 = last (entries_for sp0 lines)) as Hlast.
  { intros sp0. unfold extra_filetypes_dict.
    rewrite extra_filetypes_lookup, lookup_empty. by destruct (last _). }
  split; [|split; [done|]].
  { unfold derived. by rewrite lookup_insert_eq. }
  intros sp0 sp1 lexer. rewrite Hlast. unfold entries_for.
  rewrite last_omap_Some. split.
  - intros (before & line & after & -> & Hline & Hafter).
    unfold filetype_entry in Hline.
    destruct (Py.split_ws line) as [|w0 [|w1 rest]] eqn:Hsp; [done|done|].
    exists before, line, after, rest.
    assert (w0 = sp0 ∧ w1 = sp1 ∧ lexer = head rest) as (-> & -> & ->).
    { destruct rest; case_bool_decide; naive_solver. }
    split; [done|]. split; [done|]. split; [done|].
    intros later Hin (w & ws & Hlater). specialize (Hafter later Hin).
    unfold filetype_entry in Hafter. rewrite Hlater in Hafter.
    destruct ws; by rewrite bool_decide_eq_true_2 in Hafter.
  - intros (before & line & after & rest & -> & Hline & -> & Hafter).
    exists before, line, after. split; [done|]. split.
    + unfold filetype_entry. rewrite Hline.
      destruct rest; by rewrite bool_decide_eq_true_2.
    + intros later Hin. specialize (Hafter later Hin).
      unfold filetype_entry.
      destruct (Py.split_ws later) as [|w0 [|w1 ws]]; [done|done|].
      destruct ws; case_bool_decide; try done; subst; exfalso; eauto.
Qed.

Lemma extra_filetypes_last_line_wins_witness :
  ∃ extdict,
    extensions_derived !! "extra_filetypes" = Some (VDict extdict)
    ∧ extdict !! "inc" = Some ("!", None).
Proof.
  destruct (extra_filetypes_last_line_wins example_world extensions_config
              extensions_derived
              (derive_fields example_world extensions_config).1
              ["inc !"] eq_refl)
    as (extdict & Hdict & Hlast & _).
  - apply returned_value_of. vm_compute. reflexivity.
  - exists extdict. split; [exact Hdict|]. by rewrite Hlast.
Defined.

(** ** The displayed visibilities *)

Lemma lower_char_idempotent (c : ascii) :
  Py.lower_char (Py.lower_char c) = Py.lower_char c.
Proof. by destruct c as [[] [] [] [] [] [] [] []]. Qed.

Lemma lower_idempotent (s : string) : Py.lower (Py.lower s) = Py.lower s.
Proof.
  induction s as [|c s IH]; [done|].
  cbn [Py.lower]. by rewrite lower_char_idempotent, IH.
Qed.

Section Display.

Context (str_to_bool : string → option bool).
Context (split_path : string → list string).
Context (W : world).

(** X9.  The command line has no option for [display]: the returned list
    is the list of the metadata, or the two default visibilities when
    the metadata has none, with every entry in lower case; putting an
    entry in lower case again changes nothing. *)
Theorem returned_display (args : namespace) (project_file : string)
    (Meta : gmap string (list string)) (proj_docs : string) out
    (pd : gmap string value) (docs : string) :
  initialize str_to_bool split_path W args project_file Meta proj_docs
    = (out, Ret (pd, docs)) →
  ∃ display,
    pd !! "display" = Some (VList display)
    ∧ display
      = Py.lower <$> default ["public"; "protected"] (Meta !! "display")
    ∧ ∀ item, item ∈ display → Py.lower item = item.
Proof.
  intros Hrun.
  destruct (initialize_inv _ _ _ _ _ _ _ _ _ _ Hrun)
    as (pd1 & pd2 & pd3 & pd4 & pd5 & out4 & out5 & out6
        & H1 & H2 & H3 & _ & _ & _ & H4 & H5 & H6 & _).
  rewrite (late_stages_frame _ _ _ _ _ _ _ _ H4 H5 H6) by compute_done.
  destruct (merged_no_cli str_to_bool W args Meta "display"
              (VList ["public"; "protected"]) _ _ H1)
    as (v & Hv & Hm); [compute_done|done|].
  apply derive_fields_inv in H3
    as (_ & display & ? & ? & ? & ? & ? & Hdisplay & _ & _ & _ & _ & _ & ->).
  apply resolve_paths_inv in H2 as [_ H2].
  rewrite H2, lookup_insert_ne, Hv in Hdisplay by done.
  cbn [fmap option_fmap option_map] in Hdisplay.
  change (resolved_entry W
            (posixpath.abspath W (posixpath.dirname project_file))
            "display" v) with v in Hdisplay.
  injection Hdisplay as ->.
  exists (Py.lower <$> display). split; [|split].
  - unfold derived. rewrite !lookup_insert_ne by done.
    by rewrite lookup_insert_eq.
  - destruct (Meta !! "display") as [l|]; by injection Hm as <-.
  - intros item (item0 & -> & _)%list_elem_of_fmap. apply lower_idempotent.
Qed.

End Display.

Lemma returned_display_witness :
  chat_config !! "display" = Some (VList ["public"; "protected"]).
Proof.
  destruct (returned_display utils.str_to_bool utils.split_path example_world
              no_args "proj/project.md" chat_meta "<p>Hello</p>" _ _ _
              chat_run_returns) as (display & Hdisplay & -> & _).
  exact Hdisplay.
Defined.

(** ** What [initialize] prints *)

Lemma bind_nil_Ret {A B} (a : A) (f : A → M B) : (([], Ret a) ≫= f) = f a.
Proof. unfold mbind, M_bind. by destruct (f a). Qed.

(** The docmark diagnostic is one text, which names the two options. *)
Lemma docmark_error_names (a b : string) :
  names (docmark_error a b) a ∧ names (docmark_error a b) b.
Proof.
  split.
  - eexists _, _. unfold docmark_error. apply list_elem_of_here.
  - exists ("Error: " +:+ a +:+ " and "), " are the same.".
    unfold docmark_error. rewrite !str_app_assoc. apply list_elem_of_here.
Qed.

Section Printed.

Context (str_to_bool : string → option bool).
Context (split_path : string → list string).
Context (W : world).

(** The stages of a run, up to the one that ends it. *)
Lemma initialize_cases (args : namespace) (project_file : string)
    (Meta : gmap string (list string)) (proj_docs : string) :
  let base_dir := posixpath.abspath W (posixpath.dirname project_file) in
  let m :=
    initialize str_to_bool split_path W args project_file Meta proj_docs in
  (∃ e, m = ([], Raise e))
  ∨ ∃ pd1 pd2 pd3,
      merge_options str_to_bool W args (VList <$> Meta) = ([], Ret pd1)
      ∧ resolve_paths W base_dir (<["base_dir" := VStr base_dir]> pd1)
        = ([], Ret pd2)
      ∧ derive_fields W pd2 = ([], Ret pd3)
      ∧ shaped late_shapes pd3
      ∧ ((∃ line, check_src_dirs split_path pd3 = ([line], Exit 1)
                  ∧ m = ([line], Exit 1))
         ∨ (∃ line, check_docmarks pd3 = ([line], Exit 1)
                    ∧ m = ([line], Exit 1))
         ∨ (∃ ex, m = ([], Raise (OtherError ex)))
         ∨ (∃ out pd docs, m = (out, Ret (pd, docs)))).
Proof.
  intros base_dir m. subst m base_dir. unfold initialize.
  destruct (merge_options str_to_bool W args (VList <$> Meta))
    as [o1 r1] eqn:Hmerge.
  destruct (merge_loop_outcome str_to_bool args (defaults W)
              (defaults_NoDup W) (VList <$> Meta)) with (out := o1) (r := r1)
    as [-> Hr1]; [|done|].
  { intros opt v _. rewrite lookup_fmap.
    destruct (Meta !! opt) as [l|]; [|done]. intros [= <-]. eauto. }
  destruct r1 as [pd1|code|e]; [|done|by left; exists e].
  right. pose proof (merged_shaped _ _ _ _ _ _ Hmerge) as Hpd1.
  rewrite bind_nil_Ret.
  destruct (resolve_paths_returns W
              (posixpath.abspath W (posixpath.dirname project_file))
              (<["base_dir" :=
                   VStr (posixpath.abspath W (posixpath.dirname project_file))]>
                 pd1))
    as (pd2 & H2 & Hpd2).
  { apply shaped_base_dir; [compute_done|done]. }
  destruct (derive_fields_returns W pd2 Hpd2) as (pd3 & H3 & Hpd3).
  exists pd1, pd2, pd3.
  split; [done|]. split; [done|]. split; [done|]. split; [done|].
  rewrite H2, bind_ret_l, H3, bind_ret_l.
  destruct (check_src_dirs_outcome split_path pd3 Hpd3)
    as [Hsrc|(d & outdir & Hsrc)]; rewrite Hsrc;
    [|left; by exists (containment_error d outdir)].
  rewrite bind_ret_l.
  destruct (check_docmarks_outcome pd3 Hpd3) as [Hmarks|(a & b & Hmarks)];
    rewrite Hmarks; [|right; left; by exists (docmark_error a b)].
  rewrite bind_ret_l.
  destruct (add_gitter_sidecar_returns pd3 proj_docs Hpd3) as [docs ->].
  rewrite bind_ret_l.
  destruct (probe_preprocessor_outcome W pd3 Hpd3)
    as [(out4 & pd4 & -> & Hframe)|(command & ex & Hp & ->)];
    [|right; right; left; by exists ex].
  destruct (Hpd3 "license" SStr) as (? & Hl1 & [name1 ->]%has_shape_str);
    [compute_done|].
  destruct (Hpd3 "doc_license" SStr) as (? & Hl2 & [name2 ->]%has_shape_str);
    [compute_done|].
  destruct (resolve_license_returns "license" name1 pd4)
    as (out5 & pd5 & H5 & Hframe5); [by rewrite Hframe|].
  destruct (resolve_license_returns "doc_license" name2 pd5)
    as (out6 & pd6 & H6 & _); [by rewrite Hframe5, Hframe|].
  do 3 right. rewrite bind_Ret, H5, bind_Ret, H6, bind_Ret.
  by eexists _, _, _.
Qed.

(** The entries the checks read are those of the merge, with the
    paths resolved. *)
Lemma checked_entries (base_dir : string) (pd1 pd2 pd3 : gmap string value) :
  resolve_paths W base_dir (<["base_dir" := VStr base_dir]> pd1)
    = ([], Ret pd2) →
  derive_fields W pd2 = ([], Ret pd3) →
  ∀ k, k ∉ ["display"; "creation_date"; "relative"; "extensions";
            "extra_filetypes"] →
       k ≠ "base_dir" →
       pd3 !! k = resolved_entry W base_dir k <$> pd1 !! k.
Proof.
  intros H2 H3 k Hk Hbase.
  apply derive_fields_inv in H3
    as (_ & ? & ? & ? & ? & ? & ? & _ & _ & _ & _ & _ & _ & ->).
  rewrite derived_frame by done.
  apply resolve_paths_inv in H2 as [_ ->]. by rewrite lookup_insert_ne.
Qed.

(** X10.  When [initialize] stops the program the status is 1 and one line
    has been printed, which tells why: the containment diagnostic for
    a source directory that, once resolved, is the resolved output
    directory or lies beneath it, and this line names the two resolved
    directories; or the diagnostic for two mark options that hold the
    same non-empty value after the merge, and this line names the two
    options.  When [initialize] raises, nothing has been printed. *)
Theorem initialize_stop_explained (args : namespace) (project_file : string)
    (Meta : gmap string (list string)) (proj_docs : string) out
    (r : outcome (gmap string value * string)) :
  initialize str_to_bool split_path W args project_file Meta proj_docs
    = (out, r) →
  let resolve :=
    resolve_path W (posixpath.abspath W (posixpath.dirname project_file)) in
  match r with
  | Ret _ => True
  | Raise _ => out = []
  | Exit code =>
      code = 1
      ∧ ∃ pd1,
          merge_options str_to_bool W args (VList <$> Meta) = ([], Ret pd1)
          ∧ ((∃ dirs outdir d,
                pd1 !! "src_dir" = Some (VList dirs)
                ∧ pd1 !! "output_dir" = Some (VStr outdir)
                ∧ d ∈ dirs
                ∧ split_path (resolve outdir) `prefix_of` split_path (resolve d)
                ∧ out = [containment_error (resolve d) (resolve outdir)]
                ∧ names (containment_error (resolve d) (resolve outdir))
                    (resolve d)
                ∧ names (containment_error (resolve d) (resolve outdir))
                    (resolve outdir))
             ∨ (∃ a b,
                  marks_collide pd1 a b ∧ out = [docmark_error a b]
                  ∧ names (docmark_error a b) a
                  ∧ names (docmark_error a b) b))
  end.
Proof.
  intros Hrun resolve.
  destruct (initialize_cases args project_file Meta proj_docs)
    as [[e Hm]|(pd1 & pd2 & pd3 & H1 & H2 & H3 & Hpd3
                & [(line & Hsrc & Hm)|[(line & Hmarks & Hm)
                  |[[ex Hm]|(out' & pd & docs & Hm)]]])];
    rewrite Hrun in Hm; injection Hm as -> ->; try done.
  - split; [done|]. exists pd1. split; [done|]. left.
    pose proof (merged_shaped _ _ _ _ _ _ H1) as Hpd1.
    destruct (Hpd1 "src_dir" SList) as (? & Hdirs & [dirs ->]%has_shape_list);
      [compute_done|].
    destruct (Hpd1 "output_dir" SStr)
      as (? & Hout & [outdir ->]%has_shape_str); [compute_done|].
    exists dirs, outdir.
    pose proof (checked_entries _ _ _ _ H2 H3 "src_dir") as Hdirs3.
    pose proof (checked_entries _ _ _ _ H2 H3 "output_dir") as Hout3.
    rewrite Hdirs in Hdirs3. rewrite Hout in Hout3.
    specialize (Hdirs3 ltac:(compute_done) ltac:(done)).
    specialize (Hout3 ltac:(compute_done) ltac:(done)).
    cbn [fmap option_fmap option_map] in Hdirs3, Hout3.
    change (resolved_entry W _ "src_dir" (VList dirs))
      with (VList (resolve <$> dirs)) in Hdirs3.
    change (resolved_entry W _ "output_dir" (VStr outdir))
      with (VStr (resolve outdir)) in Hout3.
    rewrite (check_src_dirs_eq _ _ _ _ Hout3 Hdirs3) in Hsrc.
    destruct (find _ _) as [d3|] eqn:Hfind; [|done].
    injection Hsrc as <-.
    apply find_some in Hfind as [Hin Hwalk].
    apply list_elem_of_In, list_elem_of_fmap in Hin as (d & -> & Hin).
    exists d. split; [done|]. split; [done|]. split; [done|].
    split; [by apply walk_prefix|]. split; [done|].
    apply containment_error_names.
  - split; [done|]. exists pd1. split; [done|]. right.
    pose proof (merged_shaped _ _ _ _ _ _ H1) as Hpd1.
    assert (∀ m, m ∈ mark_options → pd3 !! m = pd1 !! m
                                   ∧ ∃ v, pd1 !! m = Some (VStr v)) as Hsame.
    { intros m Hin. apply list_elem_of_In in Hin. simpl in Hin.
      destruct Hin as [<-|[<-|[<-|[<-|[]]]]];
        lazymatch goal with
        | |- pd3 !! ?k = _ ∧ _ =>
            rewrite (checked_entries _ _ _ _ H2 H3 k)
              by (done || compute_done);
            destruct (Hpd1 k SStr) as (? & -> & [v ->]%has_shape_str);
              [compute_done|]
        end; eauto. }
    unfold check_docmarks in Hmarks. rewrite check_docmark_loop in Hmarks.
    + destruct (find _ _) as [[a b]|] eqn:Hfind; [|done].
      injection Hmarks as <-. exists a, b.
      split; [|split; [done|apply docmark_error_names]].
      apply find_some in Hfind as [Hin Hcollide].
      apply list_elem_of_In, docmark_pairs_marks in Hin as (Ha & Hb & Hab).
      split; [done|]. split; [done|]. split; [done|].
      apply colliding_marks in Hcollide as (v & Hv & Hva & Hvb); [|..|done|done].
      * exists v. destruct (Hsame a Ha) as [<- _], (Hsame b Hb) as [<- _].
        done.
      * intros m Hm. destruct (Hsame m Hm) as [-> ?]. done.
    + intros [a b] Hin. apply docmark_pairs_marks in Hin as (Ha & Hb & _).
      destruct (Hsame a Ha) as [Ha3 [? Ha1]], (Hsame b Hb) as [Hb3 [? Hb1]].
      simpl. rewrite Ha3, Hb3, Ha1, Hb1. done.
Qed.

End Printed.

Lemma initialize_stop_explained_witness :
  ∃ pd1,
    merge_options utils.str_to_bool example_world no_args
      (VList <$> same_marks_meta) = ([], Ret pd1)
    ∧ ∃ a b, marks_collide pd1 a b
             ∧ [docmark_error "docmark" "predocmark"] = [docmark_error a b]
             ∧ names (docmark_error a b) a ∧ names (docmark_error a b) b.
Proof.
  destruct (initialize_stop_explained utils.str_to_bool utils.split_path
              example_world no_args "proj/project.md" same_marks_meta ""
              [docmark_error "docmark" "predocmark"] (Exit 1))
    as (_ & pd1 & Hmerge & [(dirs & outdir & d & _ & _ & _ & _ & Hout & _)
                           |(a & b & Hcollide & Hline & Ha & Hb)]).
  - vm_compute. reflexivity.
  - exfalso. unfold docmark_error, containment_error in Hout.
    cbn [String.append] in Hout. discriminate Hout.
  - exists pd1. split; [exact Hmerge|]. exists a, b.
    exact (conj Hcollide (conj Hline (conj Ha Hb))).
Defined.

Section Output.

Context (str_to_bool : string → option bool).
Context (split_path : string → list string).
Context (W : world).

(** X11.  A run that returns has printed, in this order and nothing else:
    the four lines of the warning when the preprocessor could not be
    started, and then [preprocess] holds the string that stands for
    disabled; a notice for [license] and a notice for [doc_license],
    each when the value is no key of the table in lower case, and then
    the entry holds the value as it was given.  An entry for which no
    notice was printed holds markup of the table. *)
Theorem returned_output (args : namespace) (project_file : string)
    (Meta : gmap string (list string)) (proj_docs : string) out
    (pd : gmap string value) (docs : string) :
  initialize str_to_bool split_path W args project_file Meta proj_docs
    = (out, Ret (pd, docs)) →
  let noticed (key : string) (notice : list text) :=
    (notice = []
     ∧ ∃ name markup,
         lookup_license LICENSES (Py.lower name) = Some markup
         ∧ pd !! key = Some (VStr markup))
    ∨ ∃ name,
        lookup_license LICENSES (Py.lower name) = None
        ∧ pd !! key = Some (VStr name)
        ∧ notice = [license_notice key name] in
  ∃ warning notice doc_notice,
    out = warning ++ notice ++ doc_notice
    ∧ ((warning = [] ∧ pd !! "preprocess" ≠ Some (VStr "false"))
       ∨ ∃ command ex,
           popen W command = SpawnOSError ex
           ∧ warning = probe_warning command ex
           ∧ pd !! "preprocess" = Some (VStr "false"))
    ∧ noticed "license" notice
    ∧ noticed "doc_license" doc_notice.
Proof.
  intros Hrun noticed. subst noticed. cbv beta.
  destruct (initialize_inv _ _ _ _ _ _ _ _ _ _ Hrun)
    as (pd1 & pd2 & pd3 & pd4 & pd5 & out4 & out5 & out6
        & _ & _ & _ & _ & _ & _ & H4 & H5 & H6 & Hout).
  exists out4, out5, out6. split; [done|].
  apply probe_preprocessor_inv in H4 as (v & Hv & Hcases).
  apply resolve_license_inv in H5 as (name1 & Hn1 & Hc1).
  apply resolve_license_inv in H6 as (name2 & Hn2 & Hc2).
  assert (pd !! "preprocess" = pd4 !! "preprocess") as Hsame.
  { destruct Hc1 as [(_ & _ & ->)|(? & _ & _ & ->)];
      destruct Hc2 as [(_ & _ & ->)|(? & _ & _ & ->)];
      by rewrite ?lookup_insert_ne by done. }
  split; [|split].
  - rewrite Hsame.
    destruct Hcases
      as [(Hb & -> & ->)
         |(Hb & command & _ & [(ex & Hp & -> & ->)|(status & Hp & -> & ->)])].
    + left. split; [done|]. rewrite Hv. intros [= ->]. done.
    + right. exists command, ex. by rewrite lookup_insert_eq.
    + left. split; [done|].
      by rewrite lookup_insert_ne, lookup_insert_eq by done.
  - assert (pd !! "license" = pd5 !! "license") as ->.
    { destruct Hc2 as [(_ & _ & ->)|(? & _ & _ & ->)];
        by rewrite ?lookup_insert_ne by done. }
    destruct Hc1 as [(Hnone & -> & ->)|(markup & Hsome & -> & ->)].
    + right. by exists name1.
    + left. split; [done|]. exists name1, markup.
      by rewrite lookup_insert_eq.
  - destruct Hc2 as [(Hnone & -> & ->)|(markup & Hsome & -> & ->)].
    + right. by exists name2.
    + left. split; [done|]. exists name2, markup.
      by rewrite lookup_insert_eq.
Qed.

End Output.

Lemma degraded_run_returns :
  degraded_run
  = (degraded_run.1, Ret (degraded_config, (value_of (∅, "") degraded_run).2)).
Proof. apply returned_pair. vm_compute. reflexivity. Qed.

Lemma returned_output_witness :
  ∃ warning notice doc_notice,
    degraded_run.1 = warning ++ notice ++ doc_notice
    ∧ (notice = []
       ∨ ∃ name, degraded_config !! "license" = Some (VStr name)
                 ∧ notice = [license_notice "license" name]).
Proof.
  destruct (returned_output utils.str_to_bool utils.split_path example_world
              no_args "proj/project.md" degraded_meta "" _ _ _
              degraded_run_returns)
    as (warning & notice & doc_notice & Hout & _ & Hnotice & _).
  exists warning, notice, doc_notice. split; [exact Hout|].
  destruct Hnotice as [[Hnone _]|(name & _ & Hname & Hline)].
  - left. exact Hnone.
  - right. exists name. exact (conj Hname Hline).
Defined.

(** ** The probe of the preprocessor, when none is asked for *)

Lemma bind_ext_Ret {A B} (m : M A) (f g : A → M B) :
  (∀ out a, m = (out, Ret a) → f a = g a) → (m ≫= f) = (m ≫= g).
Proof.
  intros Hfg. destruct m as [out [a| |]]; [|done|done].
  unfold mbind, M_bind. by rewrite (Hfg out a).
Qed.

Section NoProbe.

Context (str_to_bool : string → option bool).
Context (split_path : string → list string).
Context (W : world).

(** X12.  When the metadata turns preprocessing off, nothing depends on how
    commands start: [initialize] does the same on a machine that
    differs only there, so no command is started. *)
Theorem no_probe_without_preprocess (popen' : list string → spawn_result)
    (args : namespace) (project_file : string)
    (Meta : gmap string (list string)) (proj_docs : string)
    (l : list string) :
  Meta !! "preprocess" = Some l →
  convert_to_bool str_to_bool "preprocess" l = ret false →
  initialize str_to_bool split_path (with_popen W popen') args project_file
    Meta proj_docs
  = initialize str_to_bool split_path W args project_file Meta proj_docs.
Proof.
  intros Hmeta Hfalse. unfold initialize.
  change (merge_options str_to_bool (with_popen W popen'))
    with (merge_options str_to_bool W).
  apply bind_ext_Ret. intros o1 pd1 H1. cbv beta zeta.
  change (posixpath.abspath (with_popen W popen'))
    with (posixpath.abspath W).
  change (resolve_paths (with_popen W popen')) with (resolve_paths W).
  apply bind_ext_Ret. intros o2 pd2 H2. cbv beta.
  change (derive_fields (with_popen W popen')) with (derive_fields W).
  apply bind_ext_Ret. intros o3 pd3 H3. cbv beta.
  apply bind_ext_Ret. intros ? [] _.
  apply bind_ext_Ret. intros ? [] _.
  apply bind_ext_Ret. intros ? docs _.
  destruct (resolve_paths_inv _ _ _ _ _ H2) as [-> _].
  destruct (derive_fields_inv _ _ _ _ H3) as [-> _].
  destruct (merged_no_cli str_to_bool W args Meta "preprocess" (VBool true)
              _ _ H1) as (v & Hv & Hm); [compute_done|done|].
  rewrite Hmeta in Hm. cbn [coerce] in Hm. rewrite Hfalse, bind_ret_l in Hm.
  injection Hm as <-.
  pose proof (checked_entries W _ _ _ _ H2 H3 "preprocess"
                ltac:(compute_done) ltac:(done)) as Hpre.
  rewrite Hv in Hpre. cbn [fmap option_fmap option_map] in Hpre.
  change (resolved_entry W _ "preprocess" (VBool false))
    with (VBool false) in Hpre.
  unfold probe_preprocessor.
  by rewrite (getitem_Some _ _ _ Hpre), !bind_ret_l.
Qed.

End NoProbe.

Lemma no_probe_without_preprocess_witness :
  initialize utils.str_to_bool utils.split_path broken_world
    no_args "proj/project.md" preprocess_off_meta ""
  = initialize utils.str_to_bool utils.split_path example_world
      no_args "proj/project.md" preprocess_off_meta "".
Proof.
  apply (no_probe_without_preprocess utils.str_to_bool utils.split_path
           example_world _ no_args "proj/project.md" preprocess_off_meta ""
           ["false"]);
    reflexivity.
Defined.

(** ** The extensions, once more *)

(** X13.  Adding the extensions to preprocess a second time adds nothing:
    the list holds exactly the extensions of the two lists, and when
    neither list repeats an extension the result repeats none. *)
Theorem add_fpp_extensions_settled (extensions fpp_extensions : list string) :
  add_fpp_extensions (add_fpp_extensions extensions fpp_extensions)
    fpp_extensions
  = add_fpp_extensions extensions fpp_extensions
  ∧ (∀ ext, ext ∈ add_fpp_extensions extensions fpp_extensions
            ↔ ext ∈ extensions ∨ ext ∈ fpp_extensions)
  ∧ (NoDup extensions → NoDup fpp_extensions →
     NoDup (add_fpp_extensions extensions fpp_extensions)).
Proof.
  assert (∀ ext, ext ∈ add_fpp_extensions extensions fpp_extensions
                 ↔ ext ∈ extensions ∨ ext ∈ fpp_extensions) as Hin.
  { intros ext. unfold add_fpp_extensions.
    rewrite elem_of_app, list_elem_of_filter. split.
    - intros [Hext|[_ Hext]]; [by left|by right].
    - intros [Hext|Hext]; [by left|].
      destruct (decide (ext ∈ extensions)); [by left|by right]. }
  split; [|split; [done|]].
  - unfold add_fpp_extensions at 1.
    destruct (filter _ fpp_extensions) as [|ext rest] eqn:Hrest;
      [apply app_nil_r|].
    assert (ext ∈ ext :: rest) as Hext by apply list_elem_of_here.
    rewrite <- Hrest in Hext.
    apply list_elem_of_filter in Hext as [Hnot Hext].
    exfalso. apply Hnot, Hin. by right.
  - intros Hnd Hfpp. unfold add_fpp_extensions. apply NoDup_app.
    split; [done|]. split; [|by apply NoDup_filter].
    by intros ext Hext [Hnot _]%list_elem_of_filter.
Qed.

(** ** The first source directory in the output directory *)

(** X14.  The containment check stops with status 1 after one line, the
    diagnostic for the first source directory, in the order of the
    list, that is the output directory or lies beneath it; the line
    names that directory and the output directory, and the directories
    after it are not looked at. *)
Theorem first_contained_dir_reported (split_path : string → list string)
    (pd : gmap string value) (out d : string) (before after : list string) :
  pd !! "output_dir" = Some (VStr out) →
  pd !! "src_dir" = Some (VList (before ++ d :: after)) →
  (∀ b, b ∈ before → ¬ split_path out `prefix_of` split_path b) →
  split_path out `prefix_of` split_path d →
  check_src_dirs split_path pd = ([containment_error d out], Exit 1)
  ∧ names (containment_error d out) d
  ∧ names (containment_error d out) out.
Proof.
  intros Hout Hsrc Hbefore Hd. split; [|apply containment_error_names].
  rewrite (check_src_dirs_eq _ _ _ _ Hout Hsrc). clear Hsrc.
  induction before as [|b before IH]; cbn [app find].
  - by rewrite (proj2 (walk_prefix _ _) Hd).
  - destruct (walk (split_path out) (split_path b)) eqn:Hb.
    + exfalso. apply (Hbefore b); [apply list_elem_of_here|].
      by apply walk_prefix.
    + apply IH. intros b' Hb'. apply Hbefore. by apply list_elem_of_further.
Qed.

Lemma first_contained_dir_reported_witness :
  check_src_dirs utils.split_path second_contained_config
  = ([containment_error "/work/proj/doc/lib" "/work/proj/doc"], Exit 1)
  ∧ names (containment_error "/work/proj/doc/lib" "/work/proj/doc")
      "/work/proj/doc/lib"
  ∧ names (containment_error "/work/proj/doc/lib" "/work/proj/doc")
      "/work/proj/doc".
Proof.
  refine (first_contained_dir_reported utils.split_path
            second_contained_config "/work/proj/doc"
            "/work/proj/doc/lib" ["/work/proj/src"] ["/work/proj/doc"]
            _ _ _ _);
    [reflexivity|reflexivity| |].
  - intros b ->%list_elem_of_singleton. vm_compute.
    intros [k Hk]. discriminate Hk.
  - by exists ["lib"].
Defined.

(** ** The names of the returned configuration *)

Lemma insert_same_keys {V} (m : gmap string V) (i k : string) (x : V) :
  is_Some (m !! i) → is_Some (<[i := x]> m !! k) ↔ is_Some (m !! k).
Proof.
  intros Hi. destruct (decide (i = k)) as [->|Hne].
  - rewrite lookup_insert_eq. split; [done|by eexists].
  - by rewrite lookup_insert_ne.
Qed.

Section Keys.

Context (str_to_bool : string → option bool).
Context (split_path : string → list string).
Context (W : world).

(** X15.  The returned configuration has an entry for every option, for
    every name of the metadata, for [base_dir] and for [relative], and
    for nothing else. *)
Theorem returned_keys (args : namespace) (project_file : string)
    (Meta : gmap string (list string)) (proj_docs : string) out
    (pd : gmap string value) (docs : string) :
  initialize str_to_bool split_path W args project_file Meta proj_docs
    = (out, Ret (pd, docs)) →
  ∀ k, is_Some (pd !! k)
       ↔ k ∈ (defaults W).*1 ∨ is_Some (Meta !! k)
         ∨ k = "base_dir" ∨ k = "relative".
Proof.
  intros Hrun k.
  destruct (initialize_inv _ _ _ _ _ _ _ _ _ _ Hrun)
    as (pd1 & pd2 & pd3 & pd4 & pd5 & out4 & out5 & out6
        & H1 & H2 & H3 & _ & _ & _ & H4 & H5 & H6 & _).
  destruct (initialize_inv_shaped str_to_bool W _ _ _ _ _ _ H1 H2 H3)
    as (_ & _ & Hpd3).
  assert (is_Some (pd !! k) ↔ is_Some (pd3 !! k)) as ->.
  { apply probe_preprocessor_inv in H4 as (v & Hv & Hcases).
    apply resolve_license_inv in H5 as (name1 & Hn1 & Hc1).
    apply resolve_license_inv in H6 as (name2 & Hn2 & Hc2).
    assert (is_Some (pd4 !! k) ↔ is_Some (pd3 !! k)) as <-.
    { destruct Hcases
        as [(_ & _ & ->)
           |(_ & command & _ & [(ex & _ & _ & ->)|(status & _ & _ & ->)])];
        [done| |].
      - by apply insert_same_keys.
      - rewrite !insert_same_keys; [done|done|].
        rewrite lookup_insert_ne by done.
        destruct (Hpd3 "preprocessor" SStr) as (? & -> & _);
          [compute_done|done]. }
    assert (is_Some (pd5 !! k) ↔ is_Some (pd4 !! k)) as <-.
    { destruct Hc1 as [(_ & _ & ->)|(? & _ & _ & ->)]; [done|].
      by apply insert_same_keys. }
    destruct Hc2 as [(_ & _ & ->)|(? & _ & _ & ->)]; [done|].
    by apply insert_same_keys. }
  assert (is_Some (pd3 !! k) ↔ is_Some (pd2 !! k) ∨ k = "relative") as ->.
  { apply derive_fields_inv in H3
      as (_ & ? & ? & ? & ? & ? & ? & Hd1 & Hd2 & _ & Hd4 & _ & Hd6 & ->).
    unfold derived.
    rewrite insert_same_keys by (by rewrite !lookup_insert_ne by done).
    rewrite insert_same_keys by (by rewrite !lookup_insert_ne by done).
    destruct (decide (k = "relative")) as [->|Hrel].
    - rewrite lookup_insert_eq. split; [by right|by eexists].
    - rewrite lookup_insert_ne by done.
      rewrite insert_same_keys by (by rewrite !lookup_insert_ne by done).
      rewrite insert_same_keys by done.
      split; [by left|by intros [Hk|Hk]]. }
  assert (is_Some (pd2 !! k) ↔ is_Some (pd1 !! k) ∨ k = "base_dir") as ->.
  { apply resolve_paths_inv in H2 as [_ ->]. rewrite fmap_is_Some.
    destruct (decide (k = "base_dir")) as [->|Hbase].
    - rewrite lookup_insert_eq. split; [by right|by eexists].
    - rewrite lookup_insert_ne by done.
      split; [by left|by intros [Hk|Hk]]. }
  destruct (merge_loop_returns _ _ _ (defaults_NoDup W) _ _ _ H1)
    as (_ & Hopts & Hothers).
  destruct (decide (k ∈ (defaults W).*1)) as [Hin|Hnot].
  - pose proof Hin as Hin'.
    apply list_elem_of_fmap in Hin' as ([opt d] & Hk & Hin').
    simpl in Hk. subst k.
    destruct (Hopts _ _ Hin') as (v & Hv & _). rewrite Hv.
    split; [by left|intros _; left; left; by eexists].
  - rewrite (Hothers k Hnot), lookup_fmap, fmap_is_Some. tauto.
Qed.

End Keys.

Lemma returned_keys_witness :
  is_Some (chat_config !! "quiet") ∧ is_Some (chat_config !! "notes")
  ∧ ¬ is_Some (chat_config !! "absent").
Proof.
  pose proof (returned_keys utils.str_to_bool utils.split_path example_world
                no_args "proj/project.md" chat_meta "<p>Hello</p>" _ _ _
                chat_run_returns) as Hkeys.
  split; [|split].
  - apply Hkeys. left. compute_done.
  - apply Hkeys. right. left. compute_done.
  - intros [Hopt|[Hmeta|[Hbase|Hrel]]]%Hkeys.
    + revert Hopt. compute_done.
    + revert Hmeta. compute_done.
    + discriminate Hbase.
    + discriminate Hrel.
Defined.

(** ** The flags of the returned configuration *)

Lemma flags_defaults (W : world) (opt : string) (b : bool) :
  (opt, VBool b) ∈ defaults W → opt ≠ "preprocess" → opt ∈ flags.
Proof.
  intros Hin Hne. unfold defaults in Hin.
  repeat (apply elem_of_cons in Hin as [Heq|Hin];
          [try discriminate Heq; injection Heq as -> _;
           first [done|compute_done]|]).
  by apply elem_of_nil in Hin.
Qed.

Lemma getattr_flag (args : namespace) (opt : string) (v : value) :
  opt ∈ flags → getattr args opt = Some v →
  (∃ b, v = VBool b)
  ∨ (opt = "externalize" ∧ a_externalize args = true ∧ v = VStr "true").
Proof.
  intros Hin Hv. destruct args. unfold flags in Hin.
  repeat (apply elem_of_cons in Hin as [->|Hin];
          [vm_compute in Hv;
           repeat match type of Hv with
                  | (if ?x then _ else _) = _ => destruct x
                  end;
           try discriminate Hv; injection Hv as <-;
           first [left; by eexists|by right]|]).
  by apply elem_of_nil in Hin.
Qed.

Section Flags.

Context (str_to_bool : string → option bool).
Context (split_path : string → list string).
Context (W : world).

(** X16.  Every option whose default is a boolean, [preprocess] apart, holds
    a boolean in the returned configuration, with one exception: when
    [--externalize] is on the command line, [externalize] holds the
    string that stands for true. *)
Theorem returned_flags (args : namespace) (project_file : string)
    (Meta : gmap string (list string)) (proj_docs : string) out
    (pd : gmap string value) (docs : string) :
  initialize str_to_bool split_path W args project_file Meta proj_docs
    = (out, Ret (pd, docs)) →
  ∀ opt b0, (opt, VBool b0) ∈ defaults W → opt ≠ "preprocess" →
    (∃ b, pd !! opt = Some (VBool b))
    ∨ (opt = "externalize" ∧ a_externalize args = true
       ∧ pd !! opt = Some (VStr "true")).
Proof.
  intros Hrun opt b0 Hin Hne.
  pose proof (flags_defaults W opt b0 Hin Hne) as Hflag.
  destruct (returned_lookup str_to_bool split_path W _ _ _ _ _ _ _ Hrun)
    as (pd1 & H1 & Hk).
  destruct (merge_options_returns _ _ _ _ _ _ H1) as [_ Hopts].
  destruct (Hopts _ _ Hin) as (v & Hv & Hm).
  assert (pd !! opt = Some v) as ->.
  { rewrite Hk.
    - rewrite lookup_insert_ne, Hv.
      + unfold flags in Hflag.
        repeat (apply elem_of_cons in Hflag as [->|Hflag]; [done|]).
        by apply elem_of_nil in Hflag.
      + intros <-. revert Hflag. compute_done.
    - intros Hd. revert Hflag. apply list_elem_of_In in Hd. simpl in Hd.
      destruct Hd as [<-|[<-|[<-|[<-|[<-|[]]]]]]; compute_done.
    - intros Hd. revert Hflag. apply list_elem_of_In in Hd. simpl in Hd.
      destruct Hd as [<-|[<-|[<-|[<-|[]]]]]; [done|compute_done..]. }
  unfold by_precedence in Hm.
  destruct (getattr args opt) as [v'|] eqn:Hcli.
  - injection Hm as ->.
    destruct (getattr_flag args opt v Hflag Hcli) as [[b ->]|(-> & Hext & ->)];
      [left; by exists b|by right].
  - left. destruct (Meta !! opt) as [l|].
    + cbn [coerce] in Hm.
      apply bind_Ret_inv in Hm as (? & b & ? & _ & Hm & _).
      injection Hm as _ <-. by exists b.
    + injection Hm as <-. by exists b0.
Qed.

End Flags.

Lemma returned_flags_witness :
  ∃ b, chat_config !! "quiet" = Some (VBool b).
Proof.
  destruct (returned_flags utils.str_to_bool utils.split_path example_world
              no_args "proj/project.md" chat_meta "<p>Hello</p>" _ _ _
              chat_run_returns "quiet" false)
    as [Hbool|(Hopt & _)].
  - compute_done.
  - discriminate.
  - exact Hbool.
  - discriminate Hopt.
Defined.
